(** * Ledger and balance reconciliation of the finance tracker bot

    A shallow embedding of the database layer of [main.py]: the
    [transactions] table created by [init_db], the balance lookup
    [get_last_balance], the batch insert [add_multiple_transactions], the
    history query [get_all_transactions], the soft delete
    [delete_transaction_and_recalculate], the "debt paid" branch of
    [button_handler] and the reminder job [check_due_debts].

    Modelling conventions.
    - A Python [float] and an SQLite [REAL] are both IEEE binary64 values:
      they are Rocq's primitive [float], with the primitive [+] and [-].
      A [REAL] column is taken to give back the double that was written
      to it; a NaN is bound as NULL and is refused by the [NOT NULL]
      columns [amount] and [balance].
    - Python [int]s and SQLite integers are [Z]; row ids stop at 2^63-1.
    - Text is [string] over ASCII; [str.lower] and [str.upper] change the
      letters A-Z and a-z only.  SQL [=] and [<=] on text are the bytewise
      comparisons [String.eqb] and [String.leb].
    - A [sqlite3] connection works on a private copy of the database;
      [commit] publishes it, an exception that leaves the function without
      [commit] (or with [rollback]) publishes nothing.
    - What the code asks of the outside world is an argument of the
      model: the readings of the clock, and whether a reminder could be
      delivered. *)

From Stdlib Require Import ZArith List String Ascii Bool Lia Floats.
From Stdlib Require Import Decimal DecimalString DecimalPos.
From stdpp Require Import gmap strings list fin_maps sorting.
Import ListNotations.

Open Scope string_scope.
Open Scope list_scope.
Open Scope Z_scope.

(** ** Text *)

Definition lower_ascii (c : ascii) : ascii :=
  let n := N_of_ascii c in
  if ((65 <=? n) && (n <=? 90))%N then ascii_of_N (n + 32) else c.

Definition upper_ascii (c : ascii) : ascii :=
  let n := N_of_ascii c in
  if ((97 <=? n) && (n <=? 122))%N then ascii_of_N (n - 32) else c.

Fixpoint lower (s : string) : string :=
  match s with
  | EmptyString => EmptyString
  | String c s' => String (lower_ascii c) (lower s')
  end.

Fixpoint upper (s : string) : string :=
  match s with
  | EmptyString => EmptyString
  | String c s' => String (upper_ascii c) (upper s')
  end.

(** [f"{x}"] of an optional text: [None] prints as the word None. *)
Definition format_opt (o : option string) : string :=
  match o with
  | Some s => s
  | None => "None"
  end.

(** ** Rows of the [transactions] table *)

Module Tx.
Record t : Type := mk {
  id : Z;
  user_id : Z;
  date : string;
  type : string;
  category : string;
  amount : float;
  balance : float;
  description : string;
  currency : string;
  debtor_name : option string;
  return_date : option string;
  notified : Z;
  debt_status : string;
  is_deleted : Z
}.

Definition set_balance (b : float) (r : t) : t :=
  mk (id r) (user_id r) (date r) (type r) (category r) (amount r) b
     (description r) (currency r) (debtor_name r) (return_date r)
     (notified r) (debt_status r) (is_deleted r).

Definition set_is_deleted (d : Z) (r : t) : t :=
  mk (id r) (user_id r) (date r) (type r) (category r) (amount r) (balance r)
     (description r) (currency r) (debtor_name r) (return_date r)
     (notified r) (debt_status r) d.

Definition set_debt_status (st : string) (r : t) : t :=
  mk (id r) (user_id r) (date r) (type r) (category r) (amount r) (balance r)
     (description r) (currency r) (debtor_name r) (return_date r)
     (notified r) st (is_deleted r).

Definition set_notified (n : Z) (r : t) : t :=
  mk (id r) (user_id r) (date r) (type r) (category r) (amount r) (balance r)
     (description r) (currency r) (debtor_name r) (return_date r)
     n (debt_status r) (is_deleted r).
End Tx.

(** ** Transaction candidates: the dictionaries handed to the batch insert *)

Module Draft.
Record t : Type := mk {
  type : string;
  amount : float;                (* [float(trans['amount'])] *)
  category : string;
  description : string;
  currency : option string;      (* [trans.get('currency', 'UZS')] *)
  debtor_name : option string;   (* [trans.get('debtor_name')] *)
  return_date : option string    (* [trans.get('return_date')] *)
}.
End Draft.

(** ** The database *)

(** The table in insertion order, and the [sqlite_sequence] entry that
    [AUTOINCREMENT] keeps for it. *)
Record db : Type := mkdb {
  transactions : list Tx.t;
  sqlite_sequence : Z
}.

(** The file after [init_db] ran on a new database. *)
Definition init_db : db := mkdb [] 0.

Inductive exn : Type :=
| KeyError (key : string)
| ValueError (msg : string)
| IntegrityError (column : string)
| OperationalError (msg : string).

Inductive result (A : Type) : Type :=
| Ok (a : A)
| Raise (e : exn).
Arguments Ok {A} a.
Arguments Raise {A} e.

(** Statements run on a connection: they read and write its working copy
    and may raise. *)
Definition cursor (A : Type) : Type := db -> result (A * db).

Definition ret {A} (a : A) : cursor A := fun s => Ok (a, s).

Definition raise {A} (e : exn) : cursor A := fun _ => Raise e.

Definition bind {A B} (m : cursor A) (k : A -> cursor B) : cursor B :=
  fun s =>
    match m s with
    | Ok (a, s') => k a s'
    | Raise e => Raise e
    end.

Notation "x <- m ;; k" := (bind m (fun x => k))
  (at level 100, m at next level, right associativity).
Notation "m ;;; k" := (bind m (fun _ => k))
  (at level 100, right associativity).

(** A connection opened on [s] runs [m] and commits; when [m] raises, the
    working copy is dropped and the database is still [s]. *)
Definition transact {A} (m : cursor A) (s : db) : db * result A :=
  match m s with
  | Ok (a, s') => (s', Ok a)
  | Raise e => (s, Raise e)
  end.

(** ** SQL building blocks *)

Fixpoint insert_by_id (r : Tx.t) (l : list Tx.t) : list Tx.t :=
  match l with
  | [] => [r]
  | x :: l' => if Tx.id r <? Tx.id x then r :: l else x :: insert_by_id r l'
  end.

(** [ORDER BY id ASC] *)
Fixpoint order_by_id (l : list Tx.t) : list Tx.t :=
  match l with
  | [] => []
  | r :: l' => insert_by_id r (order_by_id l')
  end.

(** [ORDER BY id DESC] *)
Definition order_by_id_desc (l : list Tx.t) : list Tx.t := reverse (order_by_id l).

(** [LIMIT n] *)
Definition limit {A} (n : nat) (l : list A) : list A := firstn n l.

(** [cursor.fetchone()] *)
Definition fetchone {A} (l : list A) : option A := head l.

Arguments limit : simpl never.
Arguments fetchone : simpl never.

(** [UPDATE transactions SET ... WHERE id = ?] *)
Definition update_where_id (i : Z) (f : Tx.t -> Tx.t) (l : list Tx.t) : list Tx.t :=
  map (fun r => if Tx.id r =? i then f r else r) l.

Fixpoint max_rowid (l : list Tx.t) : Z :=
  match l with
  | [] => 0
  | r :: l' => Z.max (Tx.id r) (max_rowid l')
  end.

Definition largest_rowid : Z := 9223372036854775807.

(** The id [AUTOINCREMENT] gives to the next row: one more than the largest
    id the table ever held. *)
Definition next_rowid (s : db) : Z :=
  Z.max (sqlite_sequence s) (max_rowid (transactions s)) + 1.

(** [INSERT INTO transactions (user_id, date, type, category, amount,
    currency, balance, description, debtor_name, return_date)]; the other
    columns take their defaults.  The result is [cursor.lastrowid]. *)
Definition insert_transaction (user_id : Z) (date type category : string)
    (amount : float) (currency : string) (balance : float)
    (description : string) (debtor return_date : option string) : cursor Z :=
  fun s =>
    if is_nan amount then Raise (IntegrityError "transactions.amount")
    else if is_nan balance then Raise (IntegrityError "transactions.balance")
    else
      let i := next_rowid s in
      if largest_rowid <? i then Raise (OperationalError "database or disk is full")
      else
        Ok (i, mkdb (transactions s ++
                      [Tx.mk i user_id date type category amount balance
                             description currency debtor return_date 0 "open" 0])
                    i).

(** [UPDATE transactions SET balance = ? WHERE id = ?] *)
Definition update_balance (b : float) (i : Z) : cursor unit :=
  fun s =>
    if existsb (fun r => Tx.id r =? i) (transactions s) && is_nan b
    then Raise (IntegrityError "transactions.balance")
    else Ok (tt, mkdb (update_where_id i (Tx.set_balance b) (transactions s))
                      (sqlite_sequence s)).

Definition update_is_deleted (i : Z) : cursor unit :=
  fun s => Ok (tt, mkdb (update_where_id i (Tx.set_is_deleted 1) (transactions s))
                        (sqlite_sequence s)).

Definition update_debt_status_paid (i : Z) (s : db) : db :=
  mkdb (update_where_id i (Tx.set_debt_status "paid") (transactions s))
       (sqlite_sequence s).

Definition update_notified (i : Z) (s : db) : db :=
  mkdb (update_where_id i (Tx.set_notified 1) (transactions s))
       (sqlite_sequence s).

(** [SELECT * FROM transactions WHERE id = ? AND user_id = ?
    AND is_deleted = 0], then [fetchone]. *)
Definition own_row (user_id transaction_id : Z) (s : db) : option Tx.t :=
  fetchone (List.filter
              (fun r => (Tx.id r =? transaction_id)
                        && (Tx.user_id r =? user_id)
                        && (Tx.is_deleted r =? 0))
              (transactions s)).

(** [WHERE user_id = ? AND currency = ? AND is_deleted = 0] *)
Definition active_in (user_id : Z) (currency : string) (r : Tx.t) : bool :=
  (Tx.user_id r =? user_id) && (Tx.currency r =? currency)%string
  && (Tx.is_deleted r =? 0).

(** ** [get_last_balance] *)

Definition get_last_balance (user_id : Z) (currency : string) (s : db) : float :=
  match fetchone (limit 1 (order_by_id_desc
                             (List.filter (active_in user_id (upper currency))
                                          (transactions s)))) with
  | Some r => Tx.balance r
  | None => 0%float
  end.

(** ** [add_multiple_transactions] *)

(** [balances[currency]]: a missing key raises [KeyError]. *)
Definition dict_get (balances : gmap string float) (k : string) : cursor float :=
  match balances !! k with
  | Some b => ret b
  | None => raise (KeyError k)
  end.

(** The body of [for trans in transactions], with the local variables
    [balances] and [new_transaction_ids].  [now k] is what
    [datetime.now(timezone.utc).isoformat()] gives when the call reads the
    clock for the row it inserts after [k] others. *)
Fixpoint add_loop (user_id : Z) (now : nat -> string) (transactions : list Draft.t)
    (balances : gmap string float) (new_transaction_ids : list Z)
    : cursor (gmap string float * list Z) :=
  match transactions with
  | [] => ret (balances, new_transaction_ids)
  | trans :: rest =>
      let amount := Draft.amount trans in
      let trans_type := lower (Draft.type trans) in
      let currency := upper (default "UZS" (Draft.currency trans)) in
      let step (op : float -> float -> float) :=
        b <- dict_get balances currency ;;
        let balances := <[currency := op b amount]> balances in
        b' <- dict_get balances currency ;;
        i <- insert_transaction user_id (now (length new_transaction_ids))
               (Draft.type trans)
               (Draft.category trans) amount currency b'
               (Draft.description trans) (Draft.debtor_name trans)
               (Draft.return_date trans) ;;
        add_loop user_id now rest balances (new_transaction_ids ++ [i]) in
      if (trans_type =? "expense")%string then step PrimFloat.sub
      else if (trans_type =? "income")%string then step PrimFloat.add
      else add_loop user_id now rest balances new_transaction_ids
  end.

Definition add_multiple_transactions (user_id : Z) (now : nat -> string)
    (transactions : list Draft.t) (s : db)
    : db * result (gmap string float * list Z) :=
  let balances : gmap string float :=
    <["USD" := get_last_balance user_id "USD" s]>
      (<["UZS" := get_last_balance user_id "UZS" s]> ∅) in
  transact (add_loop user_id now transactions balances []) s.

(** ** [get_all_transactions] *)

Definition get_all_transactions (user_id : Z) (s : db) : list Tx.t :=
  order_by_id_desc
    (List.filter (fun r => (Tx.user_id r =? user_id) && (Tx.is_deleted r =? 0))
                 (transactions s)).

(** ** [delete_transaction_and_recalculate] *)

(** The loop over [subsequent_transactions], rows [(id, type, amount)]. *)
Fixpoint recalculate (subsequent : list (Z * string * float))
    (current_balance : float) : cursor unit :=
  match subsequent with
  | [] => ret tt
  | (sub_id, sub_type, sub_amount) :: rest =>
      let current_balance :=
        if (lower sub_type =? "expense")%string
        then (current_balance - sub_amount)%float
        else (current_balance + sub_amount)%float in
      update_balance current_balance sub_id ;;;
      recalculate rest current_balance
  end.

Definition delete_body (user_id transaction_id : Z) : cursor unit :=
  fun s =>
    match own_row user_id transaction_id s with
    | None => Raise (ValueError "Transaction not found.")
    | Some trans_to_delete =>
        (update_is_deleted transaction_id ;;;
         fun s1 =>
           let previous_balance :=
             fetchone (limit 1 (order_by_id_desc
                         (List.filter
                            (fun r => active_in user_id (Tx.currency trans_to_delete) r
                                      && (Tx.id r <? transaction_id))
                            (transactions s1)))) in
           let current_balance :=
             match previous_balance with
             | Some r => Tx.balance r
             | None => 0%float
             end in
           let subsequent_transactions :=
             map (fun r => (Tx.id r, Tx.type r, Tx.amount r))
                 (order_by_id
                    (List.filter
                       (fun r => active_in user_id (Tx.currency trans_to_delete) r
                                 && (transaction_id <? Tx.id r))
                       (transactions s1))) in
           recalculate subsequent_transactions current_balance s1) s
    end.

Definition delete_transaction_and_recalculate (user_id transaction_id : Z)
    (s : db) : db * result unit :=
  transact (delete_body user_id transaction_id) s.

(** ** The "debt paid" branch of [button_handler] *)

Inductive reply : Type :=
| DebtMarkedPaid (transaction_id : Z)   (* "Debt #.. marked as paid and income logged." *)
| CouldNotComplete.                     (* "This action could not be completed." *)

Definition repayment_of (debt_trans : Tx.t) : Draft.t :=
  Draft.mk "income" (Tx.amount debt_trans) "Debt Repayment"
           ("Repayment from " ++ format_opt (Tx.debtor_name debt_trans))%string
           (Some (Tx.currency debt_trans)) None None.

(** The handler opens three connections in turn: a read, the batch insert
    (which commits), and the status update (which commits).  The result
    lists the database after each commit, oldest first, and how the handler
    ended: a reply to the user, or the exception that escaped it. *)
Definition debt_paid (user_id transaction_id : Z) (now : nat -> string) (s : db)
    : list db * result reply :=
  match own_row user_id transaction_id s with
  | Some debt_trans =>
      if (Tx.debt_status debt_trans =? "open")%string then
        match add_multiple_transactions user_id now [repayment_of debt_trans] s with
        | (s1, Ok _) =>
            ([s1; update_debt_status_paid transaction_id s1],
             Ok (DebtMarkedPaid transaction_id))
        | (_, Raise e) => ([], Raise e)
        end
      else ([], Ok CouldNotComplete)
  | None => ([], Ok CouldNotComplete)
  end.

(** The database a run leaves behind: its last commit. *)
Definition after_commits (s : db) (commits : list db) : db := List.last commits s.

(** ** [check_due_debts] *)

(** [WHERE category = 'Debt' AND return_date <= ? AND notified = 0
    AND is_deleted = 0 AND debt_status = 'open']; a NULL [return_date]
    compares as unknown and the row is left out. *)
Definition is_due_unnotified (today_str : string) (r : Tx.t) : bool :=
  (Tx.category r =? "Debt")%string
  && match Tx.return_date r with
     | Some d => (d <=? today_str)%string
     | None => false
     end
  && (Tx.notified r =? 0)
  && (Tx.is_deleted r =? 0)
  && (Tx.debt_status r =? "open")%string.

Definition find_due_unnotified (today_str : string) (s : db) : list Tx.t :=
  List.filter (is_due_unnotified today_str) (transactions s).

(** [SELECT id, user_id, debtor_name, amount, currency] *)
Definition due_debts (today_str : string) (s : db)
    : list (Z * Z * option string * float * string) :=
  map (fun r => (Tx.id r, Tx.user_id r, Tx.debtor_name r, Tx.amount r, Tx.currency r))
      (find_due_unnotified today_str s).

(** The reminder loop.  [delivered debt_id] tells whether [send_message]
    returned for that reminder; building the text fails beforehand when the
    debtor name is NULL.  Either failure is caught and logged, and the row
    is left unmarked. *)
Fixpoint remind (due : list (Z * Z * option string * float * string))
    (delivered : Z -> bool) (s : db) : db :=
  match due with
  | [] => s
  | (debt_id, _, debtor, _, _) :: rest =>
      match debtor with
      | Some _ =>
          if delivered debt_id
          then remind rest delivered (update_notified debt_id s)
          else remind rest delivered s
      | None => remind rest delivered s
      end
  end.

Definition check_due_debts (today_str : string) (delivered : Z -> bool) (s : db) : db :=
  remind (due_debts today_str s) delivered s.

(** ** Requests reaching the ledger *)

Inductive request : Type :=
| Add (user_id : Z) (now : nat -> string) (transactions : list Draft.t)
| Undo (user_id transaction_id : Z)
| DebtPaid (user_id transaction_id : Z) (now : nat -> string)
| DueScan (today_str : string) (delivered : Z -> bool).

Definition handle (s : db) (q : request) : db :=
  match q with
  | Add user_id now transactions =>
      fst (add_multiple_transactions user_id now transactions s)
  | Undo user_id transaction_id =>
      fst (delete_transaction_and_recalculate user_id transaction_id s)
  | DebtPaid user_id transaction_id now =>
      after_commits s (fst (debt_paid user_id transaction_id now s))
  | DueScan today_str delivered => check_due_debts today_str delivered s
  end.

Definition run (qs : list request) (s : db) : db := fold_left handle qs s.

(** * Vocabulary of the properties *)

(** ** Keys and streams *)

Definition id_lt (a b : Tx.t) : Prop := Tx.id a < Tx.id b.

Definition id_le (a b : Tx.t) : Prop := Tx.id a <= Tx.id b.

(** The table as SQLite keeps it: rows in increasing id order, no id twice
    ([INTEGER PRIMARY KEY]). *)
Definition well_keyed (s : db) : Prop := StronglySorted id_lt (transactions s).

(** The largest id the table ever held, as [AUTOINCREMENT] sees it. *)
Definition high (s : db) : Z := Z.max (sqlite_sequence s) (max_rowid (transactions s)).

(** [l] is strictly increasing and lies in the interval from [lo]
    (excluded) to [hi] (included). *)
Fixpoint increasing_between (lo : Z) (l : list Z) (hi : Z) : Prop :=
  match l with
  | [] => lo <= hi
  | x :: l' => lo < x /\ increasing_between x l' hi
  end.

(** The ids a request hands out: those returned by the batch insert it
    runs, none when the insert raised. *)
Definition assigned_ids (s : db) (q : request) : list Z :=
  match q with
  | Add user_id now transactions =>
      match snd (add_multiple_transactions user_id now transactions s) with
      | Ok (_, ids) => ids
      | Raise _ => []
      end
  | DebtPaid user_id transaction_id now =>
      match own_row user_id transaction_id s with
      | Some debt_trans =>
          if (Tx.debt_status debt_trans =? "open")%string then
            match snd (add_multiple_transactions user_id now
                         [repayment_of debt_trans] s) with
            | Ok (_, ids) => ids
            | Raise _ => []
            end
          else []
      | None => []
      end
  | Undo _ _ | DueScan _ _ => []
  end.

Fixpoint all_assigned_ids (qs : list request) (s : db) : list Z :=
  match qs with
  | [] => []
  | q :: qs' => assigned_ids s q ++ all_assigned_ids qs' (handle s q)
  end.

(** The non-deleted rows of an owner in a currency, ordered by id. *)
Definition stream (user_id : Z) (currency : string) (s : db) : list Tx.t :=
  order_by_id (List.filter (active_in user_id currency) (transactions s)).

(** The balance of a stream of rows: that of its last row, [z] when there
    is none. *)
Definition closing_balance (z : float) (l : list Tx.t) : float :=
  match last l with
  | Some r => Tx.balance r
  | None => z
  end.

(** ** The balance fold *)

(** What a row does to the balance before it: an expense subtracts its
    amount, an income adds it. *)
Definition signed_apply (prev : float) (r : Tx.t) : option float :=
  if (lower (Tx.type r) =? "expense")%string then Some (prev - Tx.amount r)%float
  else if (lower (Tx.type r) =? "income")%string then Some (prev + Tx.amount r)%float
  else None.

(** Invariant I1 on one stream, [prev] being the balance before its first
    row. *)
Fixpoint balance_fold (prev : float) (l : list Tx.t) : Prop :=
  match l with
  | [] => True
  | r :: l' => signed_apply prev r = Some (Tx.balance r) /\ balance_fold (Tx.balance r) l'
  end.

(** The invariant of the ledger: keys in order, and I1 on every stream. *)
Definition ledger_ok (s : db) : Prop :=
  well_keyed s /\
  forall user_id currency,
    balance_fold 0 (List.filter (active_in user_id currency) (transactions s)).

(** An update that leaves the columns of the ledger alone. *)
Definition ledger_neutral (f : Tx.t -> Tx.t) : Prop :=
  forall r,
    Tx.id (f r) = Tx.id r /\ Tx.user_id (f r) = Tx.user_id r /\
    Tx.currency (f r) = Tx.currency r /\ Tx.is_deleted (f r) = Tx.is_deleted r /\
    Tx.type (f r) = Tx.type r /\ Tx.amount (f r) = Tx.amount r /\
    Tx.balance (f r) = Tx.balance r.

(** ** Candidates and the rows they become *)

(** The candidates that are not skipped. *)
Definition valid_type (d : Draft.t) : bool :=
  (lower (Draft.type d) =? "expense")%string
  || (lower (Draft.type d) =? "income")%string.

(** How a candidate moves its balance; [None] for a type that is neither
    expense nor income. *)
Definition draft_effect (d : Draft.t) : option (float -> float -> float) :=
  if (lower (Draft.type d) =? "expense")%string then Some PrimFloat.sub
  else if (lower (Draft.type d) =? "income")%string then Some PrimFloat.add
  else None.

(** The balance after a candidate of valid type. *)
Definition after_draft (prev : float) (d : Draft.t) : float :=
  if (lower (Draft.type d) =? "expense")%string
  then (prev - Draft.amount d)%float
  else (prev + Draft.amount d)%float.

(** The currency of a candidate as the insert reads it. *)
Definition draft_currency (d : Draft.t) : string :=
  upper (default "UZS" (Draft.currency d)).

(** The row a candidate becomes, given its id, date and balance. *)
Definition row_of (i user_id : Z) (date : string) (d : Draft.t) (b : float) : Tx.t :=
  Tx.mk i user_id date (Draft.type d) (Draft.category d) (Draft.amount d) b
        (Draft.description d) (draft_currency d) (Draft.debtor_name d)
        (Draft.return_date d) 0 "open" 0.

(** Row [r] holds the fields of candidate [d]. *)
Definition from_draft (user_id : Z) (d : Draft.t) (r : Tx.t) : Prop :=
  r = row_of (Tx.id r) user_id (Tx.date r) d (Tx.balance r).

(** A row as the insert leaves it, whatever the candidate. *)
Definition fresh_row (user_id : Z) (r : Tx.t) : Prop :=
  Tx.user_id r = user_id /\ Tx.is_deleted r = 0 /\ Tx.notified r = 0
  /\ Tx.debt_status r = "open".

(** The dictionary [balances] holds, for each of its keys, the closing
    balance of the owner's stream in the working copy. *)
Definition tracks (user_id : Z) (balances : gmap string float) (s : db) : Prop :=
  forall c b, balances !! c = Some b ->
    b = closing_balance 0 (List.filter (active_in user_id c) (transactions s)).

(** The reading of P8 put to the test: of the batch [good; bad], whose
    second candidate has a negative amount, only [good] is committed and
    only its id is returned. *)
Definition commits_only_first (user_id : Z) (now : nat -> string)
    (good bad : Draft.t) (s : db) : Prop :=
  exists balances,
    add_multiple_transactions user_id now [good; bad] s
    = (mkdb (transactions s ++
               [row_of (next_rowid s) user_id (now 0%nat) good
                  (after_draft (get_last_balance user_id (draft_currency good) s) good)])
            (next_rowid s),
       Ok (balances, [next_rowid s])).

(** ** Reconciliation *)

(** The tail of the table after the walk of the soft delete: the rows of
    the stream get the balances folded from [current_balance], the other
    rows stay. *)
Fixpoint refold (user_id : Z) (currency : string) (current_balance : float)
    (l : list Tx.t) : list Tx.t :=
  match l with
  | [] => []
  | r :: rest =>
      if active_in user_id currency r then
        let b := if (lower (Tx.type r) =? "expense")%string
                 then (current_balance - Tx.amount r)%float
                 else (current_balance + Tx.amount r)%float in
        Tx.set_balance b r :: refold user_id currency b rest
      else r :: refold user_id currency current_balance rest
  end.

(** The stream after the soft delete of the row [transaction_id], computed
    from the stream before it alone: the rows before the deleted one stay,
    the rows after it are folded again from the balance of the last row
    before it. *)
Definition reconcile (user_id : Z) (currency : string) (transaction_id : Z)
    (rows : list Tx.t) : list Tx.t :=
  let before := List.filter (fun r => Tx.id r <? transaction_id) rows in
  let after := List.filter (fun r => transaction_id <? Tx.id r) rows in
  before ++ refold user_id currency (closing_balance 0 before) after.

(** ** Debts *)

(** Every row with id [tid] is flagged notified, and [tid] is an id the
    table has already used. *)
Definition marked (tid : Z) (s : db) : Prop :=
  tid <= high s /\
  forall r, In r (transactions s) -> Tx.id r = tid -> Tx.notified r = 1.

(** An update that keeps ids and never clears the notified flag. *)
Definition keeps_mark (f : Tx.t -> Tx.t) : Prop :=
  forall r, Tx.id (f r) = Tx.id r /\ (Tx.notified r = 1 -> Tx.notified (f r) = 1).

(** The debt status a reader finds under an id. *)
Definition status_of (transaction_id : Z) (s : db) : option string :=
  option_map Tx.debt_status
    (List.find (fun r => Tx.id r =? transaction_id) (transactions s)).

(** The repayment rows of an owner. *)
Definition repayments (user_id : Z) (s : db) : list Tx.t :=
  List.filter (fun r => (Tx.user_id r =? user_id)
                        && (Tx.category r =? "Debt Repayment")%string)
              (transactions s).

(** A committed state in which one write of the transition is there
    without the other: the repayment is logged and the debt is still open,
    or the debt is paid and no repayment was logged. *)
Definition half_applied (user_id transaction_id : Z) (s0 s : db) : Prop :=
  (length (repayments user_id s) = S (length (repayments user_id s0))
   /\ status_of transaction_id s = Some "open")
  \/ (length (repayments user_id s) = length (repayments user_id s0)
      /\ status_of transaction_id s = Some "paid").

(** The reading of section 4.4 put to the test: no state committed by the
    handler is half applied. *)
Definition transition_is_atomic (user_id transaction_id : Z) (now : nat -> string)
    (s : db) : Prop :=
  forall s_mid, In s_mid (fst (debt_paid user_id transaction_id now s)) ->
                ~ half_applied user_id transaction_id s s_mid.

(** ** Dates *)

Definition digit_char (n : N) : ascii := ascii_of_N (48 + n).

Definition two_digits (n : N) (rest : string) : string :=
  String (digit_char (n / 10)) (String (digit_char (n mod 10)) rest).

(** A date as [strftime('%Y-%m-%d')] writes it, and as the extraction
    prompt asks for return dates: four digits, two, two. *)
Definition iso_date (y m d : N) : string :=
  two_digits (y / 100) (two_digits (y mod 100)
    (String "-" (two_digits m (String "-" (two_digits d EmptyString))))).

(** The calendar order. *)
Definition date_le (y m d y' m' d' : N) : Prop :=
  (y < y' \/ (y = y' /\ (m < m' \/ (m = m' /\ d <= d'))))%N.

Definition lex_then (c1 c2 : comparison) : comparison :=
  match c1 with
  | Eq => c2
  | _ => c1
  end.

(** ** Sample data *)

(** A clock that stands still. *)
Definition clock_at (t : string) : nat -> string := fun _ => t.

Definition sept_1 : string := "2025-09-01T10:00:00+00:00".

Definition sept_2 : string := "2025-09-02T08:00:00+00:00".

Definition sept_26 : string := "2025-09-26T09:00:00+00:00".

Definition draft (type : string) (amount : float) (category : string)
    (currency : string) : Draft.t :=
  Draft.mk type amount category "" (Some currency) None None.

(** User 7 earns 100, spends 30, earns 50, all in UZS. *)
Definition abc_batch : list Draft.t :=
  [ draft "income" 100 "Salary" "UZS";
    draft "expense" 30 "Food" "UZS";
    draft "income" 50 "Gift" "UZS" ].

Definition abc_db : db :=
  fst (add_multiple_transactions 7 (clock_at sept_1) abc_batch init_db).

Definition abc_A : Tx.t := row_of 1 7 sept_1 (draft "income" 100 "Salary" "UZS") 100.

Definition abc_B : Tx.t := row_of 2 7 sept_1 (draft "expense" 30 "Food" "UZS") 70.

Definition abc_C : Tx.t := row_of 3 7 sept_1 (draft "income" 50 "Gift" "UZS") 120.

Definition eur_batch : list Draft.t :=
  [ draft "income" 100 "Salary" "UZS"; draft "expense" 5 "Food" "EUR" ].

Definition salary_100 : Draft.t := draft "income" 100 "Salary" "UZS".

Definition food_minus_5 : Draft.t := draft "expense" (-5) "Food" "UZS".

(** User 7 lends 10000 UZS to Aziz. *)
Definition lent_to_aziz : Draft.t :=
  Draft.mk "expense" 10000 "Debt"
           "i gave aziz 10k he should return it on september 25"
           (Some "UZS") (Some "Aziz") (Some "2025-09-25").

Definition debt_db : db :=
  fst (add_multiple_transactions 7 (clock_at sept_1) [lent_to_aziz] init_db).

Definition debt_row_1 : Tx.t := row_of 1 7 sept_1 lent_to_aziz (-10000).

(** After the debt was marked notified: user 7 logs three more rows,
    user 8 asks to mark row 1 as paid, and the reminder job runs. *)
Definition later_requests : list request :=
  [ Add 7 (clock_at sept_2) abc_batch;
    DebtPaid 8 1 (clock_at sept_2);
    DueScan "2025-09-27" (fun _ => true) ].

(** The sample ledger of user 7 with one more income, of 20 USD. *)
Definition two_currencies : list request :=
  [ Add 7 (clock_at sept_1) abc_batch;
    Add 7 (clock_at sept_2) [draft "income" 20 "Gift" "usd"] ].

(** ** Flags, entries and sound rows *)

(** Every row with id [tid] satisfies [Q], and [tid] is an id the table has
    already used. *)
Definition settled (Q : Tx.t -> Prop) (tid : Z) (s : db) : Prop :=
  tid <= high s /\ forall r, In r (transactions s) -> Tx.id r = tid -> Q r.

(** A property of rows that no [UPDATE] of the program takes away. *)
Definition sticky (Q : Tx.t -> Prop) : Prop :=
  forall r, Q r ->
    (forall b, Q (Tx.set_balance b r)) /\ Q (Tx.set_is_deleted 1 r)
    /\ Q (Tx.set_debt_status "paid" r) /\ Q (Tx.set_notified 1 r).

Definition is_paid (r : Tx.t) : Prop := Tx.debt_status r = "paid".

Definition is_gone (r : Tx.t) : Prop := Tx.is_deleted r = 1.

(** A row as the program writes them. *)
Definition row_sound (r : Tx.t) : Prop :=
  1 <= Tx.id r <= largest_rowid
  /\ (lower (Tx.type r) = "expense" \/ lower (Tx.type r) = "income")
  /\ (Tx.currency r = "UZS" \/ Tx.currency r = "USD")
  /\ is_nan (Tx.amount r) = false /\ is_nan (Tx.balance r) = false
  /\ (Tx.notified r = 0 \/ Tx.notified r = 1)
  /\ (Tx.is_deleted r = 0 \/ Tx.is_deleted r = 1)
  /\ (Tx.debt_status r = "open" \/ Tx.debt_status r = "paid").

(** The keys of the dictionary [balances] are among UZS and USD. *)
Definition two_keys (balances : gmap string float) : Prop :=
  forall c, is_Some (balances !! c) -> c = "UZS" \/ c = "USD".

(** Row [r'] is row [r] up to the two columns the soft delete writes. *)
Definition same_entry (r r' : Tx.t) : Prop :=
  r' = Tx.set_is_deleted (Tx.is_deleted r') (Tx.set_balance (Tx.balance r') r).

(** ** [escape_markdown] *)

(** [char in s], for a single character. *)
Fixpoint char_in (c : ascii) (s : string) : bool :=
  match s with
  | EmptyString => false
  | String x s' => Ascii.eqb c x || char_in c s'
  end.

Arguments char_in : simpl never.

Definition escape_chars : string := "_*[]()~`>#+-=|{}.!".

Fixpoint escape_markdown (text : string) : string :=
  match text with
  | EmptyString => EmptyString
  | String char rest =>
      if char_in char escape_chars
      then String "\" (String char (escape_markdown rest))
      else String char (escape_markdown rest)
  end.

(** The number of characters of [text] that are in [escape_chars]. *)
Fixpoint count_reserved (text : string) : nat :=
  match text with
  | EmptyString => 0%nat
  | String c rest =>
      ((if char_in c escape_chars then 1 else 0) + count_reserved rest)%nat
  end.

(** ** Python text and lists *)

(** White space as [str.strip] and the pattern class [\s] see it, within
    ASCII: tab to carriage return, the four separators 28 to 31, and the
    space. *)
Definition py_isspace (c : ascii) : bool :=
  let n := N_of_ascii c in
  (((9 <=? n) && (n <=? 13)) || ((28 <=? n) && (n <=? 32)))%N.

(** White space as [int] sees it in an ASCII text: tab to carriage
    return, and the space. *)
Definition c_isspace (c : ascii) : bool :=
  let n := N_of_ascii c in
  (((9 <=? n) && (n <=? 13)) || (n =? 32))%N.

Definition is_digit (c : ascii) : bool :=
  let n := N_of_ascii c in ((48 <=? n) && (n <=? 57))%N.

Definition digit_value (c : ascii) : Z := Z.of_N (N_of_ascii c) - 48.

Definition is_alpha (c : ascii) : bool :=
  let n := N_of_ascii c in
  (((65 <=? n) && (n <=? 90)) || ((97 <=? n) && (n <=? 122)))%N.

(** The number a digit string stands for, read after the prefix [acc]. *)
Fixpoint uint_value (acc : Z) (d : Decimal.uint) : Z :=
  match d with
  | Decimal.Nil => acc
  | Decimal.D0 l => uint_value (10 * acc + 0) l
  | Decimal.D1 l => uint_value (10 * acc + 1) l
  | Decimal.D2 l => uint_value (10 * acc + 2) l
  | Decimal.D3 l => uint_value (10 * acc + 3) l
  | Decimal.D4 l => uint_value (10 * acc + 4) l
  | Decimal.D5 l => uint_value (10 * acc + 5) l
  | Decimal.D6 l => uint_value (10 * acc + 6) l
  | Decimal.D7 l => uint_value (10 * acc + 7) l
  | Decimal.D8 l => uint_value (10 * acc + 8) l
  | Decimal.D9 l => uint_value (10 * acc + 9) l
  end.

(** [str(n)] and [f"{n}"] of an [int]. *)
Definition str_int (n : Z) : string :=
  match n with
  | Z0 => "0"
  | Zpos p => NilEmpty.string_of_uint (Pos.to_uint p)
  | Zneg p => String "-" (NilEmpty.string_of_uint (Pos.to_uint p))
  end.

Fixpoint all_space (s : string) : bool :=
  match s with
  | EmptyString => true
  | String c rest => c_isspace c && all_space rest
  end.

(** The literal of [int(s)] after its first digit: more digits, single
    underscores between digits, then white space up to the end. *)
Fixpoint int_tail (acc : Z) (s : string) : option Z :=
  match s with
  | EmptyString => Some acc
  | String c rest =>
      if is_digit c then int_tail (10 * acc + digit_value c) rest
      else if Ascii.eqb c "_" then
        match rest with
        | String d rest' =>
            if is_digit d then int_tail (10 * acc + digit_value d) rest' else None
        | EmptyString => None
        end
      else if all_space s then Some acc else None
  end.

Definition int_unsigned (s : string) : option Z :=
  match s with
  | String c rest => if is_digit c then int_tail (digit_value c) rest else None
  | EmptyString => None
  end.

Fixpoint skip_space (s : string) : string :=
  match s with
  | String c rest => if c_isspace c then skip_space rest else s
  | EmptyString => EmptyString
  end.

(** [s.lstrip()] *)
Fixpoint lstrip (s : string) : string :=
  match s with
  | String c rest => if py_isspace c then lstrip rest else s
  | EmptyString => EmptyString
  end.

(** [int(s)] for a text [s]: white space, a sign, decimal digits, white
    space.  Anything else is a [ValueError]. *)
Definition py_int (s : string) : result Z :=
  let parsed :=
    match skip_space s with
    | String "-" rest => option_map Z.opp (int_unsigned rest)
    | String "+" rest => int_unsigned rest
    | t => int_unsigned t
    end in
  match parsed with
  | Some n => Ok n
  | None => Raise (ValueError "invalid literal for int() with base 10")
  end.

(** [s.split(sep)] for a separator of one character. *)
Fixpoint split_on (sep : ascii) (s : string) : list string :=
  match s with
  | EmptyString => [EmptyString]
  | String c rest =>
      if Ascii.eqb c sep then EmptyString :: split_on sep rest
      else match split_on sep rest with
           | piece :: pieces => String c piece :: pieces
           | [] => [String c EmptyString]
           end
  end.

(** [sep.join(parts)] *)
Fixpoint join (sep : string) (parts : list string) : string :=
  match parts with
  | [] => EmptyString
  | [x] => x
  | x :: rest => (x ++ sep ++ join sep rest)%string
  end.

(** [s.title()]: a letter after a letter is lower-cased, a letter after
    anything else is upper-cased. *)
Fixpoint title_from (previous_is_cased : bool) (s : string) : string :=
  match s with
  | EmptyString => EmptyString
  | String c rest =>
      if is_alpha c
      then String (if previous_is_cased then lower_ascii c else upper_ascii c)
                  (title_from true rest)
      else String c (title_from false rest)
  end.

Definition title (s : string) : string := title_from false s.

(** An index of a slice, brought into the list. *)
Definition clamp_index (len i : Z) : Z :=
  if i <? 0 then Z.max 0 (len + i) else Z.min len i.

(** [l[start:stop]] *)
Definition slice {A} (l : list A) (start stop : Z) : list A :=
  let len := Z.of_nat (length l) in
  let a := clamp_index len start in
  let b := clamp_index len stop in
  firstn (Z.to_nat (b - a)) (skipn (Z.to_nat a) l).

(** Whether an optional text counts as true in a condition. *)
Definition truthy (o : option string) : bool :=
  match o with
  | Some (String _ _) => true
  | _ => false
  end.

Definition nl : string := String (ascii_of_N 10) EmptyString.

(** ** The [users] table *)

Module User.
Record t : Type := mk {
  phone_number : string;
  first_name : string;
  registration_date : string
}.
End User.

(** [SELECT user_id FROM users WHERE user_id = ?]; the table has one row
    for each [user_id], its primary key. *)
Definition is_user_registered (user_id : Z) (users : gmap Z User.t) : bool :=
  match users !! user_id with
  | Some _ => true
  | None => false
  end.

(** [INSERT OR REPLACE INTO users]; [now] is the reading of the clock. *)
Definition register_user (user_id : Z) (phone_number first_name now : string)
    (users : gmap Z User.t) : gmap Z User.t :=
  <[user_id := User.mk phone_number first_name now]> users.

(** ** [generate_history_page] *)

Record button : Type := mkbutton {
  label : string;
  callback_data : string
}.

(** The texts the page takes from the formatting library: [money x] is
    [f"{x:,.2f}"], and [day d] is the value of [date_str] for a row whose
    date is [d]. *)
Record formats : Type := mkformats {
  money : float -> string;
  day : string -> string
}.

Definition items_per_page : Z := 5.

Definition paginated (transactions : list Tx.t) (page : Z) : list Tx.t :=
  let start_index := page * items_per_page in
  let end_index := start_index + items_per_page in
  slice transactions start_index end_index.

Definition total_pages (transactions : list Tx.t) : Z :=
  match transactions with
  | [] => 0
  | _ => (Z.of_nat (length transactions) + items_per_page - 1) / items_per_page
  end.

Definition separator : string :=
  escape_markdown (nl ++ "--------------------------" ++ nl)%string.

(** Whether the row gets its debt lines. *)
Definition shows_debt (trans : Tx.t) : bool :=
  (Tx.category trans =? "Debt")%string && truthy (Tx.debtor_name trans).

(** Whether the row gets its button. *)
Definition offers_payment (trans : Tx.t) : bool :=
  shows_debt trans && (title (Tx.debt_status trans) =? "Open")%string.

Definition debt_button (trans : Tx.t) : button :=
  mkbutton ("Mark Debt #" ++ str_int (Tx.id trans) ++ " as Paid")%string
           ("debt_paid_" ++ str_int (Tx.id trans))%string.

Definition history_entry (fmt : formats) (trans : Tx.t) : list string :=
  let date_str := day fmt (Tx.date trans) in
  let icon := if (lower (Tx.type trans) =? "income")%string
              then "🟢" else "🔴" in
  let amount_str := (money fmt (Tx.amount trans) ++ " " ++ Tx.currency trans)%string in
  [ separator;
    ("🗓️ *Date*: " ++ escape_markdown date_str)%string;
    (icon ++ " *Amount*: " ++ escape_markdown amount_str)%string;
    ("🏷️ *Category*: " ++ escape_markdown (Tx.category trans))%string;
    ("📝 *Comment*: " ++ escape_markdown (Tx.description trans))%string ]
  ++ (if shows_debt trans then
        let debt_status := title (Tx.debt_status trans) in
        let status_icon := if (debt_status =? "Paid")%string
                           then "✅" else "⏳" in
        [ ("👤 *Lent to*: "
           ++ escape_markdown (default "Unknown" (Tx.debtor_name trans))
           ++ nl ++ "*Status*: " ++ status_icon ++ " " ++ escape_markdown debt_status
           ++ (if truthy (Tx.return_date trans)
               then nl ++ "🗓️ *Returns*: "
                    ++ escape_markdown (default "" (Tx.return_date trans))
               else ""))%string ]
      else []).

Definition previous_button (page : Z) : button :=
  mkbutton "⬅️ Previous" ("history_" ++ str_int (page - 1))%string.

Definition next_button (page : Z) : button :=
  mkbutton "Next ➡️" ("history_" ++ str_int (page + 1))%string.

Definition pagination_row (transactions : list Tx.t) (page : Z) : list button :=
  let end_index := page * items_per_page + items_per_page in
  (if 0 <? page then [previous_button page] else [])
  ++ (if end_index <? Z.of_nat (length transactions) then [next_button page] else []).

Definition generate_history_page (fmt : formats) (transactions : list Tx.t)
    (page : Z) : string * list (list button) :=
  let paginated_transactions := paginated transactions page in
  let message_parts :=
    ("*📜 Your Transaction History \(Page " ++ str_int (page + 1) ++ "/"
     ++ str_int (total_pages transactions) ++ "\)*")%string
    :: flat_map (history_entry fmt) paginated_transactions in
  let keyboard_buttons :=
    map (fun trans => [debt_button trans])
        (List.filter offers_payment paginated_transactions) in
  let keyboard_buttons :=
    match pagination_row transactions page with
    | [] => keyboard_buttons
    | row => keyboard_buttons ++ [row]
    end in
  let final_text :=
    match paginated_transactions with
    | [] => "You have no transactions to display."
    | _ => join nl message_parts
    end in
  (final_text, keyboard_buttons).

(** ** [registration_gatekeeper], [start_command] and [handle_contact] *)

(** The sender of an update is taken to be present; the prompt the
    gatekeeper sends when it answers no is left to the handlers' results. *)
Definition registration_gatekeeper (user_id : Z) (users : gmap Z User.t) : bool :=
  is_user_registered user_id users.

Inductive greeting : Type :=
| WelcomeBack (first_name : string)   (* with the main keyboard *)
| Hello (first_name : string).        (* with the registration keyboard *)

Definition start_command (user_id : Z) (first_name : string)
    (users : gmap Z User.t) : greeting :=
  if is_user_registered user_id users then WelcomeBack first_name
  else Hello first_name.

Inductive contact_reply : Type :=
| UseOwnContact    (* "Please use the button to share your own contact for security." *)
| ThankYou.        (* "Thank you for registering!" *)

(** [contact_user_id] is [contact.user_id], which a contact may lack. *)
Definition handle_contact (user_id : Z) (first_name : string)
    (contact_user_id : option Z) (phone_number : string) (now : string)
    (users : gmap Z User.t) : gmap Z User.t * contact_reply :=
  if decide (contact_user_id = Some user_id)
  then (register_user user_id phone_number first_name now users, ThankYou)
  else (users, UseOwnContact).

(** ** [button_handler] *)

Inductive py_exn : Type :=
| Exn (e : exn)
| IndexError.          (* list index out of range *)

(** What a handler leaves on the screen.  [SummaryOf t m] stands for the
    summary of a period: the handler goes on with
    [parse_timeframe_to_dates(t, month=m)] and [generate_and_send_summary],
    which read the table and write nothing to it. *)
Inductive screen : Type :=
| RegistrationPrompt
| Undone                              (* "Transaction undone successfully." *)
| Answer (r : reply)
| PeriodMenu                          (* "Please select a specific period:" *)
| SummaryOf (timeframe_str : string) (month : option Z)
| HistoryPage (final_text : string) (keyboard : list (list button))
| Silent.

Inductive ending : Type :=
| Shown (v : screen)
| Escaped (e : py_exn).

Definition undo_branch (user_id : Z) (data : list string) (s : db)
    : list db * ending :=
  match data !! 1%nat with
  | None => ([], Shown (Answer CouldNotComplete))
  | Some a =>
      match py_int a with
      | Raise _ => ([], Shown (Answer CouldNotComplete))
      | Ok transaction_id =>
          match delete_transaction_and_recalculate user_id transaction_id s with
          | (s', Ok _) => ([s'], Shown Undone)
          | (_, Raise _) => ([], Shown (Answer CouldNotComplete))
          end
      end
  end.

Definition debt_branch (user_id : Z) (data : list string) (now : nat -> string)
    (s : db) : list db * ending :=
  match data !! 2%nat with
  | None => ([], Escaped IndexError)
  | Some a =>
      match py_int a with
      | Raise e => ([], Escaped (Exn e))
      | Ok transaction_id =>
          match debt_paid user_id transaction_id now s with
          | (commits, Ok r) => (commits, Shown (Answer r))
          | (commits, Raise e) => (commits, Escaped (Exn e))
          end
      end
  end.

Definition summary_branch (data : list string) : ending :=
  match data !! 1%nat with
  | None => Escaped IndexError
  | Some sub_action =>
      if (sub_action =? "show")%string then
        match data !! 2%nat with
        | None => Escaped IndexError
        | Some what =>
            if (what =? "periods")%string then Shown PeriodMenu else Shown Silent
        end
      else if (sub_action =? "generate")%string then
        let timeframe_str := join "_" (skipn 2 data) in
        if (timeframe_str =? "today")%string then Shown (SummaryOf "today" None)
        else if (timeframe_str =? "this_month")%string
        then Shown (SummaryOf "this_month" None)
        else if (timeframe_str =? "this_year")%string
        then Shown (SummaryOf "this_year" None)
        else
          match data !! 2%nat with
          | None => Escaped IndexError
          | Some what =>
              if (what =? "month")%string then
                match data !! 3%nat with
                | None => Escaped IndexError
                | Some a =>
                    match py_int a with
                    | Raise e => Escaped (Exn e)
                    | Ok month_num => Shown (SummaryOf "month" (Some month_num))
                    end
                end
              else Shown Silent
          end
      else Shown Silent
  end.

Definition history_branch (fmt : formats) (user_id : Z) (data : list string)
    (s : db) : ending :=
  match data !! 1%nat with
  | None => Escaped IndexError
  | Some a =>
      match py_int a with
      | Raise e => Escaped (Exn e)
      | Ok page =>
          let all_transactions := get_all_transactions user_id s in
          let (text, reply_markup) := generate_history_page fmt all_transactions page in
          Shown (HistoryPage text reply_markup)
      end
  end.

(** The handler of a callback query: the commits it makes, oldest first,
    and how it ends. *)
Definition button_handler (fmt : formats) (users : gmap Z User.t) (user_id : Z)
    (query_data : string) (now : nat -> string) (s : db) : list db * ending :=
  if negb (registration_gatekeeper user_id users) then ([], Shown RegistrationPrompt)
  else
    let data := split_on "_" query_data in
    match data with
    | [] => ([], Escaped IndexError)
    | action :: _ =>
        if (action =? "undo")%string then undo_branch user_id data s
        else if (action =? "debt")%string then
          match data !! 1%nat with
          | None => ([], Escaped IndexError)
          | Some what =>
              if (what =? "paid")%string then debt_branch user_id data now s
              else ([], Shown Silent)
          end
        else if (action =? "summary")%string then ([], summary_branch data)
        else if (action =? "history")%string then ([], history_branch fmt user_id data s)
        else ([], Shown Silent)
    end.

(** The rows of [l'] are those of [l], with the rows of other owners than
    [user_id] unchanged, followed by new rows of [user_id]. *)
Definition confined_to (user_id : Z) (l l' : list Tx.t) : Prop :=
  exists kept news,
    l' = kept ++ news
    /\ Forall2 (fun r r' => Tx.id r' = Tx.id r /\ Tx.user_id r' = Tx.user_id r
                            /\ (Tx.user_id r <> user_id -> r' = r)) l kept
    /\ Forall (fun r => Tx.user_id r = user_id) news.

(** ** More sample data *)

(** User 7 has registered. *)
Definition sample_users : gmap Z User.t :=
  register_user 7 "+998901234567" "Aziza" sept_1 ∅.

(** Formats that stand in for the formatting library in the examples. *)
Definition sample_formats : formats :=
  mkformats (fun _ => "0.00") (fun _ => "01-Sep-2025").

(** ** Regular expressions, as [fallback_parser] uses them *)

(** The constructs of the pattern.  Matching is by backtracking, as in
    Python's [re]: an alternation tries its branches from the left, [?]
    and [*] take as much as they can first, and what comes after decides
    whether they have to give some back. *)
Inductive regex : Type :=
| Char (p : ascii -> bool)        (* one character of a class *)
| Word (w : string)               (* a literal, under [re.IGNORECASE] *)
| Seq (r1 r2 : regex)
| Alt (r1 r2 : regex)             (* [r1|r2] *)
| Opt (r : regex)                 (* [r?] *)
| Star (p : ascii -> bool)        (* [c*] for a class [c] *)
| Group (r : regex).              (* [(r)] *)

(** The capturing groups inside a pattern. *)
Fixpoint groups_in (r : regex) : nat :=
  match r with
  | Char _ | Word _ | Star _ => 0%nat
  | Seq r1 r2 | Alt r1 r2 => (groups_in r1 + groups_in r2)%nat
  | Opt r => groups_in r
  | Group r => S (groups_in r)
  end.

(** [s] after the literal [w], read without regard to case. *)
Fixpoint after_word (w s : string) : option string :=
  match w with
  | EmptyString => Some s
  | String a w' =>
      match s with
      | String c s' =>
          if Ascii.eqb (lower_ascii c) (lower_ascii a) then after_word w' s' else None
      | EmptyString => None
      end
  end.

(** The part of [s] that was read when [rest] is what remains of it. *)
Definition consumed (s rest : string) : string :=
  substring 0 (String.length s - String.length rest) s.

Section Matching.

Context {R : Type}.

(** [c*] in front of the continuation [k]: the longest run first. *)
Fixpoint star (p : ascii -> bool) (s : string) (k : string -> option R) : option R :=
  match s with
  | String c rest =>
      if p c then
        match star p rest k with
        | Some x => Some x
        | None => k s
        end
      else k s
  | EmptyString => k s
  end.

(** [match_here r s caps k]: match [r] at the head of [s], with the groups
    [caps] closed so far, then go on with [k]; [None] when every way of
    matching [r] makes [k] fail.  A group that is passed over is recorded
    as [None]. *)
Fixpoint match_here (r : regex) (s : string) (caps : list (option string))
    (k : string -> list (option string) -> option R) : option R :=
  match r with
  | Char p =>
      match s with
      | String c rest => if p c then k rest caps else None
      | EmptyString => None
      end
  | Word w =>
      match after_word w s with
      | Some rest => k rest caps
      | None => None
      end
  | Seq r1 r2 => match_here r1 s caps (fun s' caps' => match_here r2 s' caps' k)
  | Alt r1 r2 =>
      match match_here r1 s caps k with
      | Some x => Some x
      | None => match_here r2 s caps k
      end
  | Opt r1 =>
      match match_here r1 s caps k with
      | Some x => Some x
      | None => k s (caps ++ repeat None (groups_in r1))
      end
  | Star p => star p s (fun s' => k s' caps)
  | Group r1 =>
      match_here r1 s caps (fun s' caps' => k s' (caps' ++ [Some (consumed s s')]))
  end.

End Matching.

(** [pattern.search(text)]: the first position, from the left, where the
    pattern matches; the result is [match.groups()]. *)
Fixpoint search (r : regex) (text : string) : option (list (option string)) :=
  match match_here r text [] (fun _ caps => Some caps) with
  | Some caps => Some caps
  | None =>
      match text with
      | String _ rest => search r rest
      | EmptyString => None
      end
  end.

(** [[\d,.]] *)
Definition amount_char (c : ascii) : bool :=
  is_digit c || Ascii.eqb c "," || Ascii.eqb c ".".

(** [.]: any character but the newline. *)
Definition not_newline (c : ascii) : bool := negb (Ascii.eqb c (ascii_of_N 10)).

Definition verbs : regex :=
  Alt (Word "spent") (Alt (Word "paid") (Alt (Word "gave")
    (Alt (Word "got") (Word "received")))).

Definition currency_words : regex :=
  Alt (Word "usd") (Alt (Word "dollar") (Word "dollars")).

(** [(spent|paid|gave|got|received)\s+([\d,.]+k?)\s*(usd|dollar|dollars)?\s*(?:on|for)?\s*(.+)] *)
Definition pattern : regex :=
  Seq (Group verbs)
 (Seq (Seq (Char py_isspace) (Star py_isspace))
 (Seq (Group (Seq (Seq (Char amount_char) (Star amount_char)) (Opt (Word "k"))))
 (Seq (Star py_isspace)
 (Seq (Opt (Group currency_words))
 (Seq (Star py_isspace)
 (Seq (Opt (Alt (Word "on") (Word "for")))
 (Seq (Star py_isspace)
      (Group (Seq (Char not_newline) (Star not_newline)))))))))).

(** ** [fallback_parser] *)

(** [s.replace(old, new)] for [old] of one character. *)
Fixpoint replace_char (old : ascii) (new : string) (s : string) : string :=
  match s with
  | EmptyString => EmptyString
  | String c rest =>
      if Ascii.eqb c old then (new ++ replace_char old new rest)%string
      else String c (replace_char old new rest)
  end.

Fixpoint rstrip (s : string) : string :=
  match s with
  | EmptyString => EmptyString
  | String c rest =>
      match rstrip rest with
      | EmptyString => if py_isspace c then EmptyString else String c EmptyString
      | t => String c t
      end
  end.

(** [s.strip()] *)
Definition strip (s : string) : string := rstrip (lstrip s).

(** [x in l] for texts. *)
Definition among (x : string) (l : list string) : bool :=
  existsb (String.eqb x) l.

(** [match.group(n + 1)] of a match with groups [caps]; the groups that
    always take part are read with [default ""]. *)
Definition group (n : nat) (caps : list (option string)) : option string :=
  nth n caps None.

(** [py_float t] is [float(t)], [None] when it raises [ValueError]. *)
Definition fallback_parser (py_float : string -> option float) (text : string)
    : result (list Draft.t) :=
  match search pattern text with
  | None => Ok []
  | Some caps =>
      let action := default "" (group 0 caps) in
      let amount_str := default "" (group 1 caps) in
      let currency_str := group 2 caps in
      let description := default "" (group 3 caps) in
      match py_float (replace_char "," "" (replace_char "k" "000" (lower amount_str))) with
      | None => Raise (ValueError "could not convert string to float")
      | Some amount =>
          let trans_type :=
            if among (lower action) ["spent"; "paid"; "gave"] then "expense"
            else "income" in
          let currency :=
            if truthy currency_str
               && among (lower (default "" currency_str)) ["usd"; "dollar"; "dollars"]
            then "USD" else "UZS" in
          Ok [Draft.mk trans_type amount "Other" (strip description)
                       (Some currency) None None]
      end
  end.

(** Whether one of the five verbs stands at the head of [s]. *)
Definition verb_at (s : string) : bool :=
  existsb (fun w => match after_word w s with Some _ => true | None => false end)
          ["spent"; "paid"; "gave"; "got"; "received"].

(** Whether one of the five verbs occurs in [text]. *)
Fixpoint mentions_verb (text : string) : bool :=
  verb_at text
  || match text with
     | String _ rest => mentions_verb rest
     | EmptyString => false
     end.

(** Whether every character of [s] is in the class [p]. *)
Fixpoint all_chars (p : ascii -> bool) (s : string) : bool :=
  match s with
  | EmptyString => true
  | String c rest => p c && all_chars p rest
  end.

(** Whether [s] is empty or starts with a character outside [p]. *)
Definition stops (p : ascii -> bool) (s : string) : bool :=
  match s with
  | EmptyString => true
  | String c _ => negb (p c)
  end.

(** What comes after the amount in the pattern:
    [\s*(usd|dollar|dollars)?\s*(?:on|for)?\s*(.+)] *)
Definition pattern_tail : regex :=
  Seq (Star py_isspace)
 (Seq (Opt (Group currency_words))
 (Seq (Star py_isspace)
 (Seq (Opt (Alt (Word "on") (Word "for")))
 (Seq (Star py_isspace)
      (Group (Seq (Char not_newline) (Star not_newline))))))).

(** What comes after the currency word:
    [\s*(?:on|for)?\s*(.+)] *)
Definition pattern_end : regex :=
  Seq (Star py_isspace)
 (Seq (Opt (Alt (Word "on") (Word "for")))
 (Seq (Star py_isspace)
      (Group (Seq (Char not_newline) (Star not_newline))))).

(** [s.isascii()].  The texts of the bot are Unicode; on the ASCII ones
    the classes [\s], [\d], the folding of case under [re.IGNORECASE] and
    [str.strip] are the ones written here. *)
Definition isascii (s : string) : bool :=
  all_chars (fun c => (N_of_ascii c <? 128)%N) s.

(** White space, at least one character. *)
Definition blank (s : string) : bool :=
  negb (s =? "")%string && all_chars py_isspace s.

(** An amount as the pattern reads it: digits, commas and dots, at least
    one. *)
Definition amount_text (s : string) : bool :=
  negb (s =? "")%string && all_chars amount_char s.

(** A description: one line of text that starts with a character that is
    not white space. *)
Definition one_line (s : string) : bool :=
  negb (s =? "")%string && all_chars not_newline s && stops py_isspace s.

Definition the_verbs : list string := ["spent"; "paid"; "gave"; "got"; "received"].

(** The type [fallback_parser] gives to a verb. *)
Definition type_of_verb (action : string) : string :=
  if among (lower action) ["spent"; "paid"; "gave"] then "expense" else "income".

(** The text handed to [float] for the digits [num] and the suffix [ks]. *)
Definition float_text (num ks : string) : string :=
  (replace_char "," "" num ++ (if (ks =? "")%string then "" else "000"))%string.

(** A [float] that stands in for Python's in the examples: it reads the
    two texts the examples need. *)
Definition sample_float (t : string) : option float :=
  if (t =? "50000")%string then Some 50000%float
  else if (t =? "1.5000")%string then Some 1.5%float
  else if (t =? "20")%string then Some 20%float
  else None.

(** ** The handlers of text messages *)

(** What a handler sends back: the gatekeeper's request to register, a
    plain text, or a text in MarkdownV2, each with the inline keyboard
    under it, if any. *)
Inductive message : Type :=
| RegistrationRequest
| Text (text : string) (reply_markup : option (list (list button)))
| MarkdownV2 (text : string) (reply_markup : option (list (list button))).

(** [o or 'unknown'] *)
Definition or_unknown (o : option string) : string :=
  if truthy o then default "" o else "unknown".

Definition not_understood : string :=
  "I couldn't understand that. Please try again, for example: 'spent 50k on food' or 'lent 100k to Aziz'.".

Definition header (transactions : list Draft.t) : string :=
  if (length transactions =? 1)%nat then "✅ Transaction successfully logged:"
  else "✅ Successfully Logged Multiple Transactions:".

Definition transaction_detail (fmt : formats) (trans : Draft.t) : string :=
  let icon := if (lower (Draft.type trans) =? "income")%string
              then "🟢" else "🔴" in
  let amount_f :=
    escape_markdown (money fmt (Draft.amount trans) ++ " "
                     ++ upper (default "UZS" (Draft.currency trans)))%string in
  let category_f := escape_markdown (title (Draft.category trans)) in
  let comment_f := escape_markdown (Draft.description trans) in
  if (title (Draft.category trans) =? "Debt")%string then
    let debtor_f := escape_markdown (or_unknown (Draft.debtor_name trans)) in
    let return_f := escape_markdown (or_unknown (Draft.return_date trans)) in
    (nl ++ icon ++ " *Type*: Expense" ++ nl ++ "💰 *Amount*: " ++ amount_f ++ nl
     ++ "🏷️ *Category*: " ++ category_f ++ nl
     ++ "👤 *who*: " ++ debtor_f ++ nl ++ "🗓️ *when return*: " ++ return_f ++ nl
     ++ "📝 *Comment*: " ++ comment_f)%string
  else if (title (Draft.category trans) =? "Debt Repayment")%string then
    (nl ++ icon ++ " *Type*: Income" ++ nl ++ "💰 *Amount*: " ++ amount_f ++ nl
     ++ "🏷️ *Category*: " ++ category_f ++ nl
     ++ "📝 *Comment*: " ++ comment_f)%string
  else
    (nl ++ icon ++ " *Type*: " ++ escape_markdown (title (Draft.type trans)) ++ nl
     ++ "💰 *Amount*: " ++ amount_f ++ nl
     ++ "🏷️ *Category*: " ++ category_f ++ nl
     ++ "📝 *Comment*: " ++ comment_f)%string.

Definition new_balances_part (fmt : formats) (uzs usd : float) : string :=
  let balance_uzs_f := escape_markdown (money fmt uzs ++ " UZS") in
  let balance_usd_f := escape_markdown (money fmt usd ++ " USD") in
  (nl ++ nl ++ "📊 *Your new balances are:*" ++ nl ++ "🇺🇿 " ++ balance_uzs_f ++ nl
   ++ "🇺🇸 " ++ balance_usd_f)%string.

Definition undo_button (i : Z) : button :=
  mkbutton "Undo (60s)" ("undo_" ++ str_int i)%string.

(** The text of the reply for the candidates [transactions] and the
    balances the insert returned. *)
Definition logged_text (fmt : formats) (transactions : list Draft.t)
    (uzs usd : float) : string :=
  join nl (header transactions :: map (transaction_detail fmt) transactions
           ++ [new_balances_part fmt uzs usd]).

(** [process_natural_language_text]: the database it leaves and the reply
    it sends, or the exception that leaves it.  [text_to_transactions] is
    the answer of the language model, a list of candidates, empty when the
    call failed; [py_float] is [float]. *)
Definition process_natural_language_text (fmt : formats)
    (text_to_transactions : string -> list Draft.t)
    (py_float : string -> option float)
    (text : string) (user_id : Z) (now : nat -> string) (s : db)
    : db * result message :=
  let parsed :=
    match text_to_transactions text with
    | [] => fallback_parser py_float text
    | transactions => Ok transactions
    end in
  match parsed with
  | Raise e => (s, Raise e)
  | Ok [] => (s, Ok (Text not_understood None))
  | Ok transactions =>
      match add_multiple_transactions user_id now transactions s with
      | (s', Raise e) => (s', Raise e)
      | (s', Ok (new_balances, new_ids)) =>
          match new_balances !! "UZS", new_balances !! "USD" with
          | Some uzs, Some usd =>
              let reply_markup :=
                match new_ids with
                | [i] => Some [[undo_button i]]
                | _ => None
                end in
              (s', Ok (MarkdownV2 (logged_text fmt transactions uzs usd) reply_markup))
          | None, _ => (s', Raise (KeyError "UZS"))
          | _, None => (s', Raise (KeyError "USD"))
          end
      end
  end.

(** ** The menu *)

Definition balance_command (fmt : formats) (users : gmap Z User.t) (user_id : Z)
    (s : db) : message :=
  if negb (registration_gatekeeper user_id users) then RegistrationRequest
  else
    let balance_uzs := get_last_balance user_id "UZS" s in
    let balance_usd := get_last_balance user_id "USD" s in
    MarkdownV2 ("📊 *Your Current Balances:*" ++ nl ++ nl
                ++ "🇺🇿 *UZS Balance:* " ++ escape_markdown (money fmt balance_uzs) ++ nl
                ++ "🇺🇸 *USD Balance:* " ++ escape_markdown (money fmt balance_usd))%string
               None.

Definition transactions_command (fmt : formats) (users : gmap Z User.t)
    (user_id : Z) (s : db) : message :=
  if negb (registration_gatekeeper user_id users) then RegistrationRequest
  else
    match get_all_transactions user_id s with
    | [] => Text "You have no transactions recorded yet." None
    | all_transactions =>
        let (text, reply_markup) := generate_history_page fmt all_transactions 0 in
        MarkdownV2 text (Some reply_markup)
    end.

Definition summary_command (users : gmap Z User.t) (user_id : Z) : message :=
  if negb (registration_gatekeeper user_id users) then RegistrationRequest
  else
    Text "Please choose a period for the expense summary:"
         (Some [ [mkbutton "Today" "summary_generate_today"];
                 [mkbutton "This Month" "summary_generate_this_month"];
                 [mkbutton "Choose Period..." "summary_show_periods"] ]).

Definition feedback_command (users : gmap Z User.t) (user_id : Z) : message :=
  if negb (registration_gatekeeper user_id users) then RegistrationRequest
  else
    Text ("Got a suggestion or feedback? I'd love to hear it!" ++ nl ++ nl
          ++ "Please reach out to the developer directly on Telegram: @alien457")%string
         None.

(** ** [handle_text_message] *)

Definition handle_text_message (fmt : formats) (users : gmap Z User.t)
    (text_to_transactions : string -> list Draft.t)
    (py_float : string -> option float)
    (user_id : Z) (text : string) (now : nat -> string) (s : db)
    : db * result message :=
  if negb (registration_gatekeeper user_id users) then (s, Ok RegistrationRequest)
  else if (text =? "📊 Balance")%string
  then (s, Ok (balance_command fmt users user_id s))
  else if (text =? "📜 History")%string
  then (s, Ok (transactions_command fmt users user_id s))
  else if (text =? "📈 Summary")%string
  then (s, Ok (summary_command users user_id))
  else if (text =? "💬 Feedback")%string
  then (s, Ok (feedback_command users user_id))
  else process_natural_language_text fmt text_to_transactions py_float text user_id now s.

(** The language model gave nothing. *)
Definition no_answer : string -> list Draft.t := fun _ => [].

(** The candidates the handler works with: those of the language model,
    or else those of the fallback. *)
Definition candidates_of (text_to_transactions : string -> list Draft.t)
    (py_float : string -> option float) (text : string) : result (list Draft.t) :=
  match text_to_transactions text with
  | [] => fallback_parser py_float text
  | transactions => Ok transactions
  end.

(** A candidate the insert passes over, and one it stores. *)
Definition a_transfer : Draft.t := draft "transfer" 9 "Other" "UZS".

(** ** [handle_voice_message] *)

(** [transcribed_text] is what [voice_to_text] made of the recording, the
    empty text when it failed; the file that holds the recording meanwhile
    is left out. *)
Definition handle_voice_message (fmt : formats) (users : gmap Z User.t)
    (text_to_transactions : string -> list Draft.t)
    (py_float : string -> option float)
    (user_id : Z) (transcribed_text : string) (now : nat -> string) (s : db)
    : db * result message :=
  if negb (registration_gatekeeper user_id users) then (s, Ok RegistrationRequest)
  else if (transcribed_text =? "")%string
  then (s, Ok (Text "Sorry, I couldn't recognize the speech in your voice message."
                    None))
  else process_natural_language_text fmt text_to_transactions py_float
         transcribed_text user_id now s.

(** ** The bot *)

(** The two tables of the database file. *)
Record bot : Type := mkbot {
  bot_users : gmap Z User.t;
  bot_db : db
}.

(** The file after [init_db]. *)
Definition new_bot : bot := mkbot ∅ init_db.

(** What [main] registers handlers for, and the hourly job.  A text or a
    voice message comes with the answer the language model gives for it.
    The commands [/start], [/export], [/balance], [/transactions],
    [/feedback] and [/summary] write to neither table. *)
Inductive event : Type :=
| Command (user_id : Z)
| ContactShared (user_id : Z) (first_name : string) (contact_user_id : option Z)
                (phone_number now : string)
| TextSent (user_id : Z) (text : string) (answer : list Draft.t)
           (now : nat -> string)
| VoiceSent (user_id : Z) (transcribed_text : string) (answer : list Draft.t)
            (now : nat -> string)
| ButtonPressed (user_id : Z) (query_data : string) (now : nat -> string)
| Hourly (today_str : string) (delivered : Z -> bool).

(** The database after the handler of an event has run; events are
    handled one at a time. *)
Definition dispatch (fmt : formats) (py_float : string -> option float)
    (b : bot) (e : event) : bot :=
  match e with
  | Command _ => b
  | ContactShared user_id first_name contact_user_id phone_number now =>
      mkbot (fst (handle_contact user_id first_name contact_user_id phone_number
                                 now (bot_users b)))
            (bot_db b)
  | TextSent user_id text answer now =>
      mkbot (bot_users b)
            (fst (handle_text_message fmt (bot_users b) (fun _ => answer) py_float
                                      user_id text now (bot_db b)))
  | VoiceSent user_id transcribed_text answer now =>
      mkbot (bot_users b)
            (fst (handle_voice_message fmt (bot_users b) (fun _ => answer) py_float
                                       user_id transcribed_text now (bot_db b)))
  | ButtonPressed user_id query_data now =>
      mkbot (bot_users b)
            (after_commits (bot_db b)
               (fst (button_handler fmt (bot_users b) user_id query_data now
                                    (bot_db b))))
  | Hourly today_str delivered =>
      mkbot (bot_users b) (check_due_debts today_str delivered (bot_db b))
  end.

Definition bot_run (fmt : formats) (py_float : string -> option float)
    (events : list event) (b : bot) : bot :=
  fold_left (dispatch fmt py_float) events b.

(** Every row belongs to a registered user. *)
Definition owners_registered (b : bot) : Prop :=
  Forall (fun r => is_user_registered (Tx.user_id r) (bot_users b) = true)
         (transactions (bot_db b)).

(** ** Moments in time *)

(** An aware [datetime] in UTC, the only zone the program uses. *)
Module Datetime.
Record t : Type := mk {
  year : N;
  month : N;
  day : N;
  hour : N;
  minute : N;
  second : N;
  microsecond : N
}.
End Datetime.

Definition is_leap (y : N) : bool :=
  ((y mod 4 =? 0) && negb (y mod 100 =? 0) || (y mod 400 =? 0))%N.

Definition days_in_month (y m : N) : N :=
  if (m =? 2)%N then (if is_leap y then 29 else 28)%N
  else if ((m =? 4) || (m =? 6) || (m =? 9) || (m =? 11))%N then 30%N
  else 31%N.

(** The moments a [datetime] can hold. *)
Definition valid_datetime (t : Datetime.t) : bool :=
  ((1 <=? Datetime.year t) && (Datetime.year t <=? 9999)
   && (1 <=? Datetime.month t) && (Datetime.month t <=? 12)
   && (1 <=? Datetime.day t)
   && (Datetime.day t <=? days_in_month (Datetime.year t) (Datetime.month t))
   && (Datetime.hour t <? 24) && (Datetime.minute t <? 60)
   && (Datetime.second t <? 60) && (Datetime.microsecond t <? 1000000))%N.

Definition six_digits (n : N) (rest : string) : string :=
  two_digits (n / 10000) (two_digits (n / 100 mod 100) (two_digits (n mod 100) rest)).

(** The end of [isoformat()]: the microseconds, unless there are none,
    and the offset of UTC. *)
Definition fraction (us : N) : string :=
  if (us =? 0)%N then "+00:00"
  else String (ascii_of_N 46) (six_digits us "+00:00").

(** [t.isoformat()] *)
Definition isoformat (t : Datetime.t) : string :=
  two_digits (Datetime.year t / 100) (two_digits (Datetime.year t mod 100)
    (String "-" (two_digits (Datetime.month t)
    (String "-" (two_digits (Datetime.day t)
    (String "T" (two_digits (Datetime.hour t)
    (String ":" (two_digits (Datetime.minute t)
    (String ":" (two_digits (Datetime.second t)
       (fraction (Datetime.microsecond t))))))))))))).

(** The order of time. *)
Definition datetime_compare (a b : Datetime.t) : comparison :=
  lex_then (Datetime.year a ?= Datetime.year b)%N
 (lex_then (Datetime.month a ?= Datetime.month b)%N
 (lex_then (Datetime.day a ?= Datetime.day b)%N
 (lex_then (Datetime.hour a ?= Datetime.hour b)%N
 (lex_then (Datetime.minute a ?= Datetime.minute b)%N
 (lex_then (Datetime.second a ?= Datetime.second b)%N
           (Datetime.microsecond a ?= Datetime.microsecond b)%N))))).

(** ** [parse_timeframe_to_dates] *)

Definition start_of_day (t : Datetime.t) : Datetime.t :=
  Datetime.mk (Datetime.year t) (Datetime.month t) (Datetime.day t) 0 0 0 0.

Definition end_of_day (t : Datetime.t) : Datetime.t :=
  Datetime.mk (Datetime.year t) (Datetime.month t) (Datetime.day t) 23 59 59 999999.

(** [(start_date + relativedelta(months=1)) - timedelta(seconds=1)] for
    the first moment [start_date] of a month: the first of the next month
    has to exist. *)
Definition month_end (start_date : Datetime.t) : result Datetime.t :=
  if ((Datetime.year start_date =? 9999) && (Datetime.month start_date =? 12))%N
  then Raise (ValueError "year 10000 is out of range")
  else Ok (Datetime.mk (Datetime.year start_date) (Datetime.month start_date)
             (days_in_month (Datetime.year start_date) (Datetime.month start_date))
             23 59 59 0).

Definition month_window (start_date : Datetime.t) : result (Datetime.t * Datetime.t) :=
  match month_end start_date with
  | Ok end_date => Ok (start_date, end_date)
  | Raise e => Raise e
  end.

(** [today] is the reading of the clock; [year] is never passed by the
    callers. *)
Definition parse_timeframe_to_dates (today : Datetime.t) (timeframe_str : string)
    (month : option Z) : result (Datetime.t * Datetime.t) :=
  let year := Datetime.year today in
  let this_month :=
    month_window (Datetime.mk (Datetime.year today) (Datetime.month today) 1 0 0 0 0) in
  if (timeframe_str =? "today")%string then
    Ok (start_of_day today, end_of_day today)
  else if (timeframe_str =? "this_month")%string then this_month
  else if (timeframe_str =? "this_year")%string then
    Ok (Datetime.mk (Datetime.year today) 1 1 0 0 0 0,
        Datetime.mk (Datetime.year today) 12 31 23 59 59 999999)
  else
    match (timeframe_str =? "month")%string, month with
    | true, Some month =>
        if (1 <=? month) && (month <=? 12)
        then month_window (Datetime.mk year (Z.to_N month) 1 0 0 0 0)
        else Raise (ValueError "month must be in 1..12")
    | _, _ => this_month
    end.

(** ** The rows of a summary *)

(** [date BETWEEN ? AND ?] on texts, with the ends of the window written
    by [isoformat]. *)
Definition between (date : string) (window : Datetime.t * Datetime.t) : bool :=
  (isoformat (fst window) <=? date)%string && (date <=? isoformat (snd window))%string.

(** [WHERE user_id = ? AND date BETWEEN ? AND ? AND type = ? AND
    is_deleted = 0] of [get_transactions_for_period]: the rows the query
    groups by category and currency. *)
Definition in_period (user_id : Z) (start_date end_date : Datetime.t)
    (trans_type : string) (r : Tx.t) : bool :=
  (Tx.user_id r =? user_id)
  && between (Tx.date r) (start_date, end_date)
  && (Tx.type r =? trans_type)%string
  && (Tx.is_deleted r =? 0).

(** An expense of [user_id] that is not deleted, the kind of row
    [generate_and_send_summary] asks for. *)
Definition live_expense (user_id : Z) (r : Tx.t) : Prop :=
  Tx.user_id r = user_id /\ Tx.type r = "expense" /\ Tx.is_deleted r = 0.

Definition same_year (a b : Datetime.t) : Prop := Datetime.year a = Datetime.year b.

Definition same_day (a b : Datetime.t) : Prop :=
  Datetime.year a = Datetime.year b /\ Datetime.month a = Datetime.month b
  /\ Datetime.day a = Datetime.day b.

(** The last second of a month. *)
Definition in_last_second (t : Datetime.t) : Prop :=
  Datetime.day t = days_in_month (Datetime.year t) (Datetime.month t)
  /\ Datetime.hour t = 23%N /\ Datetime.minute t = 59%N /\ Datetime.second t = 59%N.

(** Samples: a Tuesday afternoon, and half a second before a month ends. *)
Definition a_tuesday : Datetime.t := Datetime.mk 2025 9 2 15 30 0 250000.

Definition end_of_september : Datetime.t := Datetime.mk 2025 9 30 23 59 59 500000.

(** An expense of user 7 written at that moment. *)
Definition last_coffee : Tx.t :=
  Tx.mk 5 7 (isoformat end_of_september) "expense" "Food" 3 0 "coffee" "USD"
        None None 0 "open" 0.

(** * Properties *)

(** ** Text *)

Lemma lower_sample : lower "Expense" = "expense" /\ lower "INCOME" = "income".
Proof. split; reflexivity. Qed.

Lemma upper_sample : upper "usd" = "USD" /\ upper "Uzs" = "UZS".
Proof. split; reflexivity. Qed.

(** ** Ordering by id *)

Lemma insert_by_id_In x r l : In x (insert_by_id r l) <-> x = r \/ In x l.
Proof.
  induction l as [|y l IH]; simpl.
  - intuition.
  - destruct (Tx.id r <? Tx.id y); simpl; rewrite ?IH; intuition.
Qed.

Lemma order_by_id_In x l : In x (order_by_id l) <-> In x l.
Proof.
  induction l as [|y l IH]; simpl; [tauto|].
  rewrite insert_by_id_In, IH. intuition.
Qed.

Lemma insert_by_id_sorted r l :
  StronglySorted id_le l -> StronglySorted id_le (insert_by_id r l).
Proof.
  induction 1 as [|y l Hs IH Hall]; simpl.
  - repeat constructor.
  - destruct (Tx.id r <? Tx.id y) eqn:E.
    + apply Z.ltb_lt in E. constructor; [constructor; assumption|].
      constructor; [unfold id_le; lia|].
      eapply Forall_impl; [exact Hall|]. unfold id_le; simpl; intros; lia.
    + apply Z.ltb_ge in E. constructor; [exact IH|].
      apply List.Forall_forall. intros x Hx. apply insert_by_id_In in Hx.
      destruct Hx as [->|Hx]; [exact E|].
      rewrite List.Forall_forall in Hall. apply Hall; assumption.
Qed.

Lemma order_by_id_sorted l : StronglySorted id_le (order_by_id l).
Proof.
  induction l; simpl; [constructor|]. apply insert_by_id_sorted; assumption.
Qed.

Lemma sorted_last_greatest l r :
  StronglySorted id_le l -> last l = Some r ->
  forall x, In x l -> Tx.id x <= Tx.id r.
Proof.
  induction 1 as [|y l Hs IH Hall]; intros Hlast x Hx; [destruct Hx|].
  destruct l as [|z l'].
  - simpl in Hlast. injection Hlast as <-. destruct Hx as [->|[]]. lia.
  - rewrite last_cons_cons in Hlast. destruct Hx as [->|Hx].
    + rewrite List.Forall_forall in Hall.
      assert (In r (z :: l')) as Hr.
      { apply list_elem_of_In. eapply last_Some_elem_of; eassumption. }
      apply (Hall r Hr).
    + apply IH; assumption.
Qed.

Lemma order_by_id_ascending l : StronglySorted id_lt l -> order_by_id l = l.
Proof.
  induction 1 as [|y l Hs IH Hall]; simpl; [reflexivity|].
  rewrite IH. destruct l as [|z l']; simpl; [reflexivity|].
  inversion Hall as [|? ? Hz _]; subst. unfold id_lt in Hz.
  apply Z.ltb_lt in Hz. rewrite Hz. reflexivity.
Qed.

Lemma filter_ascending f l :
  StronglySorted id_lt l -> StronglySorted id_lt (List.filter f l).
Proof.
  induction 1 as [|y l Hs IH Hall]; simpl; [constructor|].
  destruct (f y); [|exact IH]. constructor; [exact IH|].
  rewrite List.Forall_forall in *. intros x Hx. apply filter_In in Hx.
  apply Hall, Hx.
Qed.

Lemma fetchone_desc l :
  fetchone (limit 1 (order_by_id_desc l)) = last (order_by_id l).
Proof.
  unfold fetchone, limit, order_by_id_desc. rewrite <- head_reverse.
  destruct (reverse (order_by_id l)); reflexivity.
Qed.

Lemma max_rowid_ge l r : In r l -> Tx.id r <= max_rowid l.
Proof.
  induction l as [|y l IH]; simpl; [tauto|].
  intros [->|H]; [lia|]. specialize (IH H). lia.
Qed.

Lemma max_rowid_nonneg l : 0 <= max_rowid l.
Proof. induction l; simpl; lia. Qed.

Lemma max_rowid_app l1 l2 :
  max_rowid (l1 ++ l2) = Z.max (max_rowid l1) (max_rowid l2).
Proof.
  induction l1 as [|y l IH]; simpl.
  - pose proof (max_rowid_nonneg l2). lia.
  - lia.
Qed.

(** ** The balance lookup *)

Lemma get_last_balance_closing user_id currency s :
  get_last_balance user_id currency s =
  closing_balance 0 (order_by_id (List.filter (active_in user_id (upper currency))
                                              (transactions s))).
Proof. unfold get_last_balance, closing_balance. rewrite fetchone_desc. reflexivity. Qed.

(** C6. [get_last_balance] returns the stored balance of the non-deleted
    row of the owner and currency that has the greatest id, and 0 when the
    owner has no non-deleted row in that currency. *)
Theorem get_last_balance_latest (s : db) (user_id : Z) (currency : string) :
  let rows := List.filter (active_in user_id (upper currency)) (transactions s) in
  (rows = [] /\ get_last_balance user_id currency s = 0%float)
  \/ (exists r, In r rows
                /\ (forall x, In x rows -> Tx.id x <= Tx.id r)
                /\ get_last_balance user_id currency s = Tx.balance r).
Proof.
  intros rows. rewrite get_last_balance_closing. fold rows.
  unfold closing_balance.
  destruct (last (order_by_id rows)) as [r|] eqn:E.
  - right. exists r. split; [|split; [|reflexivity]].
    + apply order_by_id_In, list_elem_of_In. eapply last_Some_elem_of; exact E.
    + intros x Hx. apply (sorted_last_greatest (order_by_id rows)).
      * apply order_by_id_sorted.
      * exact E.
      * apply order_by_id_In; exact Hx.
  - left. split; [|reflexivity]. apply last_None in E.
    destruct rows as [|y l]; [reflexivity|].
    assert (In y (order_by_id (y :: l))) as H by (apply order_by_id_In; left; reflexivity).
    rewrite E in H. destruct H.
Qed.

(** ** The balance fold *)

Lemma closing_balance_snoc z l r : closing_balance z (l ++ [r]) = Tx.balance r.
Proof. unfold closing_balance. rewrite last_snoc. reflexivity. Qed.

Lemma closing_balance_cons z r l :
  closing_balance z (r :: l) = closing_balance (Tx.balance r) l.
Proof.
  unfold closing_balance. destruct l as [|y l]; [reflexivity|].
  rewrite last_cons_cons. destruct (last (y :: l)) eqn:E; [reflexivity|].
  apply last_None in E. discriminate.
Qed.

Lemma balance_fold_app z a b :
  balance_fold z (a ++ b) <->
  balance_fold z a /\ balance_fold (closing_balance z a) b.
Proof.
  revert z. induction a as [|r a IH]; intros z; simpl.
  - unfold closing_balance; simpl. tauto.
  - rewrite IH, closing_balance_cons. tauto.
Qed.

Lemma stream_well_keyed user_id currency s :
  well_keyed s ->
  stream user_id currency s = List.filter (active_in user_id currency) (transactions s).
Proof. intros H. apply order_by_id_ascending, filter_ascending, H. Qed.

Lemma active_in_inv user_id currency r :
  active_in user_id currency r = true ->
  Tx.user_id r = user_id /\ Tx.currency r = currency /\ Tx.is_deleted r = 0.
Proof.
  unfold active_in. rewrite !andb_true_iff.
  intros [[H1 H2] H3]. apply Z.eqb_eq in H1, H3. apply String.eqb_eq in H2. auto.
Qed.

Lemma active_in_same r :
  Tx.is_deleted r = 0 -> active_in (Tx.user_id r) (Tx.currency r) r = true.
Proof.
  intros H. unfold active_in. rewrite Z.eqb_refl, String.eqb_refl, H. reflexivity.
Qed.

(** *** A new row at the end of the table *)

Lemma ledger_ok_insert s r i :
  ledger_ok s ->
  max_rowid (transactions s) < Tx.id r ->
  Tx.is_deleted r = 0 ->
  signed_apply
    (closing_balance 0 (List.filter (active_in (Tx.user_id r) (Tx.currency r))
                                    (transactions s))) r = Some (Tx.balance r) ->
  ledger_ok (mkdb (transactions s ++ [r]) i).
Proof.
  intros [Hk Hf] Hid Hdel Hbal. split.
  - unfold well_keyed; simpl. apply StronglySorted_app_2.
    + intros x1 x2 H1 H2. apply list_elem_of_In in H1.
      apply list_elem_of_In in H2. destruct H2 as [<-|[]].
      apply max_rowid_ge in H1. unfold id_lt. lia.
    + exact Hk.
    + repeat constructor.
  - intros u c. simpl. rewrite List.filter_app. simpl.
    destruct (active_in u c r) eqn:E.
    + apply active_in_inv in E as (<- & <- & _).
      apply balance_fold_app. split; [apply Hf|]. simpl. auto.
    + rewrite app_nil_r. apply Hf.
Qed.

Lemma insert_transaction_inv user_id date type category amount currency balance
    description debtor return_date s i s1 :
  insert_transaction user_id date type category amount currency balance
    description debtor return_date s = Ok (i, s1) ->
  i = next_rowid s /\ i <= largest_rowid /\
  is_nan amount = false /\ is_nan balance = false /\
  s1 = mkdb (transactions s ++
              [Tx.mk i user_id date type category amount balance description
                     currency debtor return_date 0 "open" 0]) i.
Proof.
  unfold insert_transaction.
  destruct (is_nan amount); [discriminate|].
  destruct (is_nan balance); [discriminate|].
  destruct (largest_rowid <? next_rowid s) eqn:E; [discriminate|].
  apply Z.ltb_ge in E. intros [= <- <-]. auto.
Qed.

Lemma next_rowid_gt s : max_rowid (transactions s) < next_rowid s.
Proof. unfold next_rowid. lia. Qed.

(** ** The batch insert, one candidate at a time *)

Lemma add_loop_cons user_id now d ds balances ids s :
  add_loop user_id now (d :: ds) balances ids s =
  match draft_effect d with
  | None => add_loop user_id now ds balances ids s
  | Some op =>
      match balances !! draft_currency d with
      | None => Raise (KeyError (draft_currency d))
      | Some b =>
          match insert_transaction user_id (now (length ids)) (Draft.type d)
                  (Draft.category d) (Draft.amount d) (draft_currency d)
                  (op b (Draft.amount d)) (Draft.description d)
                  (Draft.debtor_name d) (Draft.return_date d) s with
          | Ok (i, s1) =>
              add_loop user_id now ds
                (<[draft_currency d := op b (Draft.amount d)]> balances)
                (ids ++ [i]) s1
          | Raise e => Raise e
          end
      end
  end.
Proof.
  unfold draft_effect, draft_currency. cbn [add_loop].
  destruct (lower (Draft.type d) =? "expense")%string;
    [|destruct (lower (Draft.type d) =? "income")%string; [|reflexivity]];
    unfold bind at 1, dict_get at 1;
    (destruct (balances !! upper (default "UZS" (Draft.currency d))) as [b|];
     [|reflexivity]);
    unfold ret at 1, bind at 1, dict_get; rewrite lookup_insert_eq; reflexivity.
Qed.

Lemma draft_effect_signed d op i user_id now b prev :
  draft_effect d = Some op ->
  b = op prev (Draft.amount d) ->
  signed_apply prev (row_of i user_id now d b) = Some b.
Proof.
  unfold draft_effect, signed_apply, row_of; simpl. intros H ->.
  destruct (lower (Draft.type d) =? "expense")%string; [injection H as <-; reflexivity|].
  destruct (lower (Draft.type d) =? "income")%string; [injection H as <-; reflexivity|].
  discriminate.
Qed.

Lemma add_loop_ledger_ok user_id now ds :
  forall balances ids s res s',
    ledger_ok s -> tracks user_id balances s ->
    add_loop user_id now ds balances ids s = Ok (res, s') ->
    ledger_ok s' /\ tracks user_id (fst res) s'.
Proof.
  induction ds as [|d ds IH]; intros balances ids s res s' Hok Htr Hrun.
  - simpl in Hrun. unfold ret in Hrun. injection Hrun as <- <-. auto.
  - rewrite add_loop_cons in Hrun.
    destruct (draft_effect d) as [op|] eqn:Eop; [|eapply IH; eassumption].
    destruct (balances !! draft_currency d) as [b|] eqn:Eb; [|discriminate].
    destruct (insert_transaction _ _ _ _ _ _ _ _ _ _ s) as [[i s1]|e] eqn:Ei;
      [|discriminate].
    apply insert_transaction_inv in Ei as (Hi & _ & _ & _ & ->).
    fold (row_of i user_id (now (length ids)) d (op b (Draft.amount d))) in Hrun.
    eapply IH; [| |exact Hrun].
    + apply ledger_ok_insert; [exact Hok| | |].
      * simpl. rewrite Hi. apply next_rowid_gt.
      * reflexivity.
      * simpl Tx.user_id. simpl Tx.currency. simpl Tx.balance.
        eapply draft_effect_signed; [exact Eop|].
        rewrite <- (Htr _ _ Eb). reflexivity.
    + intros c b0 Hc. simpl. rewrite List.filter_app. simpl.
      destruct (decide (draft_currency d = c)) as [<-|Hne].
      * rewrite lookup_insert_eq in Hc. injection Hc as <-.
        unfold active_in at 2; simpl.
        rewrite Z.eqb_refl, String.eqb_refl. simpl.
        rewrite closing_balance_snoc. reflexivity.
      * rewrite lookup_insert_ne in Hc by exact Hne.
        unfold active_in at 2; simpl.
        apply String.eqb_neq in Hne. rewrite Hne, andb_false_r. simpl.
        rewrite app_nil_r. apply Htr, Hc.
Qed.

Lemma initial_balances_track user_id s :
  well_keyed s ->
  tracks user_id
    (<["USD" := get_last_balance user_id "USD" s]>
       (<["UZS" := get_last_balance user_id "UZS" s]> ∅)) s.
Proof.
  intros Hk c b Hc.
  destruct (decide ("USD" = c)) as [<-|H1].
  - rewrite lookup_insert_eq in Hc. injection Hc as <-.
    rewrite get_last_balance_closing. simpl upper.
    rewrite order_by_id_ascending by (apply filter_ascending, Hk). reflexivity.
  - rewrite lookup_insert_ne in Hc by exact H1.
    destruct (decide ("UZS" = c)) as [<-|H2].
    + rewrite lookup_insert_eq in Hc. injection Hc as <-.
      rewrite get_last_balance_closing. simpl upper.
      rewrite order_by_id_ascending by (apply filter_ascending, Hk). reflexivity.
    + rewrite lookup_insert_ne in Hc by exact H2. rewrite lookup_empty in Hc.
      discriminate.
Qed.

Lemma add_multiple_transactions_ledger_ok user_id now ds s :
  ledger_ok s -> ledger_ok (fst (add_multiple_transactions user_id now ds s)).
Proof.
  intros Hok. unfold add_multiple_transactions, transact.
  destruct (add_loop _ _ _ _ _ s) as [[res s']|e] eqn:E; simpl; [|exact Hok].
  eapply add_loop_ledger_ok in E; [apply E|exact Hok|].
  apply initial_balances_track, Hok.
Qed.

(** ** The soft delete *)

Lemma ascending_ids l :
  StronglySorted id_lt l <-> StronglySorted Z.lt (map Tx.id l).
Proof.
  induction l as [|r l IH]; simpl.
  - split; constructor.
  - rewrite !StronglySorted_cons, IH, Forall_map. reflexivity.
Qed.

Lemma update_where_id_ids i f l :
  (forall r, Tx.id (f r) = Tx.id r) ->
  map Tx.id (update_where_id i f l) = map Tx.id l.
Proof.
  intros Hf. unfold update_where_id. rewrite List.map_map.
  apply List.map_ext. intros r. destruct (Tx.id r =? i); [apply Hf|reflexivity].
Qed.

Lemma update_where_id_other i f l :
  (forall r, In r l -> Tx.id r <> i) -> update_where_id i f l = l.
Proof.
  intros H. unfold update_where_id. rewrite <- (List.map_id l) at 2.
  apply List.map_ext_in. intros r Hr. apply H in Hr.
  apply Z.eqb_neq in Hr. rewrite Hr. reflexivity.
Qed.

Lemma update_where_id_split i f l1 r l2 :
  StronglySorted id_lt (l1 ++ r :: l2) -> Tx.id r = i ->
  update_where_id i f (l1 ++ r :: l2) = l1 ++ f r :: l2.
Proof.
  intros Hs Hi. apply StronglySorted_app in Hs as (H12 & _ & H2).
  apply StronglySorted_cons in H2 as [H2 _].
  unfold update_where_id. rewrite List.map_app. simpl.
  rewrite Hi, Z.eqb_refl.
  fold (update_where_id i f l1). fold (update_where_id i f l2).
  rewrite !update_where_id_other; [reflexivity| |].
  - intros x Hx. rewrite List.Forall_forall in H2. specialize (H2 x Hx).
    unfold id_lt in H2. lia.
  - intros x Hx. specialize (H12 x r). unfold id_lt in H12.
    assert (Tx.id x < Tx.id r); [|lia].
    apply H12; [apply list_elem_of_In; exact Hx|left].
Qed.

Lemma fetchone_filter_Some (f : Tx.t -> bool) l r :
  fetchone (List.filter f l) = Some r -> In r l /\ f r = true.
Proof.
  intros H. apply List.filter_In. unfold fetchone in H.
  destruct (List.filter f l); [discriminate|]. injection H as ->. left; reflexivity.
Qed.

Lemma fetchone_filter_None (f : Tx.t -> bool) l :
  fetchone (List.filter f l) = None -> forall r, In r l -> f r = false.
Proof.
  intros H r Hr. destruct (f r) eqn:E; [|reflexivity].
  assert (In r (List.filter f l)) as Hin by (apply List.filter_In; auto).
  unfold fetchone in H. destruct (List.filter f l); [destruct Hin|discriminate].
Qed.

Lemma refold_ids user_id currency cb l :
  map Tx.id (refold user_id currency cb l) = map Tx.id l.
Proof.
  revert cb. induction l as [|r l IH]; intros cb; simpl; [reflexivity|].
  destruct (active_in user_id currency r); simpl; rewrite IH; reflexivity.
Qed.

Lemma recalculate_refold user_id currency l2 :
  forall pre cb seq res s',
    StronglySorted id_lt (pre ++ l2) ->
    recalculate (map (fun r => (Tx.id r, Tx.type r, Tx.amount r))
                     (List.filter (active_in user_id currency) l2)) cb
                (mkdb (pre ++ l2) seq) = Ok (res, s') ->
    s' = mkdb (pre ++ refold user_id currency cb l2) seq.
Proof.
  induction l2 as [|r rest IH]; intros pre cb seq res s' Hs Hrun.
  - simpl in Hrun. unfold ret in Hrun. injection Hrun as _ <-. reflexivity.
  - simpl in Hrun |- *. destruct (active_in user_id currency r) eqn:Ea.
    + simpl in Hrun. unfold bind, update_balance in Hrun. simpl in Hrun.
      match type of Hrun with context [is_nan ?b] => set (b0 := b) in * end.
      destruct (existsb _ _ && is_nan b0); [discriminate|].
      rewrite (update_where_id_split _ _ _ _ _ Hs eq_refl) in Hrun.
      replace (pre ++ Tx.set_balance b0 r :: rest)
        with ((pre ++ [Tx.set_balance b0 r]) ++ rest) in Hrun
        by (rewrite <- app_assoc; reflexivity).
      apply IH in Hrun.
      * rewrite Hrun, <- app_assoc. reflexivity.
      * apply ascending_ids. apply ascending_ids in Hs.
        rewrite !List.map_app in *. simpl in *. rewrite <- app_assoc. exact Hs.
    + replace (pre ++ r :: rest) with ((pre ++ [r]) ++ rest) in Hrun, Hs
        by (rewrite <- app_assoc; reflexivity).
      apply IH in Hrun; [|exact Hs].
      rewrite Hrun, <- app_assoc. reflexivity.
Qed.

Lemma filter_nothing (f : Tx.t -> bool) l :
  (forall r, In r l -> f r = false) -> List.filter f l = [].
Proof.
  induction l as [|r l IH]; intros H; simpl; [reflexivity|].
  rewrite (H r) by (left; reflexivity). apply IH. intros x Hx. apply H. right; exact Hx.
Qed.

(** Around the row [T] to delete, the body of the soft delete comes down
    to the walk over the rows after [T], started from the closing balance
    of the rows before it. *)
Lemma delete_body_split user_id transaction_id s l1 T l2 :
  well_keyed s ->
  transactions s = l1 ++ T :: l2 ->
  Tx.id T = transaction_id -> Tx.user_id T = user_id -> Tx.is_deleted T = 0 ->
  delete_body user_id transaction_id s
  = recalculate
      (map (fun r => (Tx.id r, Tx.type r, Tx.amount r))
           (List.filter (active_in user_id (Tx.currency T)) l2))
      (closing_balance 0 (List.filter (active_in user_id (Tx.currency T)) l1))
      (mkdb (l1 ++ Tx.set_is_deleted 1 T :: l2) (sqlite_sequence s)).
Proof.
  intros Hk Hl Hid Hu Hd.
  unfold well_keyed in Hk. rewrite Hl in Hk.
  pose proof Hk as Hk'.
  apply StronglySorted_app in Hk' as (H12 & Hs1 & H2).
  apply StronglySorted_cons in H2 as [H2 Hs2].
  assert (forall x, In x l1 -> Tx.id x < transaction_id) as Hlow.
  { intros x Hx. rewrite <- Hid. apply (H12 x T); [apply list_elem_of_In; exact Hx|left]. }
  assert (forall x, In x l2 -> transaction_id < Tx.id x) as Hhigh.
  { intros x Hx. rewrite <- Hid. rewrite List.Forall_forall in H2. apply (H2 x Hx). }
  unfold delete_body, own_row. rewrite Hl.
  rewrite List.filter_app, (filter_nothing _ l1).
  2:{ intros x Hx. apply Hlow in Hx.
      assert ((Tx.id x =? transaction_id) = false) as -> by (apply Z.eqb_neq; lia).
      reflexivity. }
  simpl. rewrite Hid, Hu, Hd, !Z.eqb_refl. simpl.
  unfold bind, update_is_deleted. cbv beta iota.
  simpl transactions. rewrite Hl.
  rewrite (update_where_id_split _ _ _ _ _ Hk Hid).
  set (c := Tx.currency T) in *.
  set (T' := Tx.set_is_deleted 1 T) in *.
  assert (List.filter (fun r => active_in user_id c r && (Tx.id r <? transaction_id))
            (l1 ++ T' :: l2) = List.filter (active_in user_id c) l1) as Hprev.
  { rewrite List.filter_app. simpl.
    replace (active_in user_id c T') with false
      by (unfold active_in, T'; simpl; rewrite andb_false_r; reflexivity).
    simpl. rewrite (filter_nothing _ l2).
    - rewrite app_nil_r. apply List.filter_ext_in. intros x Hx.
      apply Hlow in Hx. apply Z.ltb_lt in Hx. rewrite Hx, andb_true_r. reflexivity.
    - intros x Hx. apply Hhigh in Hx.
      assert ((Tx.id x <? transaction_id) = false) as -> by (apply Z.ltb_ge; lia).
      apply andb_false_r. }
  assert (List.filter (fun r => active_in user_id c r && (transaction_id <? Tx.id r))
            (l1 ++ T' :: l2) = List.filter (active_in user_id c) l2) as Hnext.
  { rewrite List.filter_app. simpl.
    replace (active_in user_id c T') with false
      by (unfold active_in, T'; simpl; rewrite andb_false_r; reflexivity).
    simpl. rewrite (filter_nothing _ l1).
    - simpl. apply List.filter_ext_in. intros x Hx.
      apply Hhigh in Hx. apply Z.ltb_lt in Hx. rewrite Hx, andb_true_r. reflexivity.
    - intros x Hx. apply Hlow in Hx.
      assert ((transaction_id <? Tx.id x) = false) as -> by (apply Z.ltb_ge; lia).
      apply andb_false_r. }
  rewrite Hprev, Hnext, fetchone_desc.
  rewrite !order_by_id_ascending by (apply filter_ascending; assumption).
  reflexivity.
Qed.

Lemma ascending_middle l1 r r' l2 :
  Tx.id r' = Tx.id r ->
  StronglySorted id_lt (l1 ++ r :: l2) -> StronglySorted id_lt ((l1 ++ [r']) ++ l2).
Proof.
  intros Hid Hs. apply ascending_ids. apply ascending_ids in Hs.
  rewrite !List.map_app in *. simpl in *. rewrite <- app_assoc, Hid. exact Hs.
Qed.

(** What a soft delete that went through has done to the table. *)
Lemma delete_body_inv user_id transaction_id s res s' :
  well_keyed s ->
  delete_body user_id transaction_id s = Ok (res, s') ->
  exists l1 T l2,
    transactions s = l1 ++ T :: l2 /\
    Tx.id T = transaction_id /\ Tx.user_id T = user_id /\ Tx.is_deleted T = 0 /\
    s' = mkdb (l1 ++ Tx.set_is_deleted 1 T ::
                 refold user_id (Tx.currency T)
                   (closing_balance 0
                      (List.filter (active_in user_id (Tx.currency T)) l1)) l2)
              (sqlite_sequence s).
Proof.
  intros Hk Hrun.
  assert (exists T, In T (transactions s) /\ Tx.id T = transaction_id
                    /\ Tx.user_id T = user_id /\ Tx.is_deleted T = 0)
    as (T & Hin & Hid & Hu & Hd).
  { unfold delete_body in Hrun.
    destruct (own_row _ _ _) as [T|] eqn:Ef; [|discriminate].
    unfold own_row in Ef. apply fetchone_filter_Some in Ef as [Hin Hp].
    rewrite !andb_true_iff, !Z.eqb_eq in Hp. exists T. tauto. }
  apply in_split in Hin as (l1 & l2 & Hl).
  exists l1, T, l2. repeat (split; [assumption|]).
  rewrite (delete_body_split _ _ _ _ _ _ Hk Hl Hid Hu Hd) in Hrun.
  replace (l1 ++ Tx.set_is_deleted 1 T :: l2)
    with ((l1 ++ [Tx.set_is_deleted 1 T]) ++ l2) in Hrun
    by (rewrite <- app_assoc; reflexivity).
  apply recalculate_refold in Hrun.
  - rewrite Hrun, <- app_assoc. reflexivity.
  - unfold well_keyed in Hk. rewrite Hl in Hk.
    apply (ascending_middle _ T); [reflexivity|exact Hk].
Qed.

(** The walk goes through when every balance it writes is a number. *)
Lemma recalculate_run user_id currency l2 :
  forall pre cb seq,
    StronglySorted id_lt (pre ++ l2) ->
    Forall (fun r => is_nan (Tx.balance r) = false)
           (List.filter (active_in user_id currency)
                        (refold user_id currency cb l2)) ->
    recalculate (map (fun r => (Tx.id r, Tx.type r, Tx.amount r))
                     (List.filter (active_in user_id currency) l2)) cb
                (mkdb (pre ++ l2) seq)
    = Ok (tt, mkdb (pre ++ refold user_id currency cb l2) seq).
Proof.
  induction l2 as [|r rest IH]; intros pre cb seq Hs Hn.
  - reflexivity.
  - simpl in Hn |- *. destruct (active_in user_id currency r) eqn:Ea.
    + set (b0 := if (lower (Tx.type r) =? "expense")%string
                 then (cb - Tx.amount r)%float else (cb + Tx.amount r)%float) in *.
      cbn [List.filter] in Hn.
      replace (active_in user_id currency (Tx.set_balance b0 r)) with true in Hn
        by (rewrite <- Ea; reflexivity).
      apply Forall_cons in Hn as [Hb Hn]. simpl in Hb.
      simpl. unfold bind, update_balance. simpl. fold b0.
      rewrite Hb, andb_false_r.
      rewrite (update_where_id_split _ _ _ _ _ Hs eq_refl).
      replace (pre ++ Tx.set_balance b0 r :: rest)
        with ((pre ++ [Tx.set_balance b0 r]) ++ rest)
        by (rewrite <- app_assoc; reflexivity).
      rewrite IH; [rewrite <- app_assoc; reflexivity| |exact Hn].
      apply (ascending_middle _ r); [reflexivity|exact Hs].
    + cbn [List.filter] in Hn. rewrite Ea in Hn.
      replace (pre ++ r :: rest) with ((pre ++ [r]) ++ rest) in Hs |- *
        by (rewrite <- app_assoc; reflexivity).
      rewrite IH; [rewrite <- app_assoc; reflexivity|exact Hs|exact Hn].
Qed.

Lemma balance_fold_valid z l r :
  balance_fold z l -> In r l ->
  lower (Tx.type r) = "expense" \/ lower (Tx.type r) = "income".
Proof.
  revert z. induction l as [|y l IH]; intros z Hf Hr; [destruct Hr|].
  destruct Hf as [Hy Hf]. destruct Hr as [->|Hr]; [|eapply IH; eassumption].
  unfold signed_apply in Hy.
  destruct (lower (Tx.type r) =? "expense")%string eqn:E1;
    [left; apply String.eqb_eq, E1|].
  destruct (lower (Tx.type r) =? "income")%string eqn:E2;
    [right; apply String.eqb_eq, E2|discriminate].
Qed.

Lemma refold_own user_id currency l :
  forall cb,
    (forall r, In r l -> active_in user_id currency r = true ->
               lower (Tx.type r) = "expense" \/ lower (Tx.type r) = "income") ->
    balance_fold cb (List.filter (active_in user_id currency)
                                 (refold user_id currency cb l)).
Proof.
  induction l as [|r l IH]; intros cb Hv; simpl; [exact I|].
  destruct (active_in user_id currency r) eqn:Ea; simpl.
  - replace (active_in user_id currency (Tx.set_balance _ r)) with true
      by (rewrite <- Ea; reflexivity).
    simpl. split.
    + unfold signed_apply; simpl.
      destruct (Hv r (or_introl eq_refl) Ea) as [H|H]; rewrite H; reflexivity.
    + apply IH. intros x Hx. apply Hv. right; exact Hx.
  - rewrite Ea. apply IH. intros x Hx. apply Hv. right; exact Hx.
Qed.

Lemma refold_other user_id currency u c l :
  (u, c) <> (user_id, currency) ->
  forall cb,
    List.filter (active_in u c) (refold user_id currency cb l) =
    List.filter (active_in u c) l.
Proof.
  intros Hne. induction l as [|r l IH]; intros cb; simpl; [reflexivity|].
  destruct (active_in user_id currency r) eqn:Ea; simpl.
  - replace (active_in u c (Tx.set_balance _ r)) with (active_in u c r)
      by reflexivity.
    destruct (active_in u c r) eqn:Eb.
    + apply active_in_inv in Ea as (? & ? & _).
      apply active_in_inv in Eb as (? & ? & _). congruence.
    + apply IH.
  - rewrite IH. reflexivity.
Qed.

Lemma delete_ledger_ok user_id transaction_id s :
  ledger_ok s ->
  ledger_ok (fst (delete_transaction_and_recalculate user_id transaction_id s)).
Proof.
  intros Hok. unfold delete_transaction_and_recalculate, transact.
  destruct (delete_body user_id transaction_id s) as [[res s']|e] eqn:E;
    simpl; [|exact Hok].
  destruct Hok as [Hk Hf].
  apply delete_body_inv in E as (l1 & T & l2 & Hl & Hid & Hu & Hd & ->);
    [|exact Hk].
  split.
  - unfold well_keyed in *. simpl. rewrite Hl in Hk.
    apply ascending_ids. apply ascending_ids in Hk.
    rewrite !List.map_app in *. simpl in *. rewrite refold_ids. exact Hk.
  - intros u c. simpl. specialize (Hf u c). rewrite Hl in Hf.
    rewrite List.filter_app in Hf |- *. simpl in Hf |- *.
    replace (active_in u c (Tx.set_is_deleted 1 T)) with false
      by (unfold active_in; simpl; rewrite andb_false_r; reflexivity).
    destruct (decide ((u, c) = (user_id, Tx.currency T))) as [Heq|Hne].
    + injection Heq as -> ->.
      rewrite <- Hu in Hf. rewrite (active_in_same T Hd) in Hf. rewrite Hu in Hf.
      apply balance_fold_app in Hf as [Hf1 Hf2].
      apply balance_fold_app. split; [exact Hf1|].
      apply refold_own. intros r Hr Ha.
      simpl in Hf2. destruct Hf2 as [_ Hf2].
      eapply balance_fold_valid; [exact Hf2|].
      apply List.filter_In. auto.
    + rewrite (refold_other _ _ _ _ _ Hne).
      destruct (active_in u c T) eqn:Ea; [|exact Hf].
      apply active_in_inv in Ea as (? & ? & _). congruence.
Qed.

(** ** Updates that leave the ledger columns alone *)

Lemma set_debt_status_neutral st : ledger_neutral (Tx.set_debt_status st).
Proof. intros r. simpl. repeat split. Qed.

Lemma set_notified_neutral n : ledger_neutral (Tx.set_notified n).
Proof. intros r. simpl. repeat split. Qed.

Lemma where_id_neutral i f :
  ledger_neutral f -> ledger_neutral (fun r => if Tx.id r =? i then f r else r).
Proof.
  intros Hf r. destruct (Tx.id r =? i); [apply Hf|]. repeat split.
Qed.

Lemma filter_map_neutral (p : Tx.t -> bool) g l :
  (forall r, p (g r) = p r) ->
  List.filter p (map g l) = map g (List.filter p l).
Proof.
  intros H. induction l as [|r l IH]; simpl; [reflexivity|].
  rewrite H. destruct (p r); simpl; rewrite IH; reflexivity.
Qed.

Lemma balance_fold_neutral g l :
  ledger_neutral g -> forall z, balance_fold z (map g l) <-> balance_fold z l.
Proof.
  intros Hg. induction l as [|r l IH]; intros z; simpl; [tauto|].
  destruct (Hg r) as (_ & _ & _ & _ & Ht & Ha & Hb).
  unfold signed_apply. rewrite Ht, Ha, Hb, IH. tauto.
Qed.

Lemma active_in_neutral g u c r :
  ledger_neutral g -> active_in u c (g r) = active_in u c r.
Proof.
  intros Hg. destruct (Hg r) as (_ & Hu & Hc & Hd & _).
  unfold active_in. rewrite Hu, Hc, Hd. reflexivity.
Qed.

Lemma ledger_ok_update i f s seq :
  ledger_neutral f -> ledger_ok s ->
  ledger_ok (mkdb (update_where_id i f (transactions s)) seq).
Proof.
  intros Hf [Hk Hb]. split.
  - unfold well_keyed in *. simpl. apply ascending_ids.
    rewrite update_where_id_ids by (intros r; apply (Hf r)).
    apply ascending_ids, Hk.
  - intros u c. simpl. unfold update_where_id.
    pose proof (where_id_neutral i f Hf) as Hg.
    rewrite filter_map_neutral
      by (intros r; apply (active_in_neutral _ u c r Hg)).
    apply balance_fold_neutral; [exact Hg|apply Hb].
Qed.

(** ** Invariants of the requests *)

(** A property of the database that the batch insert, the soft delete and
    the two flag updates keep is kept by every request. *)
Section Preservation.

Variable P : db -> Prop.

Hypothesis P_insert :
  forall user_id now ds s,
    P s -> P (fst (add_multiple_transactions user_id now ds s)).

Hypothesis P_delete :
  forall user_id transaction_id s,
    P s -> P (fst (delete_transaction_and_recalculate user_id transaction_id s)).

Hypothesis P_paid : forall i s, P s -> P (update_debt_status_paid i s).

Hypothesis P_notified : forall i s, P s -> P (update_notified i s).

Lemma debt_paid_preserves user_id transaction_id now s :
  P s -> P (after_commits s (fst (debt_paid user_id transaction_id now s))).
Proof.
  intros Hs. unfold debt_paid.
  destruct (own_row _ _ _) as [debt_trans|]; [|exact Hs].
  destruct (Tx.debt_status debt_trans =? "open")%string; [|exact Hs].
  pose proof (P_insert user_id now [repayment_of debt_trans] s Hs) as H1.
  destruct (add_multiple_transactions user_id now [repayment_of debt_trans] s)
    as [s1 [r|e]]; simpl in *; [|exact Hs].
  apply P_paid, H1.
Qed.

Lemma remind_preserves due delivered : forall s, P s -> P (remind due delivered s).
Proof.
  induction due as [|[[[[debt_id u] debtor] a] c] rest IH]; intros s Hs; simpl;
    [exact Hs|].
  destruct debtor; [|apply IH, Hs].
  destruct (delivered debt_id); [|apply IH, Hs].
  apply IH, P_notified, Hs.
Qed.

Lemma handle_preserves s q : P s -> P (handle s q).
Proof.
  intros Hs. destruct q; simpl.
  - apply P_insert, Hs.
  - apply P_delete, Hs.
  - apply debt_paid_preserves, Hs.
  - apply remind_preserves, Hs.
Qed.

Lemma run_preserves qs : forall s, P s -> P (run qs s).
Proof.
  induction qs as [|q qs IH]; intros s Hs; simpl; [exact Hs|].
  apply IH, handle_preserves, Hs.
Qed.

End Preservation.

Lemma run_ledger_ok qs s : ledger_ok s -> ledger_ok (run qs s).
Proof.
  apply run_preserves.
  - apply add_multiple_transactions_ledger_ok.
  - apply delete_ledger_ok.
  - intros i s0 H. apply ledger_ok_update; [apply set_debt_status_neutral|exact H].
  - intros i s0 H. apply ledger_ok_update; [apply set_notified_neutral|exact H].
Qed.

Lemma init_db_ledger_ok : ledger_ok init_db.
Proof. split; [constructor|]. intros u c. exact I. Qed.

(** C1. After any sequence of requests on a new database (batch inserts
    and soft deletes, and also debt payments and reminder scans), the
    non-deleted rows of every owner and currency, ordered by id, satisfy
    the balance fold: each stored balance is the one before it plus the
    amount of an income or minus the amount of an expense, starting
    from 0. *)
Theorem balance_fold_invariant (qs : list request) (user_id : Z) (currency : string) :
  balance_fold 0 (stream user_id currency (run qs init_db)).
Proof.
  destruct (run_ledger_ok qs init_db init_db_ledger_ok) as [Hk Hb].
  rewrite stream_well_keyed by exact Hk. apply Hb.
Qed.

(** ** Row ids *)

Lemma increasing_between_app a l1 b l2 c :
  increasing_between a l1 b -> increasing_between b l2 c ->
  increasing_between a (l1 ++ l2) c.
Proof.
  revert a. induction l1 as [|x l1 IH]; intros a H1 H2; simpl in *.
  - destruct l2 as [|y l2]; simpl in *; [lia|]. split; [lia|apply H2].
  - split; [apply H1|]. apply IH; [apply H1|exact H2].
Qed.

Lemma increasing_between_bounds lo l hi :
  increasing_between lo l hi -> lo <= hi /\ Forall (fun x => lo < x <= hi) l.
Proof.
  revert lo. induction l as [|x l IH]; intros lo H; simpl in H.
  - split; [exact H|constructor].
  - destruct H as [Hx H]. apply IH in H as [Hle Hall]. split; [lia|].
    constructor; [lia|]. eapply Forall_impl; [exact Hall|]. simpl. intros; lia.
Qed.

Lemma increasing_between_sorted lo l hi :
  increasing_between lo l hi -> StronglySorted Z.lt l.
Proof.
  revert lo. induction l as [|x l IH]; intros lo H; [constructor|].
  destruct H as [_ H]. constructor; [eapply IH; exact H|].
  apply increasing_between_bounds in H as [_ H].
  eapply Forall_impl; [exact H|]. simpl. intros; lia.
Qed.

Lemma max_rowid_ids l1 l2 : map Tx.id l1 = map Tx.id l2 -> max_rowid l1 = max_rowid l2.
Proof.
  revert l2. induction l1 as [|x l1 IH]; intros [|y l2] H; try discriminate;
    [reflexivity|].
  simpl in *. injection H as Hx H. rewrite Hx, (IH _ H). reflexivity.
Qed.

Lemma high_update i f s :
  (forall r, Tx.id (f r) = Tx.id r) ->
  high (mkdb (update_where_id i f (transactions s)) (sqlite_sequence s)) = high s.
Proof.
  intros Hf. unfold high. simpl.
  rewrite (max_rowid_ids _ (transactions s)); [reflexivity|].
  apply update_where_id_ids, Hf.
Qed.

Lemma high_lt_next_rowid s : high s < next_rowid s.
Proof. unfold next_rowid, high. lia. Qed.

Lemma draft_effect_valid d :
  valid_type d = match draft_effect d with Some _ => true | None => false end.
Proof.
  unfold valid_type, draft_effect.
  destruct (lower (Draft.type d) =? "expense")%string; [reflexivity|].
  destruct (lower (Draft.type d) =? "income")%string; reflexivity.
Qed.

Lemma add_loop_rows user_id now ds :
  forall balances ids s res s',
    add_loop user_id now ds balances ids s = Ok (res, s') ->
    exists news,
      transactions s' = transactions s ++ news
      /\ snd res = ids ++ map Tx.id news
      /\ increasing_between (high s) (map Tx.id news) (high s')
      /\ Forall (fresh_row user_id) news
      /\ Forall2 (from_draft user_id) (List.filter valid_type ds) news.
Proof.
  induction ds as [|d ds IH]; intros balances ids s res s' Hrun.
  - simpl in Hrun. unfold ret in Hrun. injection Hrun as <- <-.
    exists []. simpl. rewrite !app_nil_r. repeat split; [lia|constructor|constructor].
  - rewrite add_loop_cons in Hrun. simpl List.filter. rewrite draft_effect_valid.
    destruct (draft_effect d) as [op|]; [|eapply IH; exact Hrun].
    destruct (balances !! draft_currency d) as [b|]; [|discriminate].
    destruct (insert_transaction _ _ _ _ _ _ _ _ _ _ s) as [[i s1]|e] eqn:Ei;
      [|discriminate].
    apply insert_transaction_inv in Ei as (Hi & _ & _ & _ & ->).
    fold (row_of i user_id (now (length ids)) d (op b (Draft.amount d))) in Hrun.
    apply IH in Hrun as (news & Hrows & Hres & Hinc & Hfresh & Hfrom).
    exists (row_of i user_id (now (length ids)) d (op b (Draft.amount d)) :: news).
    simpl in Hrows. rewrite <- app_assoc in Hrows. simpl in Hrows.
    split; [exact Hrows|]. split; [|split; [|split; [|constructor;
      [reflexivity|exact Hfrom]]]].
    + rewrite Hres, <- app_assoc. reflexivity.
    + simpl. split; [rewrite Hi; apply high_lt_next_rowid|].
      replace i with (high (mkdb (transactions s ++
        [row_of i user_id (now (length ids)) d (op b (Draft.amount d))]) i)) at 1;
        [exact Hinc|].
      unfold high. simpl. rewrite max_rowid_app. simpl.
      pose proof (next_rowid_gt s) as Hgt. rewrite <- Hi in Hgt.
      pose proof (max_rowid_nonneg (transactions s)) as Hnn.
      clear - Hgt Hnn. lia.
    + constructor; [|exact Hfresh]. repeat split.
Qed.

Lemma add_multiple_transactions_ids user_id now ds s :
  increasing_between (high s)
    match snd (add_multiple_transactions user_id now ds s) with
    | Ok (_, ids) => ids
    | Raise _ => []
    end
    (high (fst (add_multiple_transactions user_id now ds s))).
Proof.
  unfold add_multiple_transactions, transact.
  destruct (add_loop _ _ _ _ _ s) as [[[bal ids] s']|e] eqn:E; simpl; [|lia].
  apply add_loop_rows in E as (news & _ & Hres & Hinc & _ & _). simpl in Hres.
  rewrite Hres. exact Hinc.
Qed.

(** What the batch insert leaves: the table with fresh rows at its end
    whose ids are the ones returned, or the table as it was. *)
Lemma add_multiple_transactions_rows user_id now ds s :
  exists news,
    transactions (fst (add_multiple_transactions user_id now ds s))
    = transactions s ++ news
    /\ increasing_between (high s) (map Tx.id news)
         (high (fst (add_multiple_transactions user_id now ds s)))
    /\ Forall (fresh_row user_id) news
    /\ match snd (add_multiple_transactions user_id now ds s) with
       | Ok (_, ids) =>
           ids = map Tx.id news
           /\ Forall2 (from_draft user_id) (List.filter valid_type ds) news
       | Raise _ => news = []
       end.
Proof.
  unfold add_multiple_transactions, transact.
  destruct (add_loop _ _ _ _ _ s) as [[[bal ids] s']|e] eqn:E; simpl.
  - apply add_loop_rows in E as (news & Hrows & Hres & Hinc & Hfresh & Hfrom).
    exists news. auto.
  - exists []. rewrite app_nil_r. repeat split; [simpl; lia|constructor].
Qed.

Lemma recalculate_ids subsequent :
  forall cb s res s',
    recalculate subsequent cb s = Ok (res, s') ->
    map Tx.id (transactions s') = map Tx.id (transactions s)
    /\ sqlite_sequence s' = sqlite_sequence s.
Proof.
  induction subsequent as [|[[i ty] a] rest IH]; intros cb s res s' Hrun.
  - simpl in Hrun. unfold ret in Hrun. injection Hrun as _ <-. auto.
  - simpl in Hrun. unfold bind, update_balance in Hrun.
    match type of Hrun with context [is_nan ?b] => set (b0 := b) in * end.
    destruct (existsb _ _ && is_nan b0); [discriminate|].
    apply IH in Hrun as [H1 H2]. simpl in H1, H2. split; [|exact H2].
    rewrite H1. apply update_where_id_ids. reflexivity.
Qed.

Lemma delete_high user_id transaction_id s :
  high (fst (delete_transaction_and_recalculate user_id transaction_id s)) = high s.
Proof.
  unfold delete_transaction_and_recalculate, transact.
  destruct (delete_body user_id transaction_id s) as [[res s']|e] eqn:E;
    simpl; [|reflexivity].
  unfold delete_body in E. destruct (own_row _ _ _); [|discriminate].
  unfold bind, update_is_deleted in E.
  apply recalculate_ids in E as [H1 H2]. simpl in H1, H2.
  unfold high. rewrite H2, (max_rowid_ids _ _ H1).
  rewrite (max_rowid_ids _ (transactions s)); [reflexivity|].
  apply update_where_id_ids. reflexivity.
Qed.

Lemma remind_high due delivered : forall s, high (remind due delivered s) = high s.
Proof.
  induction due as [|[[[[debt_id u] debtor] a] c] rest IH]; intros s; simpl;
    [reflexivity|].
  destruct debtor; [|apply IH]. destruct (delivered debt_id); [|apply IH].
  rewrite IH. unfold update_notified. apply high_update. reflexivity.
Qed.

Lemma handle_ids s q :
  increasing_between (high s) (assigned_ids s q) (high (handle s q)).
Proof.
  destruct q as [u now ds|u i|u i now|today delivered]; simpl.
  - apply add_multiple_transactions_ids.
  - rewrite delete_high. lia.
  - unfold debt_paid.
    destruct (own_row _ _ _) as [debt_trans|]; [|simpl; lia].
    destruct (Tx.debt_status debt_trans =? "open")%string; [|simpl; lia].
    pose proof (add_multiple_transactions_ids u now [repayment_of debt_trans] s) as H.
    destruct (add_multiple_transactions u now [repayment_of debt_trans] s)
      as [s1 [[bal ids]|e]]; simpl in *.
    + unfold update_debt_status_paid. rewrite high_update by reflexivity. exact H.
    + lia.
  - unfold check_due_debts. rewrite remind_high. lia.
Qed.

Lemma all_assigned_ids_between qs :
  forall s, increasing_between (high s) (all_assigned_ids qs s) (high (run qs s)).
Proof.
  induction qs as [|q qs IH]; intros s; simpl; [lia|].
  eapply increasing_between_app; [apply handle_ids|apply IH].
Qed.

(** C9. Over any sequence of requests, on any database, the ids handed out
    by the batch insert, taken in the order they were assigned, are
    strictly increasing, and each is greater than the id of every row the
    table held before, deleted or not: no id is assigned twice. *)
Theorem assigned_ids_strictly_increasing (qs : list request) (s : db) :
  StronglySorted Z.lt (all_assigned_ids qs s)
  /\ (forall i r, In i (all_assigned_ids qs s) -> In r (transactions s) ->
                  Tx.id r < i).
Proof.
  pose proof (all_assigned_ids_between qs s) as H. split.
  - eapply increasing_between_sorted, H.
  - intros i r Hi Hr. apply increasing_between_bounds in H as [_ H].
    rewrite List.Forall_forall in H. specialize (H i Hi).
    apply max_rowid_ge in Hr. unfold high in H. lia.
Qed.

(** ** A currency outside the balances dictionary *)

Lemma add_loop_missing_key user_id now d ds :
  In d ds -> draft_effect d <> None ->
  forall balances ids s,
    balances !! draft_currency d = None ->
    exists e, add_loop user_id now ds balances ids s = Raise e.
Proof.
  intros Hin Hd. induction ds as [|d0 ds IH]; [destruct Hin|].
  intros balances ids s Hb. rewrite add_loop_cons.
  destruct Hin as [->|Hin].
  - destruct (draft_effect d); [|congruence]. rewrite Hb. eauto.
  - destruct (draft_effect d0) as [op|]; [|apply IH; assumption].
    destruct (balances !! draft_currency d0) as [b|] eqn:Eb; [|eauto].
    destruct (insert_transaction _ _ _ _ _ _ _ _ _ _ s) as [[i s1]|e]; [|eauto].
    apply IH; [exact Hin|].
    rewrite lookup_insert_ne; [exact Hb|]. intros Heq. congruence.
Qed.

Lemma valid_type_effect d :
  lower (Draft.type d) = "income" \/ lower (Draft.type d) = "expense" ->
  draft_effect d <> None.
Proof.
  unfold draft_effect. intros [H|H]; rewrite H; simpl; discriminate.
Qed.

(** C10. When a batch holds a candidate whose type is income or expense
    and whose currency, as the insert reads it (upper-cased, UZS when
    absent), is neither UZS nor USD, [add_multiple_transactions] raises,
    and the database is left as it was: no candidate of the batch is
    committed, the valid ones before it included. *)
Theorem unknown_currency_aborts_batch (s : db) (user_id : Z) (now : nat -> string)
    (batch : list Draft.t) (d : Draft.t) :
  In d batch ->
  lower (Draft.type d) = "income" \/ lower (Draft.type d) = "expense" ->
  draft_currency d <> "UZS" -> draft_currency d <> "USD" ->
  exists e, add_multiple_transactions user_id now batch s = (s, Raise e).
Proof.
  intros Hin Hty Huzs Husd. unfold add_multiple_transactions, transact.
  destruct (add_loop_missing_key user_id now d batch Hin (valid_type_effect d Hty)
              (<["USD" := get_last_balance user_id "USD" s]>
                 (<["UZS" := get_last_balance user_id "UZS" s]> ∅)) [] s)
    as [e He].
  - rewrite !lookup_insert_ne by congruence. apply lookup_empty.
  - rewrite He. eauto.
Qed.

Lemma unknown_currency_aborts_batch_witness :
  exists e, add_multiple_transactions 7 (clock_at sept_1) eur_batch abc_db
            = (abc_db, Raise e).
Proof.
  apply (unknown_currency_aborts_batch abc_db 7 (clock_at sept_1)
           eur_batch (draft "expense" 5 "Food" "EUR")).
  - right; left; reflexivity.
  - right; reflexivity.
  - discriminate.
  - discriminate.
Defined.

(** ** The due scan and the notified flag *)

Lemma marked_update tid i f s :
  keeps_mark f -> marked tid s ->
  marked tid (mkdb (update_where_id i f (transactions s)) (sqlite_sequence s)).
Proof.
  intros Hf [Hhi Hm]. split.
  - rewrite high_update; [exact Hhi|]. intros r. apply (Hf r).
  - simpl. unfold update_where_id. intros r' Hr' Hid.
    apply List.in_map_iff in Hr' as (r & <- & Hr).
    destruct (Tx.id r =? i).
    + destruct (Hf r) as [H1 H2]. apply H2, Hm; [exact Hr|congruence].
    + apply Hm; assumption.
Qed.

Lemma recalculate_marked tid subsequent :
  forall cb s res s',
    marked tid s -> recalculate subsequent cb s = Ok (res, s') -> marked tid s'.
Proof.
  induction subsequent as [|[[i ty] a] rest IH]; intros cb s res s' Hm Hrun.
  - simpl in Hrun. unfold ret in Hrun. injection Hrun as _ <-. exact Hm.
  - simpl in Hrun. unfold bind, update_balance in Hrun.
    match type of Hrun with context [is_nan ?b] => set (b0 := b) in * end.
    destruct (existsb _ _ && is_nan b0); [discriminate|].
    eapply IH; [|exact Hrun]. apply marked_update; [|exact Hm].
    intros r. simpl. auto.
Qed.

Lemma delete_marked tid user_id transaction_id s :
  marked tid s ->
  marked tid (fst (delete_transaction_and_recalculate user_id transaction_id s)).
Proof.
  intros Hm. unfold delete_transaction_and_recalculate, transact.
  destruct (delete_body user_id transaction_id s) as [[res s']|e] eqn:E;
    simpl; [|exact Hm].
  unfold delete_body in E. destruct (own_row _ _ _); [|discriminate].
  unfold bind, update_is_deleted in E.
  eapply recalculate_marked; [|exact E]. apply marked_update; [|exact Hm].
  intros r. simpl. auto.
Qed.

Lemma add_multiple_transactions_marked tid user_id now ds s :
  marked tid s -> marked tid (fst (add_multiple_transactions user_id now ds s)).
Proof.
  intros [Hhi Hm].
  destruct (add_multiple_transactions_rows user_id now ds s)
    as (news & Hrows & Hinc & _ & _).
  apply increasing_between_bounds in Hinc as [Hle Hnew]. split; [lia|].
  rewrite Hrows. intros r Hr Hid. apply in_app_or in Hr as [Hr|Hr].
  - apply Hm; assumption.
  - rewrite List.Forall_forall in Hnew.
    specialize (Hnew (Tx.id r) (List.in_map Tx.id _ _ Hr)). lia.
Qed.

Lemma run_marked tid qs s : marked tid s -> marked tid (run qs s).
Proof.
  apply run_preserves.
  - apply add_multiple_transactions_marked.
  - apply delete_marked.
  - intros i s0 H. apply marked_update; [|exact H]. intros r. simpl. auto.
  - intros i s0 H. apply marked_update; [|exact H]. intros r. simpl. auto.
Qed.

Lemma update_notified_marked tid s :
  (exists r0, In r0 (transactions s) /\ Tx.id r0 = tid) ->
  marked tid (update_notified tid s).
Proof.
  intros (r0 & Hr0 & Hid). split.
  - unfold update_notified. rewrite high_update by reflexivity.
    apply max_rowid_ge in Hr0. unfold high. lia.
  - simpl. unfold update_where_id. intros r' Hr' Hid'.
    apply List.in_map_iff in Hr' as (r & <- & Hr).
    destruct (Tx.id r =? tid) eqn:E; [reflexivity|].
    apply Z.eqb_neq in E. contradiction.
Qed.

Lemma remind_undelivered due : forall s, remind due (fun _ => false) s = s.
Proof.
  induction due as [|[[[[debt_id u] debtor] a] c] rest IH]; intros s; simpl;
    [reflexivity|].
  destruct debtor; apply IH.
Qed.

(** C7. The due scan returns exactly the rows of category Debt that are
    open, not deleted, not yet notified, and whose return date is at most
    the scan date; a run of the reminder job in which no reminder goes out
    marks nothing, so the next scan returns the same rows; and once a row
    has been marked notified, no scan returns it again, whatever requests
    come in between. *)
Theorem due_scan_exact_and_stable (s : db) (today_str : string) :
  (forall r, In r (find_due_unnotified today_str s) <->
     In r (transactions s)
     /\ Tx.category r = "Debt" /\ Tx.debt_status r = "open"
     /\ Tx.is_deleted r = 0
     /\ (exists d, Tx.return_date r = Some d /\ (d <=? today_str)%string = true)
     /\ Tx.notified r = 0)
  /\ find_due_unnotified today_str (check_due_debts today_str (fun _ => false) s)
     = find_due_unnotified today_str s
  /\ (forall debt_id qs later r,
        (exists r0, In r0 (transactions s) /\ Tx.id r0 = debt_id) ->
        In r (find_due_unnotified later (run qs (update_notified debt_id s))) ->
        Tx.id r <> debt_id).
Proof.
  split; [|split].
  - intros r. unfold find_due_unnotified, is_due_unnotified.
    rewrite List.filter_In, !andb_true_iff, !Z.eqb_eq, !String.eqb_eq.
    split.
    + intros (Hin & (((Hc & Hd) & Hn) & Hdel) & Hst).
      repeat (split; [assumption|]). split; [|assumption].
      destruct (Tx.return_date r) as [d|]; [eauto|discriminate].
    + intros (Hin & Hc & Hst & Hdel & (d & Hd & Hle) & Hn).
      rewrite Hd. repeat split; assumption.
  - unfold check_due_debts. rewrite remind_undelivered. reflexivity.
  - intros debt_id qs later r Hex Hr Hid.
    destruct (run_marked debt_id qs _ (update_notified_marked debt_id s Hex))
      as [_ Hm].
    unfold find_due_unnotified in Hr. apply List.filter_In in Hr as [Hin Hdue].
    specialize (Hm r Hin Hid). unfold is_due_unnotified in Hdue.
    rewrite Hm in Hdue. simpl in Hdue.
    rewrite !andb_false_r in Hdue. discriminate.
Qed.

(** *** Return dates in ISO form *)

Lemma string_compare_cons a s b t :
  String.compare (String a s) (String b t)
  = lex_then (Ascii.compare a b) (String.compare s t).
Proof. simpl. destruct (Ascii.compare a b); reflexivity. Qed.

Lemma compare_digit_char a b :
  (a < 10)%N -> (b < 10)%N ->
  Ascii.compare (digit_char a) (digit_char b) = (a ?= b)%N.
Proof.
  intros Ha Hb. unfold Ascii.compare, digit_char.
  rewrite !N_ascii_embedding by lia.
  destruct (N.compare_spec a b) as [H|H|H].
  - subst. apply N.compare_refl.
  - apply N.compare_lt_iff. lia.
  - apply N.compare_gt_iff. lia.
Qed.

Lemma compare_base (k q r q' r' : N) :
  (r < k)%N -> (r' < k)%N ->
  (k * q + r ?= k * q' + r')%N = lex_then (q ?= q')%N (r ?= r')%N.
Proof.
  intros Hr Hr'. unfold lex_then.
  destruct (N.compare_spec q q') as [H|H|H].
  - subst. destruct (N.compare_spec r r') as [H|H|H].
    + subst. apply N.compare_refl.
    + apply N.compare_lt_iff. lia.
    + apply N.compare_gt_iff. lia.
  - apply N.compare_lt_iff. nia.
  - apply N.compare_gt_iff. nia.
Qed.

Lemma compare_two_digits n n' s s' :
  (n < 100)%N -> (n' < 100)%N ->
  String.compare (two_digits n s) (two_digits n' s')
  = lex_then (n ?= n')%N (String.compare s s').
Proof.
  intros Hn Hn'. unfold two_digits. rewrite !string_compare_cons.
  rewrite !compare_digit_char
    by (try apply N.mod_lt; try (apply N.Div0.div_lt_upper_bound; lia); lia).
  rewrite (N.div_mod n 10) at 3 by lia. rewrite (N.div_mod n' 10) at 3 by lia.
  rewrite compare_base by (apply N.mod_lt; lia).
  destruct (n / 10 ?= n' / 10)%N, (n mod 10 ?= n' mod 10)%N; reflexivity.
Qed.

Lemma compare_iso_date y m d y' m' d' :
  (y < 10000)%N -> (y' < 10000)%N -> (m < 100)%N -> (m' < 100)%N ->
  (d < 100)%N -> (d' < 100)%N ->
  String.compare (iso_date y m d) (iso_date y' m' d')
  = lex_then (y ?= y')%N (lex_then (m ?= m')%N (d ?= d')%N).
Proof.
  intros Hy Hy' Hm Hm' Hd Hd'. unfold iso_date.
  rewrite !compare_two_digits
    by (try apply N.mod_lt; try (apply N.Div0.div_lt_upper_bound; lia); lia).
  rewrite string_compare_cons, compare_two_digits by assumption.
  rewrite string_compare_cons, compare_two_digits by assumption.
  simpl String.compare.
  rewrite (N.div_mod y 100) at 3 by lia. rewrite (N.div_mod y' 100) at 3 by lia.
  rewrite compare_base by (apply N.mod_lt; lia).
  change (Ascii.compare "-" "-") with Eq.
  destruct (y / 100 ?= y' / 100)%N, (y mod 100 ?= y' mod 100)%N,
           (m ?= m')%N, (d ?= d')%N; reflexivity.
Qed.

(** On dates in ISO form the text comparison of the query is the calendar
    order. *)
Lemma iso_date_leb y m d y' m' d' :
  (y < 10000)%N -> (y' < 10000)%N -> (m < 100)%N -> (m' < 100)%N ->
  (d < 100)%N -> (d' < 100)%N ->
  (iso_date y m d <=? iso_date y' m' d')%string = true <-> date_le y m d y' m' d'.
Proof.
  intros Hy Hy' Hm Hm' Hd Hd'. unfold String.leb.
  rewrite compare_iso_date by assumption. unfold date_le, lex_then.
  destruct (N.compare_spec y y') as [H1|H1|H1];
    [destruct (N.compare_spec m m') as [H2|H2|H2];
       [destruct (N.compare_spec d d') as [H3|H3|H3]| |]| |];
    split; intros H; try reflexivity; try discriminate; lia.
Qed.

Lemma iso_date_sample : iso_date 2025 9 25 = "2025-09-25".
Proof. reflexivity. Qed.

Lemma due_scan_exact_and_stable_witness :
  map Tx.id (find_due_unnotified "2025-09-26" debt_db) = [1]
  /\ (forall r,
        In r (find_due_unnotified "2025-09-28"
                (run later_requests (update_notified 1 debt_db))) ->
        Tx.id r <> 1).
Proof.
  split; [vm_compute; reflexivity|]. intros r.
  apply (proj2 (proj2 (due_scan_exact_and_stable debt_db "2025-09-26"))
           1 later_requests "2025-09-28" r).
  exists debt_row_1. split; [left|]; reflexivity.
Defined.

(** ** Currency isolation *)

Lemma well_keyed_unique l a b :
  StronglySorted id_lt l -> In a l -> In b l -> Tx.id a = Tx.id b -> a = b.
Proof.
  induction 1 as [|y l Hs IH Hall]; intros Ha Hb Hid; [destruct Ha|].
  rewrite List.Forall_forall in Hall. unfold id_lt in Hall.
  destruct Ha as [->|Ha], Hb as [->|Hb].
  - reflexivity.
  - specialize (Hall b Hb). lia.
  - specialize (Hall a Ha). lia.
  - apply IH; assumption.
Qed.

Lemma refold_frame user_id currency l :
  forall cb,
    Forall2 (fun r r' => active_in user_id currency r = false -> r' = r)
            l (refold user_id currency cb l).
Proof.
  induction l as [|r l IH]; intros cb; simpl; [constructor|].
  destruct (active_in user_id currency r) eqn:E; constructor;
    solve [apply IH | cbv beta; intros H; congruence].
Qed.

Lemma refold_filter user_id currency l :
  forall cb,
    List.filter (active_in user_id currency) (refold user_id currency cb l)
    = refold user_id currency cb (List.filter (active_in user_id currency) l).
Proof.
  induction l as [|r l IH]; intros cb; simpl; [reflexivity|].
  destruct (active_in user_id currency r) eqn:E; simpl.
  - replace (active_in user_id currency (Tx.set_balance _ r)) with true
      by (rewrite <- E; reflexivity).
    rewrite E, IH. reflexivity.
  - rewrite E. apply IH.
Qed.

Lemma Forall2_same {A} (R : A -> A -> Prop) l :
  (forall x, R x x) -> Forall2 R l l.
Proof. intros H. induction l; constructor; auto. Qed.

Lemma delete_frame user_id transaction_id s T :
  well_keyed s -> In T (transactions s) -> Tx.id T = transaction_id ->
  Forall2 (fun r r' =>
             Tx.currency r <> Tx.currency T \/ Tx.user_id r <> user_id -> r' = r)
          (transactions s)
          (transactions (fst (delete_transaction_and_recalculate
                                user_id transaction_id s))).
Proof.
  intros Hk HT Hid. unfold delete_transaction_and_recalculate, transact.
  destruct (delete_body user_id transaction_id s) as [[res s']|e] eqn:E;
    simpl; [|apply Forall2_same; auto].
  apply delete_body_inv in E as (l1 & T0 & l2 & Hl & Hid0 & Hu & Hd & ->);
    [|exact Hk].
  assert (T0 = T) as ->.
  { apply (well_keyed_unique (transactions s)); [exact Hk| |exact HT|congruence].
    rewrite Hl. apply in_or_app. right; left; reflexivity. }
  simpl. rewrite Hl. apply Forall2_app; [apply Forall2_same; auto|].
  constructor.
  - intros [H|H]; congruence.
  - eapply Forall2_impl; [apply refold_frame|]. simpl.
    intros r r' H Hne. apply H. unfold active_in.
    destruct Hne as [Hne|Hne].
    + apply String.eqb_neq in Hne. rewrite Hne, andb_false_r. reflexivity.
    + apply Z.eqb_neq in Hne. rewrite Hne. reflexivity.
Qed.

Lemma delete_stream user_id transaction_id s res s' T :
  well_keyed s -> In T (transactions s) -> Tx.id T = transaction_id ->
  delete_body user_id transaction_id s = Ok (res, s') ->
  stream user_id (Tx.currency T) s'
  = reconcile user_id (Tx.currency T) transaction_id
      (stream user_id (Tx.currency T) s).
Proof.
  intros Hk HT Hid E.
  apply delete_body_inv in E as (l1 & T0 & l2 & Hl & Hid0 & Hu & Hd & ->);
    [|exact Hk].
  assert (T0 = T) as ->.
  { apply (well_keyed_unique (transactions s)); [exact Hk| |exact HT|congruence].
    rewrite Hl. apply in_or_app. right; left; reflexivity. }
  set (c := Tx.currency T).
  pose proof Hk as Hk'. unfold well_keyed in Hk'. rewrite Hl in Hk'.
  apply StronglySorted_app in Hk' as (H12 & Hs1 & H2).
  apply StronglySorted_cons in H2 as [H2 Hs2].
  assert (forall x, In x l1 -> Tx.id x < transaction_id) as Hlow.
  { intros x Hx. rewrite <- Hid. apply (H12 x T); [apply list_elem_of_In; exact Hx|left]. }
  assert (forall x, In x l2 -> transaction_id < Tx.id x) as Hhigh.
  { intros x Hx. rewrite <- Hid. rewrite List.Forall_forall in H2. apply (H2 x Hx). }
  rewrite (stream_well_keyed _ _ s Hk).
  unfold stream. simpl transactions.
  rewrite order_by_id_ascending.
  2:{ apply filter_ascending, ascending_ids.
      unfold well_keyed in Hk. rewrite Hl in Hk. apply ascending_ids in Hk.
      rewrite !List.map_app in *. simpl in *. rewrite refold_ids. exact Hk. }
  rewrite Hl, !List.filter_app. simpl.
  replace (active_in user_id c (Tx.set_is_deleted 1 T)) with false
    by (unfold active_in; simpl; rewrite andb_false_r; reflexivity).
  rewrite <- Hu. unfold c. rewrite (active_in_same T Hd). rewrite Hu. fold c.
  unfold reconcile. rewrite !List.filter_app. simpl.
  rewrite Hid, Z.ltb_irrefl.
  rewrite (filter_nothing (fun r => Tx.id r <? transaction_id)
             (List.filter (active_in user_id c) l2)).
  2:{ intros x Hx. apply List.filter_In in Hx as [Hx _]. apply Hhigh in Hx.
      apply Z.ltb_ge. lia. }
  rewrite (filter_nothing (fun r => transaction_id <? Tx.id r)
             (List.filter (active_in user_id c) l1)).
  2:{ intros x Hx. apply List.filter_In in Hx as [Hx _]. apply Hlow in Hx.
      apply Z.ltb_ge. lia. }
  rewrite app_nil_r. simpl.
  assert (forall (p : Tx.t -> bool) l, (forall x, In x l -> p x = true) ->
            List.filter p l = l) as Hall.
  { intros p l Hp. induction l as [|y l IH]; simpl; [reflexivity|].
    rewrite (Hp y) by (left; reflexivity). f_equal. apply IH.
    intros x Hx. apply Hp. right; exact Hx. }
  rewrite (Hall (fun r => Tx.id r <? transaction_id)).
  2:{ intros x Hx. apply List.filter_In in Hx as [Hx _]. apply Hlow in Hx.
      apply Z.ltb_lt. exact Hx. }
  rewrite (Hall (fun r => transaction_id <? Tx.id r)).
  2:{ intros x Hx. apply List.filter_In in Hx as [Hx _]. apply Hhigh in Hx.
      apply Z.ltb_lt. exact Hx. }
  rewrite refold_filter. reflexivity.
Qed.

Lemma Forall2_In_r {A B} (R : A -> B -> Prop) l l' y :
  Forall2 R l l' -> In y l' -> exists x, In x l /\ R x y.
Proof.
  induction 1 as [|x y' l l' Hxy _ IH]; intros Hy; [destruct Hy|].
  destruct Hy as [->|Hy].
  - exists x. split; [left; reflexivity|exact Hxy].
  - destruct (IH Hy) as (x0 & Hx0 & HR). exists x0. split; [right|]; assumption.
Qed.

(** C8. On a database reached by any sequence of requests: a batch insert
    keeps every stored row as it is, writes rows only in the currencies of
    its candidates, and folds the balances of its new rows of a currency
    from the closing balance of the owner's stream in that same currency;
    a soft delete of a row of currency X leaves every row of another
    currency (or of another owner) untouched, and the stream of X after it
    is a function of the stream of X before it. *)
Theorem currency_isolation (qs : list request) (user_id : Z) :
  let s := run qs init_db in
  (forall now batch,
     exists news,
       transactions (fst (add_multiple_transactions user_id now batch s))
       = transactions s ++ news
       /\ (forall r, In r news ->
             exists d, In d batch /\ Tx.currency r = draft_currency d)
       /\ (forall c,
             balance_fold (closing_balance 0 (stream user_id c s))
                          (List.filter (active_in user_id c) news)))
  /\ (forall transaction_id T,
        In T (transactions s) -> Tx.id T = transaction_id ->
        let s' := fst (delete_transaction_and_recalculate user_id transaction_id s) in
        Forall2 (fun r r' =>
                   Tx.currency r <> Tx.currency T \/ Tx.user_id r <> user_id ->
                   r' = r)
                (transactions s) (transactions s')
        /\ (snd (delete_transaction_and_recalculate user_id transaction_id s) = Ok tt ->
            stream user_id (Tx.currency T) s'
            = reconcile user_id (Tx.currency T) transaction_id
                (stream user_id (Tx.currency T) s))).
Proof.
  intros s.
  pose proof (run_ledger_ok qs init_db init_db_ledger_ok) as Hok. fold s in Hok.
  split.
  - intros now batch.
    pose proof (add_multiple_transactions_ledger_ok user_id now batch s Hok) as Hok'.
    destruct (add_multiple_transactions_rows user_id now batch s)
      as (news & Hrows & _ & _ & Hres).
    exists news. split; [exact Hrows|]. split.
    + intros r Hr.
      destruct (snd (add_multiple_transactions user_id now batch s)) as [[bal ids]|e].
      * destruct Hres as [_ Hfrom].
        destruct (Forall2_In_r _ _ _ _ Hfrom Hr) as (d & Hd & Hdr).
        apply List.filter_In in Hd as [Hd _]. exists d. split; [exact Hd|].
        rewrite Hdr. reflexivity.
      * subst news. destruct Hr.
    + intros c. destruct Hok' as [_ Hb]. specialize (Hb user_id c).
      rewrite Hrows, List.filter_app in Hb.
      apply balance_fold_app in Hb as [_ Hb].
      rewrite stream_well_keyed by apply Hok. exact Hb.
  - intros transaction_id T HT Hid s'. split.
    + apply delete_frame; [apply Hok|exact HT|exact Hid].
    + unfold s', delete_transaction_and_recalculate, transact.
      destruct (delete_body user_id transaction_id s) as [[res s1]|e] eqn:E;
        simpl; [|discriminate].
      intros _. eapply delete_stream; [apply Hok|exact HT|exact Hid|exact E].
Qed.

Lemma currency_isolation_witness :
  Forall2 (fun r r' => Tx.currency r <> "UZS" \/ Tx.user_id r <> 7 -> r' = r)
          (transactions (run two_currencies init_db))
          (transactions (fst (delete_transaction_and_recalculate 7 2
                                (run two_currencies init_db))))
  /\ map (fun r => (Tx.id r, Tx.currency r, Tx.balance r))
         (transactions (fst (delete_transaction_and_recalculate 7 2
                               (run two_currencies init_db))))
     = [ (1, "UZS", 100%float); (2, "UZS", 70%float); (3, "UZS", 150%float);
         (4, "USD", 20%float) ].
Proof.
  split; [|vm_compute; reflexivity].
  apply (proj2 (currency_isolation two_currencies 7) 2 abc_B).
  - vm_compute. right; left; reflexivity.
  - reflexivity.
Defined.

(** ** Amounts are not validated *)

Lemma SFcompare_refl x : x <> S754_nan -> SFcompare x x = Some Eq.
Proof.
  destruct x as [s|s| |s m e]; intros H.
  - reflexivity.
  - destruct s; reflexivity.
  - congruence.
  - pose proof (Pos.compare_refl m) as Hm.
    change (Pos.compare m m) with (PosDef.Pos.compare_cont Eq m m) in Hm.
    simpl. rewrite Z.compare_refl. destruct s; cbv iota; rewrite Hm; reflexivity.
Qed.

Lemma SFeqb_refl x : x <> S754_nan -> SFeqb x x = true.
Proof. intros H. unfold SFeqb. rewrite SFcompare_refl by exact H. reflexivity. Qed.

(** A number that compares below or above another is not a NaN. *)
Lemma ltb_not_nan_l x y : (x <? y)%float = true -> is_nan x = false.
Proof.
  unfold is_nan. rewrite FloatAxioms.ltb_spec, FloatAxioms.eqb_spec. intros H.
  rewrite SFeqb_refl; [reflexivity|]. intros E. rewrite E in H. discriminate.
Qed.

Lemma ltb_not_nan_r x y : (x <? y)%float = true -> is_nan y = false.
Proof.
  unfold is_nan. rewrite FloatAxioms.ltb_spec, FloatAxioms.eqb_spec. intros H.
  rewrite SFeqb_refl; [reflexivity|]. intros E. rewrite E in H.
  unfold SFltb in H. destruct (Prim2SF x) as [[]|[]| |[]]; discriminate.
Qed.

Lemma valid_type_after d :
  valid_type d = true ->
  exists op, draft_effect d = Some op
             /\ forall b, op b (Draft.amount d) = after_draft b d.
Proof.
  unfold valid_type, draft_effect, after_draft.
  destruct (lower (Draft.type d) =? "expense")%string; [eauto|].
  destruct (lower (Draft.type d) =? "income")%string; [eauto|discriminate].
Qed.

(** One turn of the loop on a candidate that is inserted. *)
Lemma add_loop_step user_id now d ds balances ids s b :
  valid_type d = true ->
  balances !! draft_currency d = Some b ->
  is_nan (Draft.amount d) = false ->
  is_nan (after_draft b d) = false ->
  next_rowid s <= largest_rowid ->
  add_loop user_id now (d :: ds) balances ids s =
  add_loop user_id now ds (<[draft_currency d := after_draft b d]> balances)
    (ids ++ [next_rowid s])
    (mkdb (transactions s ++
             [row_of (next_rowid s) user_id (now (length ids)) d (after_draft b d)])
          (next_rowid s)).
Proof.
  intros Hv Hb Ha Hn Hid. rewrite add_loop_cons.
  destruct (valid_type_after d Hv) as (op & -> & Hop).
  rewrite Hb, Hop. unfold insert_transaction. rewrite Ha, Hn.
  apply Z.ltb_ge in Hid. rewrite Hid. reflexivity.
Qed.

Lemma next_rowid_after_insert s r :
  Tx.id r = next_rowid s ->
  next_rowid (mkdb (transactions s ++ [r]) (next_rowid s)) = next_rowid s + 1.
Proof.
  intros Hr. unfold next_rowid at 1. simpl. rewrite max_rowid_app. simpl.
  rewrite Hr. pose proof (next_rowid_gt s) as Hgt.
  pose proof (max_rowid_nonneg (transactions s)) as Hnn.
  clear - Hgt Hnn. lia.
Qed.

Lemma initial_balances_lookup user_id s c :
  c = "UZS" \/ c = "USD" ->
  (<["USD" := get_last_balance user_id "USD" s]>
     (<["UZS" := get_last_balance user_id "UZS" s]> ∅) : gmap string float) !! c
  = Some (get_last_balance user_id c s).
Proof.
  intros [->| ->].
  - rewrite lookup_insert_ne by discriminate. apply lookup_insert_eq.
  - apply lookup_insert_eq.
Qed.

(** C3, as stated, fails: the candidate of amount -5 is inserted like any
    other, with id 2 and the balance 100 - (-5) = 105. *)
Lemma negative_amount_is_committed :
  (Draft.amount food_minus_5 <? 0)%float = true
  /\ (exists balances,
        snd (add_multiple_transactions 7 (clock_at sept_1)
               [salary_100; food_minus_5] init_db) = Ok (balances, [1; 2]))
  /\ map (fun r => (Tx.id r, Tx.amount r, Tx.balance r))
         (transactions (fst (add_multiple_transactions 7 (clock_at sept_1)
                               [salary_100; food_minus_5] init_db)))
     = [(1, 100%float, 100%float); (2, (-5)%float, 105%float)]
  /\ ~ commits_only_first 7 (clock_at sept_1) salary_100 food_minus_5 init_db.
Proof.
  split; [reflexivity|]. split; [|split].
  - eexists. vm_compute. reflexivity.
  - vm_compute. reflexivity.
  - intros [balances H]. vm_compute in H. discriminate H.
Qed.

(** C3, amended. The batch insert checks the type of a candidate and
    nothing else.  A batch of a valid candidate and a candidate of negative
    amount, both of type income or expense and in UZS or USD, commits both
    and returns both ids in order, as long as the balances are storable
    numbers and two ids are left. *)
Theorem negative_amount_is_inserted (s : db) (user_id : Z) (now : nat -> string)
    (good bad : Draft.t) :
  valid_type good = true -> valid_type bad = true ->
  (0 <? Draft.amount good)%float = true ->
  (Draft.amount bad <? 0)%float = true ->
  draft_currency good = "UZS" \/ draft_currency good = "USD" ->
  draft_currency bad = "UZS" \/ draft_currency bad = "USD" ->
  let b1 := after_draft (get_last_balance user_id (draft_currency good) s) good in
  let b2 := after_draft
              (if (draft_currency bad =? draft_currency good)%string then b1
               else get_last_balance user_id (draft_currency bad) s) bad in
  is_nan b1 = false -> is_nan b2 = false ->
  next_rowid s + 1 <= largest_rowid ->
  exists balances,
    add_multiple_transactions user_id now [good; bad] s
    = (mkdb (transactions s ++
               [row_of (next_rowid s) user_id (now 0%nat) good b1;
                row_of (next_rowid s + 1) user_id (now 1%nat) bad b2])
            (next_rowid s + 1),
       Ok (balances, [next_rowid s; next_rowid s + 1])).
Proof.
  intros Hvg Hvb Hpos Hneg Hcg Hcb b1 b2 Hn1 Hn2 Hids.
  assert (next_rowid s <= largest_rowid) as Hid1 by (clear - Hids; lia).
  unfold add_multiple_transactions, transact.
  rewrite (add_loop_step _ _ good _ _ _ _
             (get_last_balance user_id (draft_currency good) s) Hvg
             (initial_balances_lookup user_id s _ Hcg)
             (ltb_not_nan_r _ _ Hpos) Hn1 Hid1).
  fold b1.
  rewrite (add_loop_step _ _ bad _ _ _ _
             (if (draft_currency bad =? draft_currency good)%string then b1
              else get_last_balance user_id (draft_currency bad) s) Hvb).
  - fold b2. rewrite next_rowid_after_insert by reflexivity.
    simpl. unfold ret. rewrite <- app_assoc. simpl. eauto.
  - destruct (draft_currency bad =? draft_currency good)%string eqn:E.
    + apply String.eqb_eq in E. rewrite E. apply lookup_insert_eq.
    + apply String.eqb_neq in E. rewrite lookup_insert_ne by congruence.
      apply initial_balances_lookup, Hcb.
  - exact (ltb_not_nan_l _ _ Hneg).
  - exact Hn2.
  - rewrite next_rowid_after_insert by reflexivity. exact Hids.
Qed.

Lemma negative_amount_is_inserted_witness :
  exists balances,
    add_multiple_transactions 7 (clock_at sept_1)
      [salary_100; food_minus_5] init_db
    = (mkdb [row_of 1 7 sept_1 salary_100 100;
             row_of 2 7 sept_1 food_minus_5 105] 2,
       Ok (balances, [1; 2])).
Proof.
  apply (negative_amount_is_inserted init_db 7 (clock_at sept_1)
           salary_100 food_minus_5).
  - reflexivity.
  - reflexivity.
  - reflexivity.
  - reflexivity.
  - left; reflexivity.
  - left; reflexivity.
  - reflexivity.
  - reflexivity.
  - vm_compute. discriminate.
Defined.

(** ** The debt transition *)

(** The handler refuses, and commits nothing, when the row is missing,
    deleted, owned by someone else, or not open. *)
Lemma debt_paid_refused user_id transaction_id now s :
  (forall r, own_row user_id transaction_id s = Some r ->
             Tx.debt_status r <> "open") ->
  debt_paid user_id transaction_id now s = ([], Ok CouldNotComplete).
Proof.
  intros H. unfold debt_paid.
  destruct (own_row user_id transaction_id s) as [r|]; [|reflexivity].
  specialize (H r eq_refl). apply String.eqb_neq in H. rewrite H. reflexivity.
Qed.

(** Whatever the handler does, it commits only after it found an open row. *)
Lemma debt_paid_commits_only_open user_id transaction_id now s :
  fst (debt_paid user_id transaction_id now s) <> [] ->
  exists r, own_row user_id transaction_id s = Some r
            /\ In r (transactions s)
            /\ Tx.id r = transaction_id /\ Tx.user_id r = user_id
            /\ Tx.is_deleted r = 0 /\ Tx.debt_status r = "open".
Proof.
  unfold debt_paid.
  destruct (own_row user_id transaction_id s) as [r|] eqn:E; [|simpl; congruence].
  destruct (Tx.debt_status r =? "open")%string eqn:Eo; [|simpl; congruence].
  intros _. exists r. split; [reflexivity|].
  unfold own_row in E. apply fetchone_filter_Some in E as [Hin Hp].
  rewrite !andb_true_iff, !Z.eqb_eq in Hp. apply String.eqb_eq in Eo. tauto.
Qed.

(** C4 at a row that is not a debt.  Row 2 of the sample ledger is a Food
    expense of 30; like every row it has the default status open.  The
    handler accepts it: it answers that the debt was marked paid, appends
    an income of 30 in category Debt Repayment and sets the status of row 2
    to paid. *)
Theorem debt_paid_accepts_non_debt :
  (exists r, own_row 7 2 abc_db = Some r /\ Tx.category r = "Food"
             /\ Tx.debt_status r = "open")
  /\ snd (debt_paid 7 2 (clock_at sept_2) abc_db) = Ok (DebtMarkedPaid 2)
  /\ map (fun r => (Tx.id r, Tx.type r, Tx.category r, Tx.amount r, Tx.balance r,
                    Tx.description r, Tx.debt_status r))
         (transactions (after_commits abc_db
            (fst (debt_paid 7 2 (clock_at sept_2) abc_db))))
     = [ (1, "income", "Salary", 100%float, 100%float, "", "open");
         (2, "expense", "Food", 30%float, 70%float, "", "paid");
         (3, "income", "Gift", 50%float, 120%float, "", "open");
         (4, "income", "Debt Repayment", 30%float, 150%float,
          "Repayment from None", "open") ].
Proof.
  split; [|split].
  - eexists. split; [vm_compute; reflexivity|]. split; reflexivity.
  - vm_compute. reflexivity.
  - vm_compute. reflexivity.
Qed.

(** C5, as stated, fails: marking the debt of 10000 as paid first commits
    the repayment while row 1 is still open, and flips the status in a
    second commit. *)
Lemma debt_paid_commits_twice :
  (exists s1 s2,
     fst (debt_paid 7 1 (clock_at sept_26) debt_db) = [s1; s2]
     /\ map (fun r => (Tx.id r, Tx.category r, Tx.amount r, Tx.debt_status r))
            (transactions s1)
        = [ (1, "Debt", 10000%float, "open");
            (2, "Debt Repayment", 10000%float, "open") ]
     /\ map (fun r => (Tx.id r, Tx.category r, Tx.amount r, Tx.debt_status r))
            (transactions s2)
        = [ (1, "Debt", 10000%float, "paid");
            (2, "Debt Repayment", 10000%float, "open") ])
  /\ ~ transition_is_atomic 7 1 (clock_at sept_26) debt_db.
Proof.
  split.
  - eexists. eexists. split; [vm_compute; reflexivity|].
    split; vm_compute; reflexivity.
  - intros H.
    apply (H (fst (add_multiple_transactions 7 (clock_at sept_26)
                     [repayment_of debt_row_1]
                     debt_db))).
    + vm_compute. left. reflexivity.
    + left. split; vm_compute; reflexivity.
Qed.

(** The run of the handler on an open row whose repayment can be stored. *)
Lemma debt_paid_run (s : db) (user_id transaction_id : Z) (now : nat -> string)
    (D : Tx.t) :
  own_row user_id transaction_id s = Some D ->
  Tx.debt_status D = "open" ->
  upper (Tx.currency D) = "UZS" \/ upper (Tx.currency D) = "USD" ->
  is_nan (Tx.amount D) = false ->
  let b := (get_last_balance user_id (upper (Tx.currency D)) s + Tx.amount D)%float in
  is_nan b = false ->
  next_rowid s <= largest_rowid ->
  let R := Tx.mk (next_rowid s) user_id (now 0%nat) "income" "Debt Repayment"
                 (Tx.amount D) b
                 ("Repayment from " ++ format_opt (Tx.debtor_name D))%string
                 (upper (Tx.currency D)) None None 0 "open" 0 in
  debt_paid user_id transaction_id now s
  = ([mkdb (transactions s ++ [R]) (next_rowid s);
      mkdb (update_where_id transaction_id (Tx.set_debt_status "paid")
              (transactions s) ++ [R])
           (next_rowid s)],
     Ok (DebtMarkedPaid transaction_id)).
Proof.
  intros Hrow Hopen Hcur Ha b Hb Hid R.
  unfold debt_paid.
  rewrite Hrow, Hopen. simpl String.eqb. cbv iota.
  unfold add_multiple_transactions, transact.
  rewrite (add_loop_step _ _ (repayment_of D) _ _ _ _
             (get_last_balance user_id (upper (Tx.currency D)) s)
             eq_refl (initial_balances_lookup user_id s _ Hcur) Ha Hb Hid).
  simpl add_loop. unfold ret. cbv iota beta.
  change (row_of (next_rowid s) user_id (now 0%nat) (repayment_of D)
            (after_draft (get_last_balance user_id (upper (Tx.currency D)) s)
               (repayment_of D))) with R.
  f_equal. f_equal. f_equal.
  unfold update_debt_status_paid. simpl. f_equal.
  unfold update_where_id. rewrite List.map_app. simpl. f_equal.
  unfold own_row in Hrow. apply fetchone_filter_Some in Hrow as [Hin Hp].
  rewrite !andb_true_iff, !Z.eqb_eq in Hp. destruct Hp as [[Hp _] _].
  apply max_rowid_ge in Hin. pose proof (next_rowid_gt s) as Hgt.
  assert ((next_rowid s =? transaction_id) = false) as ->
    by (apply Z.eqb_neq; clear - Hin Hgt Hp; lia).
  reflexivity.
Qed.

(** Once the transition went through, the same request is refused and
    commits nothing: the row is no longer open. *)
Lemma debt_paid_again_refused (s : db) (user_id transaction_id : Z)
    (now later : nat -> string) (D : Tx.t) :
  own_row user_id transaction_id s = Some D ->
  Tx.debt_status D = "open" ->
  upper (Tx.currency D) = "UZS" \/ upper (Tx.currency D) = "USD" ->
  is_nan (Tx.amount D) = false ->
  is_nan (get_last_balance user_id (upper (Tx.currency D)) s + Tx.amount D)%float
  = false ->
  next_rowid s <= largest_rowid ->
  debt_paid user_id transaction_id later
    (after_commits s (fst (debt_paid user_id transaction_id now s)))
  = ([], Ok CouldNotComplete).
Proof.
  intros Hrow Hopen Hcur Ha Hb Hid.
  rewrite (debt_paid_run s user_id transaction_id now D Hrow Hopen Hcur Ha Hb Hid).
  cbn [fst after_commits List.last].
  apply debt_paid_refused. intros r Hr.
  unfold own_row in Hr, Hrow.
  apply fetchone_filter_Some in Hr as [Hin Hp].
  apply fetchone_filter_Some in Hrow as [HinD HpD].
  rewrite !andb_true_iff, !Z.eqb_eq in Hp, HpD.
  destruct Hp as [[Hp _] _]. destruct HpD as [[HidD _] _].
  simpl in Hin. apply in_app_or in Hin as [Hin|[<-|[]]].
  - unfold update_where_id in Hin.
    apply List.in_map_iff in Hin as (x & <- & Hx).
    destruct (Tx.id x =? transaction_id) eqn:E.
    + simpl. discriminate.
    + apply Z.eqb_neq in E. contradiction.
  - simpl in Hp. apply max_rowid_ge in HinD.
    pose proof (next_rowid_gt s) as Hgt. clear - Hp Hgt HinD HidD. lia.
Qed.

(** C5, amended. A transition that goes through commits twice: first the
    batch insert commits one new income row, category Debt Repayment, for
    the amount and currency of the debt, while the debt is still open;
    then the status of the debt is set to paid.  Nothing else changes: the
    debt keeps its amount, category and type. *)
Theorem debt_paid_two_commits (s : db) (user_id transaction_id : Z)
    (now : nat -> string) (D : Tx.t) :
  own_row user_id transaction_id s = Some D ->
  Tx.debt_status D = "open" ->
  upper (Tx.currency D) = "UZS" \/ upper (Tx.currency D) = "USD" ->
  is_nan (Tx.amount D) = false ->
  let b := (get_last_balance user_id (upper (Tx.currency D)) s + Tx.amount D)%float in
  is_nan b = false ->
  next_rowid s <= largest_rowid ->
  let R := Tx.mk (next_rowid s) user_id (now 0%nat) "income" "Debt Repayment"
                 (Tx.amount D) b
                 ("Repayment from " ++ format_opt (Tx.debtor_name D))%string
                 (upper (Tx.currency D)) None None 0 "open" 0 in
  let s1 := mkdb (transactions s ++ [R]) (next_rowid s) in
  let s2 := mkdb (update_where_id transaction_id (Tx.set_debt_status "paid")
                    (transactions s) ++ [R])
                 (next_rowid s) in
  debt_paid user_id transaction_id now s = ([s1; s2], Ok (DebtMarkedPaid transaction_id))
  /\ Forall2 (fun r r' =>
                (Tx.id r = transaction_id /\ r' = Tx.set_debt_status "paid" r)
                \/ (Tx.id r <> transaction_id /\ r' = r))
             (transactions s) (update_where_id transaction_id
                                 (Tx.set_debt_status "paid") (transactions s))
  /\ (forall r, Tx.amount (Tx.set_debt_status "paid" r) = Tx.amount r
                /\ Tx.category (Tx.set_debt_status "paid" r) = Tx.category r
                /\ Tx.type (Tx.set_debt_status "paid" r) = Tx.type r
                /\ Tx.debt_status (Tx.set_debt_status "paid" r) = "paid").
Proof.
  intros Hrow Hopen Hcur Ha b Hb Hid R s1 s2. split; [|split].
  - apply (debt_paid_run s user_id transaction_id now D); assumption.
  - unfold update_where_id. induction (transactions s) as [|r l IH]; simpl;
      constructor; [|exact IH].
    destruct (Tx.id r =? transaction_id) eqn:E.
    + left. apply Z.eqb_eq in E. auto.
    + right. apply Z.eqb_neq in E. auto.
  - intros r. simpl. repeat split.
Qed.

Lemma debt_paid_two_commits_witness :
  exists s1 s2,
    debt_paid 7 1 (clock_at sept_26) debt_db
    = ([s1; s2], Ok (DebtMarkedPaid 1))
    /\ status_of 1 s1 = Some "open" /\ status_of 1 s2 = Some "paid"
    /\ length (repayments 7 s1) = 1%nat /\ length (repayments 7 s2) = 1%nat.
Proof.
  destruct (debt_paid_two_commits debt_db 7 1 (clock_at sept_26)
              debt_row_1)
    as (H & _ & _).
  - vm_compute. reflexivity.
  - reflexivity.
  - left; reflexivity.
  - reflexivity.
  - vm_compute. reflexivity.
  - vm_compute. discriminate.
  - eexists. eexists. split; [exact H|].
    repeat split; vm_compute; reflexivity.
Defined.

(** ** A soft delete in the middle of a stream *)

(** The soft delete goes through when the row exists, is the owner's, is
    not deleted, and the balances folded after it are numbers. *)
Lemma delete_body_run user_id transaction_id s l1 T l2 :
  well_keyed s ->
  transactions s = l1 ++ T :: l2 ->
  Tx.id T = transaction_id -> Tx.user_id T = user_id -> Tx.is_deleted T = 0 ->
  let base := closing_balance 0 (List.filter (active_in user_id (Tx.currency T)) l1) in
  Forall (fun r => is_nan (Tx.balance r) = false)
         (refold user_id (Tx.currency T) base
                 (List.filter (active_in user_id (Tx.currency T)) l2)) ->
  delete_body user_id transaction_id s
  = Ok (tt, mkdb (l1 ++ Tx.set_is_deleted 1 T
                     :: refold user_id (Tx.currency T) base l2)
                 (sqlite_sequence s)).
Proof.
  intros Hk Hl Hid Hu Hd base Hn.
  rewrite (delete_body_split _ _ _ _ _ _ Hk Hl Hid Hu Hd). fold base.
  replace (l1 ++ Tx.set_is_deleted 1 T :: l2)
    with ((l1 ++ [Tx.set_is_deleted 1 T]) ++ l2)
    by (rewrite <- app_assoc; reflexivity).
  rewrite recalculate_run.
  - rewrite <- app_assoc. reflexivity.
  - unfold well_keyed in Hk. rewrite Hl in Hk.
    apply (ascending_middle _ T); [reflexivity|exact Hk].
  - rewrite refold_filter. exact Hn.
Qed.

Lemma get_all_transactions_In r user_id s :
  In r (get_all_transactions user_id s) <->
  In r (transactions s) /\ Tx.user_id r = user_id /\ Tx.is_deleted r = 0.
Proof.
  unfold get_all_transactions, order_by_id_desc.
  rewrite <- list_elem_of_In, elem_of_reverse, list_elem_of_In.
  rewrite order_by_id_In, List.filter_In, andb_true_iff, !Z.eqb_eq. reflexivity.
Qed.

(** C2. In a well-keyed table where the non-deleted rows of an owner in a
    currency are A (income 100, balance 100), B (expense 30, balance 70)
    and C (income 50, balance 120), the soft delete of B goes through;
    afterwards the stream is A, unchanged with balance 100, and C with
    balance 150; B is still in the table, marked deleted, and
    [get_all_transactions] does not list it. *)
Theorem delete_mid_stream (s : db) (user_id : Z) (currency : string) (A B C : Tx.t) :
  well_keyed s ->
  stream user_id currency s = [A; B; C] ->
  lower (Tx.type A) = "income" /\ Tx.amount A = 100%float /\ Tx.balance A = 100%float ->
  lower (Tx.type B) = "expense" /\ Tx.amount B = 30%float /\ Tx.balance B = 70%float ->
  lower (Tx.type C) = "income" /\ Tx.amount C = 50%float /\ Tx.balance C = 120%float ->
  let out := delete_transaction_and_recalculate user_id (Tx.id B) s in
  snd out = Ok tt
  /\ stream user_id currency (fst out) = [A; Tx.set_balance 150 C]
  /\ In (Tx.set_is_deleted 1 B) (transactions (fst out))
  /\ In A (get_all_transactions user_id (fst out))
  /\ In (Tx.set_balance 150 C) (get_all_transactions user_id (fst out))
  /\ (forall r, In r (get_all_transactions user_id (fst out)) -> Tx.id r <> Tx.id B).
Proof.
  intros Hk Hst (HtA & HaA & HbA) (HtB & HaB & HbB) (HtC & HaC & HbC) out.
  rewrite (stream_well_keyed _ _ _ Hk) in Hst.
  assert (In B (List.filter (active_in user_id currency) (transactions s))) as HB
    by (rewrite Hst; right; left; reflexivity).
  apply List.filter_In in HB as [HinB HactB].
  apply active_in_inv in HactB as (HuB & HcB & HdB).
  destruct (in_split _ _ HinB) as (l1 & l2 & Hl).
  pose proof Hk as Hk'. unfold well_keyed in Hk'. rewrite Hl in Hk'.
  apply StronglySorted_app in Hk' as (H12 & Hs1 & H2).
  apply StronglySorted_cons in H2 as [H2 Hs2].
  assert (forall x, In x l1 -> Tx.id x < Tx.id B) as Hlow.
  { intros x Hx. apply (H12 x B); [apply list_elem_of_In; exact Hx|left]. }
  assert (forall x, In x l2 -> Tx.id B < Tx.id x) as Hhigh.
  { intros x Hx. rewrite List.Forall_forall in H2. apply (H2 x Hx). }
  (* the rows of the stream before and after B *)
  assert (List.filter (active_in user_id currency) l1 = [A]
          /\ List.filter (active_in user_id currency) l2 = [C]) as [Hf1 Hf2].
  { rewrite Hl, List.filter_app in Hst. simpl in Hst.
    rewrite <- HuB, <- HcB, (active_in_same B HdB) in Hst. rewrite HuB, HcB in Hst.
    assert (forall x, In x (List.filter (active_in user_id currency) l1) ->
                      Tx.id x < Tx.id B) as Hlow'
      by (intros x Hx; apply List.filter_In in Hx as [Hx _]; auto).
    assert (forall x, In x (List.filter (active_in user_id currency) l2) ->
                      Tx.id B < Tx.id x) as Hhigh'
      by (intros x Hx; apply List.filter_In in Hx as [Hx _]; auto).
    destruct (List.filter (active_in user_id currency) l1) as [|x0 [|x1 f1]].
    - simpl in Hst. injection Hst as _ Hst.
      specialize (Hhigh' B). rewrite Hst in Hhigh'.
      specialize (Hhigh' (or_introl eq_refl)). lia.
    - simpl in Hst. injection Hst as -> Hst. auto.
    - simpl in Hst. injection Hst as _ Hx1 _.
      specialize (Hlow' x1 (or_intror (or_introl eq_refl))). subst x1. lia. }
  assert (delete_body user_id (Tx.id B) s
          = Ok (tt, mkdb (l1 ++ Tx.set_is_deleted 1 B
                            :: refold user_id currency 100 l2)
                         (sqlite_sequence s))) as Hrun.
  { rewrite (delete_body_run user_id (Tx.id B) s l1 B l2 Hk Hl eq_refl HuB HdB);
      rewrite HcB, Hf1; unfold closing_balance; simpl; rewrite HbA.
    - reflexivity.
    - rewrite Hf2. simpl.
      assert (active_in user_id currency C = true) as ->.
      { apply (proj2 (proj1 (List.filter_In _ C l2)
                        ltac:(rewrite Hf2; left; reflexivity))). }
      constructor; [|constructor]. simpl. rewrite HtC, HaC. reflexivity. }
  assert (List.filter (active_in user_id currency)
            (refold user_id currency 100 l2) = [Tx.set_balance 150 C]) as Hf2'.
  { rewrite refold_filter, Hf2. simpl.
    assert (active_in user_id currency C = true) as ->.
    { apply (proj2 (proj1 (List.filter_In _ C l2)
                      ltac:(rewrite Hf2; left; reflexivity))). }
    rewrite HtC, HaC. reflexivity. }
  assert (StronglySorted id_lt
            (l1 ++ Tx.set_is_deleted 1 B :: refold user_id currency 100 l2)) as Hk2.
  { apply ascending_ids. unfold well_keyed in Hk. rewrite Hl in Hk.
    apply ascending_ids in Hk. rewrite !List.map_app in *. simpl in *.
    rewrite refold_ids. exact Hk. }
  unfold out, delete_transaction_and_recalculate, transact. rewrite Hrun. simpl.
  split; [reflexivity|]. split; [|split; [|split; [|split]]].
  - unfold stream. simpl. rewrite order_by_id_ascending
      by (apply filter_ascending, Hk2).
    rewrite List.filter_app. simpl.
    replace (active_in user_id currency (Tx.set_is_deleted 1 B)) with false
      by (unfold active_in; simpl; rewrite andb_false_r; reflexivity).
    rewrite Hf1, Hf2'. reflexivity.
  - apply in_or_app. right; left; reflexivity.
  - apply get_all_transactions_In. simpl.
    assert (In A (List.filter (active_in user_id currency) l1)) as HA
      by (rewrite Hf1; left; reflexivity).
    apply List.filter_In in HA as [HA Hact].
    apply active_in_inv in Hact as (Hu & _ & Hd).
    split; [apply in_or_app; left; exact HA|auto].
  - apply get_all_transactions_In. simpl.
    assert (In (Tx.set_balance 150 C)
              (List.filter (active_in user_id currency)
                 (refold user_id currency 100 l2))) as HC
      by (rewrite Hf2'; left; reflexivity).
    apply List.filter_In in HC as [HC Hact].
    apply active_in_inv in Hact as (Hu & _ & Hd).
    split; [apply in_or_app; right; right; exact HC|auto].
  - intros r Hr. apply get_all_transactions_In in Hr as (Hr & _ & Hd).
    simpl in Hr. apply in_app_or in Hr as [Hr|[<-|Hr]].
    + apply Hlow in Hr. lia.
    + simpl in Hd. discriminate.
    + assert (In (Tx.id r) (map Tx.id l2)) as Hr'
        by (rewrite <- (refold_ids user_id currency 100 l2); apply List.in_map, Hr).
      apply List.in_map_iff in Hr' as (x & Hx & Hxl). apply Hhigh in Hxl. lia.
Qed.

Lemma delete_mid_stream_witness :
  snd (delete_transaction_and_recalculate 7 2 abc_db) = Ok tt
  /\ stream 7 "UZS" (fst (delete_transaction_and_recalculate 7 2 abc_db))
     = [abc_A; Tx.set_balance 150 abc_C]
  /\ In (Tx.set_is_deleted 1 abc_B)
        (transactions (fst (delete_transaction_and_recalculate 7 2 abc_db)))
  /\ In abc_A (get_all_transactions 7 (fst (delete_transaction_and_recalculate 7 2 abc_db)))
  /\ In (Tx.set_balance 150 abc_C)
        (get_all_transactions 7 (fst (delete_transaction_and_recalculate 7 2 abc_db)))
  /\ (forall r,
        In r (get_all_transactions 7 (fst (delete_transaction_and_recalculate 7 2 abc_db))) ->
        Tx.id r <> 2).
Proof.
  apply (delete_mid_stream abc_db 7 "UZS" abc_A abc_B abc_C).
  - unfold well_keyed. vm_compute transactions.
    repeat constructor; unfold id_lt; simpl; lia.
  - vm_compute. reflexivity.
  - repeat split.
  - repeat split.
  - repeat split.
Defined.

(** ** Flags that stay *)

Lemma settled_update Q tid i f s :
  (forall r, Tx.id (f r) = Tx.id r) -> (forall r, Q r -> Q (f r)) ->
  settled Q tid s ->
  settled Q tid (mkdb (update_where_id i f (transactions s)) (sqlite_sequence s)).
Proof.
  intros Hid Hf [Hhi Hm]. split.
  - rewrite high_update; [exact Hhi|exact Hid].
  - simpl. unfold update_where_id. intros r' Hr' Hid'.
    apply List.in_map_iff in Hr' as (r & <- & Hr).
    destruct (Tx.id r =? i).
    + apply Hf, Hm; [exact Hr|]. rewrite <- Hid. exact Hid'.
    + apply Hm; assumption.
Qed.

Lemma recalculate_settled Q tid subsequent :
  sticky Q ->
  forall cb s res s',
    settled Q tid s -> recalculate subsequent cb s = Ok (res, s') -> settled Q tid s'.
Proof.
  intros HQ.
  induction subsequent as [|[[i ty] a] rest IH]; intros cb s res s' Hm Hrun.
  - simpl in Hrun. unfold ret in Hrun. injection Hrun as _ <-. exact Hm.
  - simpl in Hrun. unfold bind, update_balance in Hrun.
    match type of Hrun with context [is_nan ?b] => set (b0 := b) in * end.
    destruct (existsb _ _ && is_nan b0); [discriminate|].
    eapply IH; [|exact Hrun]. apply settled_update; [reflexivity| |exact Hm].
    intros r Hr. apply (HQ r Hr).
Qed.

Lemma delete_settled Q tid user_id transaction_id s :
  sticky Q -> settled Q tid s ->
  settled Q tid (fst (delete_transaction_and_recalculate user_id transaction_id s)).
Proof.
  intros HQ Hm. unfold delete_transaction_and_recalculate, transact.
  destruct (delete_body user_id transaction_id s) as [[res s']|e] eqn:E;
    simpl; [|exact Hm].
  unfold delete_body in E. destruct (own_row _ _ _); [|discriminate].
  unfold bind, update_is_deleted in E.
  eapply recalculate_settled; [exact HQ| |exact E].
  apply settled_update; [reflexivity| |exact Hm].
  intros r Hr. apply (HQ r Hr).
Qed.

Lemma add_multiple_transactions_settled Q tid user_id now ds s :
  settled Q tid s -> settled Q tid (fst (add_multiple_transactions user_id now ds s)).
Proof.
  intros [Hhi Hm].
  destruct (add_multiple_transactions_rows user_id now ds s)
    as (news & Hrows & Hinc & _ & _).
  apply increasing_between_bounds in Hinc as [Hle Hnew]. split; [lia|].
  rewrite Hrows. intros r Hr Hid. apply in_app_or in Hr as [Hr|Hr].
  - apply Hm; assumption.
  - rewrite List.Forall_forall in Hnew.
    specialize (Hnew (Tx.id r) (List.in_map Tx.id _ _ Hr)). lia.
Qed.

Lemma run_settled Q tid qs s : sticky Q -> settled Q tid s -> settled Q tid (run qs s).
Proof.
  intros HQ. apply run_preserves.
  - apply add_multiple_transactions_settled.
  - intros u i s0. apply delete_settled, HQ.
  - intros i s0 H. apply settled_update; [reflexivity| |exact H].
    intros r Hr. apply (HQ r Hr).
  - intros i s0 H. apply settled_update; [reflexivity| |exact H].
    intros r Hr. apply (HQ r Hr).
Qed.

Lemma is_paid_sticky : sticky is_paid.
Proof. intros r Hr. unfold is_paid in *. simpl. auto. Qed.

Lemma is_gone_sticky : sticky is_gone.
Proof. intros r Hr. unfold is_gone in *. simpl. auto. Qed.

Lemma own_row_Some user_id transaction_id s r :
  own_row user_id transaction_id s = Some r ->
  In r (transactions s) /\ Tx.id r = transaction_id /\ Tx.user_id r = user_id
  /\ Tx.is_deleted r = 0.
Proof.
  intros H. unfold own_row in H. apply fetchone_filter_Some in H as [Hin Hp].
  rewrite !andb_true_iff, !Z.eqb_eq in Hp. tauto.
Qed.

Lemma settled_own_row Q tid u s r :
  settled Q tid s -> own_row u tid s = Some r -> Q r.
Proof.
  intros [_ Hm] H. apply own_row_Some in H as (Hin & Hid & _). apply Hm; assumption.
Qed.

(** After the status update every row under the id is paid. *)
Lemma update_debt_status_paid_settled tid s :
  (exists r0, In r0 (transactions s) /\ Tx.id r0 = tid) ->
  settled is_paid tid (update_debt_status_paid tid s).
Proof.
  intros (r0 & Hr0 & Hid). split.
  - unfold update_debt_status_paid. rewrite high_update by reflexivity.
    apply max_rowid_ge in Hr0. unfold high. lia.
  - simpl. unfold update_where_id. intros r' Hr' Hid'.
    apply List.in_map_iff in Hr' as (r & <- & Hr).
    destruct (Tx.id r =? tid) eqn:E; [reflexivity|].
    apply Z.eqb_neq in E. contradiction.
Qed.

(** X7. Once the "debt paid" handler has answered that a row was marked
    paid, the row stays paid whatever requests follow: every later "debt
    paid" request for its id, from any user, is refused without a commit,
    and no reminder scan returns the row. *)
Theorem paid_is_final (s : db) (user_id transaction_id : Z) (now : nat -> string)
    (qs : list request) :
  snd (debt_paid user_id transaction_id now s) = Ok (DebtMarkedPaid transaction_id) ->
  let s' := run qs (after_commits s (fst (debt_paid user_id transaction_id now s))) in
  (forall u later, debt_paid u transaction_id later s' = ([], Ok CouldNotComplete))
  /\ (forall today_str r, In r (find_due_unnotified today_str s') ->
                          Tx.id r <> transaction_id).
Proof.
  intros Hok s'.
  assert (settled is_paid transaction_id s') as Hs'.
  { apply run_settled; [apply is_paid_sticky|].
    unfold debt_paid in Hok |- *.
    destruct (own_row user_id transaction_id s) as [D|] eqn:ED; [|discriminate].
    destruct (Tx.debt_status D =? "open")%string; [|discriminate].
    pose proof (add_multiple_transactions_rows user_id now [repayment_of D] s)
      as (news & Hrows & _).
    destruct (add_multiple_transactions user_id now [repayment_of D] s)
      as [s1 [res|e]]; [|discriminate].
    unfold after_commits. simpl. apply update_debt_status_paid_settled.
    apply own_row_Some in ED as (Hin & Hid & _).
    exists D. split; [|exact Hid]. simpl in Hrows. rewrite Hrows.
    apply in_or_app. left. exact Hin. }
  split.
  - intros u later. apply debt_paid_refused. intros r Hr.
    pose proof (settled_own_row _ _ _ _ _ Hs' Hr) as Hp. unfold is_paid in Hp.
    rewrite Hp. discriminate.
  - intros today_str r Hr Hid. destruct Hs' as [_ Hm].
    unfold find_due_unnotified in Hr. apply List.filter_In in Hr as [Hin Hdue].
    specialize (Hm r Hin Hid). unfold is_paid in Hm. unfold is_due_unnotified in Hdue.
    rewrite Hm in Hdue. simpl in Hdue. rewrite andb_false_r in Hdue. discriminate.
Qed.

Lemma paid_is_final_witness :
  (forall u later,
      debt_paid u 1 later
        (run later_requests
           (after_commits debt_db (fst (debt_paid 7 1 (clock_at sept_26) debt_db))))
      = ([], Ok CouldNotComplete))
  /\ (forall today_str r,
        In r (find_due_unnotified today_str
                (run later_requests
                   (after_commits debt_db
                      (fst (debt_paid 7 1 (clock_at sept_26) debt_db))))) ->
        Tx.id r <> 1).
Proof.
  apply (paid_is_final debt_db 7 1 (clock_at sept_26) later_requests).
  vm_compute. reflexivity.
Defined.

(** ** Deleted rows stay deleted *)

Lemma update_is_deleted_settled tid s :
  (exists r0, In r0 (transactions s) /\ Tx.id r0 = tid) ->
  settled is_gone tid
    (mkdb (update_where_id tid (Tx.set_is_deleted 1) (transactions s))
          (sqlite_sequence s)).
Proof.
  intros (r0 & Hr0 & Hid). split.
  - rewrite high_update by reflexivity.
    apply max_rowid_ge in Hr0. unfold high. lia.
  - simpl. unfold update_where_id. intros r' Hr' Hid'.
    apply List.in_map_iff in Hr' as (r & <- & Hr).
    destruct (Tx.id r =? tid) eqn:E; [reflexivity|].
    apply Z.eqb_neq in E. contradiction.
Qed.

Lemma delete_gone user_id transaction_id s :
  snd (delete_transaction_and_recalculate user_id transaction_id s) = Ok tt ->
  settled is_gone transaction_id
    (fst (delete_transaction_and_recalculate user_id transaction_id s)).
Proof.
  unfold delete_transaction_and_recalculate, transact.
  destruct (delete_body user_id transaction_id s) as [[res s']|e] eqn:E;
    simpl; [|discriminate]. intros _.
  unfold delete_body in E.
  destruct (own_row user_id transaction_id s) as [T|] eqn:ET; [|discriminate].
  unfold bind, update_is_deleted in E.
  eapply recalculate_settled; [apply is_gone_sticky| |exact E].
  apply update_is_deleted_settled.
  apply own_row_Some in ET as (Hin & Hid & _). eauto.
Qed.

Lemma own_row_gone u tid s : settled is_gone tid s -> own_row u tid s = None.
Proof.
  intros Hs. destruct (own_row u tid s) as [r|] eqn:E; [|reflexivity].
  pose proof (settled_own_row _ _ _ _ _ Hs E) as Hg.
  apply own_row_Some in E as (_ & _ & _ & Hd). unfold is_gone in Hg. lia.
Qed.

(** X5. Once a soft delete went through, the row stays deleted whatever
    requests follow: a second delete of its id raises [ValueError] and
    changes nothing, a "debt paid" request for it is refused, and the row
    is in no history, no balance stream and no reminder scan. *)
Theorem undo_is_final (s : db) (user_id transaction_id : Z) (qs : list request) :
  snd (delete_transaction_and_recalculate user_id transaction_id s) = Ok tt ->
  let s' := run qs (fst (delete_transaction_and_recalculate user_id transaction_id s)) in
  (forall u, delete_transaction_and_recalculate u transaction_id s'
             = (s', Raise (ValueError "Transaction not found.")))
  /\ (forall u later, debt_paid u transaction_id later s' = ([], Ok CouldNotComplete))
  /\ (forall u r, In r (get_all_transactions u s') -> Tx.id r <> transaction_id)
  /\ (forall u c r, In r (stream u c s') -> Tx.id r <> transaction_id)
  /\ (forall today_str r, In r (find_due_unnotified today_str s') ->
                          Tx.id r <> transaction_id).
Proof.
  intros Hok s'.
  assert (settled is_gone transaction_id s') as Hs'.
  { apply run_settled; [apply is_gone_sticky|]. apply delete_gone, Hok. }
  split; [|split; [|split; [|split]]].
  - intros u. unfold delete_transaction_and_recalculate, transact, delete_body.
    rewrite (own_row_gone u _ _ Hs'). reflexivity.
  - intros u later. unfold debt_paid. rewrite (own_row_gone u _ _ Hs'). reflexivity.
  - intros u r Hr Hid. apply get_all_transactions_In in Hr as (Hin & _ & Hd).
    destruct Hs' as [_ Hm]. specialize (Hm r Hin Hid). unfold is_gone in Hm. lia.
  - intros u c r Hr Hid. unfold stream in Hr. apply (proj1 (order_by_id_In _ _)) in Hr.
    apply List.filter_In in Hr as [Hin Ha]. apply active_in_inv in Ha as (_ & _ & Hd).
    destruct Hs' as [_ Hm]. specialize (Hm r Hin Hid). unfold is_gone in Hm. lia.
  - intros today_str r Hr Hid. destruct Hs' as [_ Hm].
    unfold find_due_unnotified in Hr. apply List.filter_In in Hr as [Hin Hdue].
    specialize (Hm r Hin Hid). unfold is_gone in Hm. unfold is_due_unnotified in Hdue.
    rewrite Hm in Hdue. simpl in Hdue. rewrite andb_false_r in Hdue. discriminate.
Qed.

Lemma undo_is_final_witness :
  let s' := run later_requests (fst (delete_transaction_and_recalculate 7 2 abc_db)) in
  (forall u, delete_transaction_and_recalculate u 2 s'
             = (s', Raise (ValueError "Transaction not found.")))
  /\ (forall u later, debt_paid u 2 later s' = ([], Ok CouldNotComplete))
  /\ (forall u r, In r (get_all_transactions u s') -> Tx.id r <> 2)
  /\ (forall u c r, In r (stream u c s') -> Tx.id r <> 2)
  /\ (forall today_str r, In r (find_due_unnotified today_str s') -> Tx.id r <> 2).
Proof.
  apply (undo_is_final abc_db 7 2 later_requests). vm_compute. reflexivity.
Defined.

(** ** Logging, then undoing *)

Lemma well_keyed_app s news i :
  well_keyed s ->
  increasing_between (high s) (map Tx.id news) i ->
  StronglySorted id_lt (transactions s ++ news).
Proof.
  intros Hk Hinc. apply StronglySorted_app_2.
  - intros x1 x2 H1 H2. apply list_elem_of_In in H1. apply list_elem_of_In in H2.
    apply increasing_between_bounds in Hinc as [_ Hb].
    rewrite List.Forall_forall in Hb.
    specialize (Hb (Tx.id x2) (List.in_map Tx.id _ _ H2)).
    apply max_rowid_ge in H1. unfold id_lt, high in *. lia.
  - exact Hk.
  - apply ascending_ids. eapply increasing_between_sorted, Hinc.
Qed.

Lemma add_multiple_transactions_well_keyed user_id now ds s :
  well_keyed s -> well_keyed (fst (add_multiple_transactions user_id now ds s)).
Proof.
  intros Hk.
  destruct (add_multiple_transactions_rows user_id now ds s)
    as (news & Hrows & Hinc & _ & _).
  unfold well_keyed. rewrite Hrows. eapply well_keyed_app; eassumption.
Qed.

Lemma filter_active_gone u c r l :
  List.filter (active_in u c) (l ++ [Tx.set_is_deleted 1 r])
  = List.filter (active_in u c) l.
Proof.
  rewrite List.filter_app. simpl. unfold active_in at 2. simpl.
  rewrite andb_false_r. apply app_nil_r.
Qed.

(** X4. When a batch insert on a well-keyed table returned exactly one
    id, the soft delete of that id by the same user goes through, and
    afterwards every owner's stream in every currency, every balance
    [get_last_balance] reports and every history are what they were before
    the insert. *)
Theorem undo_restores_balances (s s1 : db) (user_id : Z) (now : nat -> string)
    (ds : list Draft.t) (balances : gmap string float) (i : Z) :
  well_keyed s ->
  add_multiple_transactions user_id now ds s = (s1, Ok (balances, [i])) ->
  exists s2,
    delete_transaction_and_recalculate user_id i s1 = (s2, Ok tt)
    /\ (forall u c, stream u c s2 = stream u c s)
    /\ (forall u c, get_last_balance u c s2 = get_last_balance u c s)
    /\ (forall u, get_all_transactions u s2 = get_all_transactions u s).
Proof.
  intros Hk Hadd.
  destruct (add_multiple_transactions_rows user_id now ds s)
    as (news & Hrows & Hinc & Hfresh & Hres).
  rewrite Hadd in Hrows, Hinc, Hres. simpl in Hrows, Hinc, Hres.
  destruct Hres as [Hids _].
  destruct news as [|R [|R' news]]; try discriminate.
  injection Hids as Hi. apply List.Forall_inv in Hfresh as (Hu & Hd & _).
  assert (well_keyed s1) as Hk1.
  { unfold well_keyed. rewrite Hrows. eapply well_keyed_app; eassumption. }
  pose proof (delete_body_run user_id i s1 (transactions s) R [] Hk1 Hrows
                (eq_sym Hi) Hu Hd) as Hrun.
  simpl in Hrun. specialize (Hrun (Forall_nil_2 _)).
  exists (mkdb (transactions s ++ [Tx.set_is_deleted 1 R]) (sqlite_sequence s1)).
  split; [|split; [|split]].
  - unfold delete_transaction_and_recalculate, transact. rewrite Hrun. reflexivity.
  - intros u c. unfold stream. simpl. rewrite filter_active_gone. reflexivity.
  - intros u c. unfold get_last_balance. simpl. rewrite filter_active_gone.
    reflexivity.
  - intros u. unfold get_all_transactions. simpl. rewrite List.filter_app. simpl.
    rewrite andb_false_r, app_nil_r. reflexivity.
Qed.

Lemma abc_db_well_keyed : well_keyed abc_db.
Proof.
  unfold well_keyed. vm_compute transactions.
  repeat constructor; unfold id_lt; simpl; lia.
Qed.

Lemma undo_restores_balances_witness :
  exists s2,
    delete_transaction_and_recalculate 7 4
      (fst (add_multiple_transactions 7 (clock_at sept_2)
              [draft "expense" 45 "Food" "UZS"; draft "transfer" 9 "Other" "UZS"]
              abc_db))
    = (s2, Ok tt)
    /\ (forall u c, stream u c s2 = stream u c abc_db)
    /\ (forall u c, get_last_balance u c s2 = get_last_balance u c abc_db)
    /\ (forall u, get_all_transactions u s2 = get_all_transactions u abc_db).
Proof.
  eapply (undo_restores_balances abc_db _ 7 (clock_at sept_2)
           [draft "expense" 45 "Food" "UZS"; draft "transfer" 9 "Other" "UZS"] _ 4).
  - apply abc_db_well_keyed.
  - vm_compute. reflexivity.
Defined.

(** ** What the soft delete writes *)

Lemma same_entry_refl r : same_entry r r.
Proof. destruct r; reflexivity. Qed.

Lemma refold_entries user_id currency l :
  forall cb,
    Forall2 (fun r r' => same_entry r r' /\ Tx.is_deleted r' = Tx.is_deleted r
                         /\ (Tx.balance r' <> Tx.balance r ->
                             active_in user_id currency r = true))
            l (refold user_id currency cb l).
Proof.
  induction l as [|r l IH]; intros cb; simpl; [constructor|].
  destruct (active_in user_id currency r) eqn:E.
  - constructor; [|apply IH]. split; [destruct r; reflexivity|]. split; auto.
  - constructor; [|apply IH]. split; [apply same_entry_refl|]. split; [reflexivity|].
    intros H. contradiction H. reflexivity.
Qed.

Lemma sorted_after l1 T l2 r :
  StronglySorted id_lt (l1 ++ T :: l2) -> In r l2 -> Tx.id T < Tx.id r.
Proof.
  intros Hs Hr. apply StronglySorted_app in Hs as (_ & _ & H2).
  apply StronglySorted_cons in H2 as [H2 _].
  rewrite List.Forall_forall in H2. apply H2, Hr.
Qed.

Lemma Forall2_In_l {A B} (R : A -> B -> Prop) (Q : A -> Prop) l l' :
  Forall2 R l l' -> (forall x, In x l -> Q x) ->
  Forall2 (fun x y => R x y /\ Q x) l l'.
Proof.
  induction 1 as [|x y l l' Hxy Hl IH]; intros HQ; constructor.
  - split; [exact Hxy|]. apply HQ. left. reflexivity.
  - apply IH. intros z Hz. apply HQ. right. exact Hz.
Qed.

(** X6. The soft delete removes no row and rewrites no entry.  On a
    well-keyed table it leaves [sqlite_sequence] and every column other
    than [is_deleted] and [balance] as they were; the deleted flag changes
    on the row of the given id only, where it becomes 1; and a balance
    changes only on non-deleted rows of the same owner, in the currency of
    the deleted row, with a greater id. *)
Theorem delete_keeps_entries (s : db) (user_id transaction_id : Z) :
  well_keyed s ->
  let s' := fst (delete_transaction_and_recalculate user_id transaction_id s) in
  sqlite_sequence s' = sqlite_sequence s
  /\ Forall2 (fun r r' =>
                same_entry r r'
                /\ (Tx.is_deleted r' <> Tx.is_deleted r ->
                    Tx.id r = transaction_id /\ Tx.is_deleted r' = 1)
                /\ (Tx.balance r' <> Tx.balance r ->
                    transaction_id < Tx.id r /\ Tx.user_id r = user_id
                    /\ Tx.is_deleted r = 0
                    /\ exists T, own_row user_id transaction_id s = Some T
                                 /\ Tx.currency r = Tx.currency T))
             (transactions s) (transactions s').
Proof.
  intros Hk s'. subst s'. unfold delete_transaction_and_recalculate, transact.
  destruct (delete_body user_id transaction_id s) as [[res s']|e] eqn:E; simpl.
  - pose proof E as E'.
    apply delete_body_inv in E as (l1 & T & l2 & Hs & Hid & Hu & Hd & ->);
      [|exact Hk].
    simpl. split; [reflexivity|]. rewrite Hs.
    assert (own_row user_id transaction_id s = Some T) as Hown.
    { unfold delete_body in E'.
      destruct (own_row user_id transaction_id s) as [T'|] eqn:ET; [|discriminate].
      f_equal. apply own_row_Some in ET as (Hin & Hid' & _).
      apply (well_keyed_unique (transactions s)); [exact Hk|exact Hin| |congruence].
      rewrite Hs. apply in_or_app. right. left. reflexivity. }
    apply Forall2_app; [|constructor].
    + apply Forall2_same. intros r. split; [apply same_entry_refl|].
      split; intros H; contradiction H; reflexivity.
    + split; [destruct T; reflexivity|]. split; [intros _; split; [exact Hid|reflexivity]|].
      intros H. contradiction H. reflexivity.
    + unfold well_keyed in Hk. rewrite Hs in Hk.
      pose proof (refold_entries user_id (Tx.currency T) l2
                    (closing_balance 0
                       (List.filter (active_in user_id (Tx.currency T)) l1))) as HF.
      apply (Forall2_In_l _ (fun r => Tx.id T < Tx.id r)) in HF;
        [|intros x Hx; eapply sorted_after; eassumption].
      eapply Forall2_impl; [exact HF|]. simpl.
      intros r r' [(Hse & Hdel & Hbal) Hlt]. split; [exact Hse|]. split.
      * intros H. contradiction.
      * intros H. apply Hbal in H. apply active_in_inv in H as (H1 & H2 & H3).
        split; [lia|]. split; [exact H1|]. split; [exact H3|]. eauto.
  - split; [reflexivity|]. apply Forall2_same. intros r.
    split; [apply same_entry_refl|]. split; intros H; contradiction H; reflexivity.
Qed.

Lemma delete_keeps_entries_witness :
  map (fun r => (Tx.id r, Tx.type r, Tx.amount r, Tx.is_deleted r, Tx.balance r))
      (transactions (fst (delete_transaction_and_recalculate 7 2 abc_db)))
  = [ (1, "income", 100%float, 0, 100%float);
      (2, "expense", 30%float, 1, 70%float);
      (3, "income", 50%float, 0, 150%float) ]
  /\ (sqlite_sequence (fst (delete_transaction_and_recalculate 7 2 abc_db))
      = sqlite_sequence abc_db
      /\ Forall2 (fun r r' =>
                    same_entry r r'
                    /\ (Tx.is_deleted r' <> Tx.is_deleted r ->
                        Tx.id r = 2 /\ Tx.is_deleted r' = 1)
                    /\ (Tx.balance r' <> Tx.balance r ->
                        2 < Tx.id r /\ Tx.user_id r = 7
                        /\ Tx.is_deleted r = 0
                        /\ exists T, own_row 7 2 abc_db = Some T
                                     /\ Tx.currency r = Tx.currency T))
                 (transactions abc_db)
                 (transactions (fst (delete_transaction_and_recalculate 7 2 abc_db)))).
Proof.
  split; [vm_compute; reflexivity|].
  apply (delete_keeps_entries abc_db 7 2). apply abc_db_well_keyed.
Defined.

(** ** The balances the batch insert reports *)

Lemma two_keys_insert (balances : gmap string float) c b :
  is_Some (balances !! c) -> two_keys balances -> two_keys (<[c := b]> balances).
Proof.
  intros Hc Hk c' Hc'. apply Hk.
  destruct (decide (c = c')) as [<-|Hne]; [exact Hc|].
  rewrite lookup_insert_ne in Hc' by exact Hne. exact Hc'.
Qed.

Lemma well_keyed_snoc s r i :
  well_keyed s -> max_rowid (transactions s) < Tx.id r ->
  well_keyed (mkdb (transactions s ++ [r]) i).
Proof.
  intros Hk Hid. unfold well_keyed; simpl. apply StronglySorted_app_2.
  - intros x1 x2 H1 H2. apply list_elem_of_In in H1.
    apply list_elem_of_In in H2. destruct H2 as [<-|[]].
    apply max_rowid_ge in H1. unfold id_lt. lia.
  - exact Hk.
  - repeat constructor.
Qed.

Lemma add_loop_tracks user_id now ds :
  forall balances ids s res s',
    well_keyed s -> tracks user_id balances s ->
    add_loop user_id now ds balances ids s = Ok (res, s') ->
    well_keyed s' /\ tracks user_id (fst res) s'
    /\ (forall c, is_Some (fst res !! c) <-> is_Some (balances !! c)).
Proof.
  induction ds as [|d ds IH]; intros balances ids s res s' Hk Htr Hrun.
  - simpl in Hrun. unfold ret in Hrun. injection Hrun as <- <-. simpl. tauto.
  - rewrite add_loop_cons in Hrun.
    destruct (draft_effect d) as [op|] eqn:Eop; [|eapply IH; eassumption].
    destruct (balances !! draft_currency d) as [b|] eqn:Eb; [|discriminate].
    destruct (insert_transaction _ _ _ _ _ _ _ _ _ _ s) as [[i s1]|e] eqn:Ei;
      [|discriminate].
    apply insert_transaction_inv in Ei as (Hi & _ & _ & _ & ->).
    apply IH in Hrun as (Hk' & Htr' & Hdom).
    + split; [exact Hk'|]. split; [exact Htr'|]. intros c. rewrite Hdom.
      destruct (decide (draft_currency d = c)) as [<-|Hne].
      * rewrite lookup_insert_eq, Eb. split; eauto.
      * rewrite lookup_insert_ne by exact Hne. reflexivity.
    + apply well_keyed_snoc; [exact Hk|]. simpl. rewrite Hi. apply next_rowid_gt.
    + intros c b0 Hc. simpl. rewrite List.filter_app. simpl.
      destruct (decide (draft_currency d = c)) as [<-|Hne].
      * rewrite lookup_insert_eq in Hc. injection Hc as <-.
        unfold active_in at 2; simpl.
        rewrite Z.eqb_refl, String.eqb_refl. simpl.
        rewrite closing_balance_snoc. reflexivity.
      * rewrite lookup_insert_ne in Hc by exact Hne.
        unfold active_in at 2; simpl.
        apply String.eqb_neq in Hne. rewrite Hne, andb_false_r. simpl.
        rewrite app_nil_r. apply Htr, Hc.
Qed.

Lemma get_last_balance_well_keyed user_id c s :
  well_keyed s ->
  get_last_balance user_id c s
  = closing_balance 0 (List.filter (active_in user_id (upper c)) (transactions s)).
Proof.
  intros Hk. rewrite get_last_balance_closing.
  rewrite order_by_id_ascending by (apply filter_ascending, Hk). reflexivity.
Qed.

Lemma add_loop_no_ids user_id now ds :
  forall balances ids s res s',
    add_loop user_id now ds balances ids s = Ok (res, s') ->
    snd res = ids -> s' = s.
Proof.
  induction ds as [|d ds IH]; intros balances ids s res s' Hrun Hids.
  - simpl in Hrun. unfold ret in Hrun. injection Hrun as _ <-. reflexivity.
  - rewrite add_loop_cons in Hrun.
    destruct (draft_effect d) as [op|]; [|eapply IH; eassumption].
    destruct (balances !! draft_currency d) as [b|]; [|discriminate].
    destruct (insert_transaction _ _ _ _ _ _ _ _ _ _ s) as [[i s1]|e];
      [|discriminate].
    apply add_loop_rows in Hrun as (news & _ & Hres & _).
    rewrite Hids in Hres. apply (f_equal (@length Z)) in Hres.
    rewrite !length_app in Hres. simpl in Hres. lia.
Qed.

(** X1. When [add_multiple_transactions] returns on a well-keyed table,
    the dictionary it hands back has the two keys UZS and USD and no
    other, and holds under each the balance that [get_last_balance] reads
    from the committed database. *)
Theorem reported_balances_are_stored (s s' : db) (user_id : Z) (now : nat -> string)
    (ds : list Draft.t) (balances : gmap string float) (ids : list Z) :
  well_keyed s ->
  add_multiple_transactions user_id now ds s = (s', Ok (balances, ids)) ->
  balances !! "UZS" = Some (get_last_balance user_id "UZS" s')
  /\ balances !! "USD" = Some (get_last_balance user_id "USD" s')
  /\ (forall c, c <> "UZS" -> c <> "USD" -> balances !! c = None).
Proof.
  intros Hk Hadd. unfold add_multiple_transactions, transact in Hadd.
  destruct (add_loop _ _ _ _ _ s) as [[res s1]|e] eqn:E; [|discriminate].
  injection Hadd as -> ->.
  apply add_loop_tracks in E as (Hk' & Htr & Hdom);
    [|exact Hk|apply initial_balances_track, Hk]. simpl in Htr, Hdom.
  assert (forall c, c = "UZS" \/ c = "USD" ->
                    balances !! c = Some (get_last_balance user_id c s')) as Hget.
  { intros c Hc. destruct (proj2 (Hdom c)) as [b Hb].
    - rewrite initial_balances_lookup by exact Hc. eauto.
    - rewrite Hb. f_equal. rewrite (Htr c b Hb).
      rewrite get_last_balance_well_keyed by exact Hk'.
      destruct Hc as [-> | ->]; reflexivity. }
  split; [apply Hget; auto|]. split; [apply Hget; auto|].
  intros c H1 H2. destruct (balances !! c) as [b|] eqn:Eb; [|reflexivity].
  destruct (proj1 (Hdom c)) as [b0 Hb0]; [eauto|].
  rewrite lookup_insert_ne in Hb0 by congruence.
  rewrite lookup_insert_ne in Hb0 by congruence.
  rewrite lookup_empty in Hb0. discriminate.
Qed.

Lemma reported_balances_are_stored_witness :
  let out := add_multiple_transactions 7 (clock_at sept_2)
               [draft "expense" 45 "Food" "UZS"; draft "income" 20 "Gift" "usd"]
               abc_db in
  let balances := match snd out with Ok (b, _) => b | Raise _ => ∅ end in
  snd out = Ok (balances, [4; 5])
  /\ get_last_balance 7 "UZS" (fst out) = 75%float
  /\ get_last_balance 7 "USD" (fst out) = 20%float
  /\ (balances !! "UZS" = Some (get_last_balance 7 "UZS" (fst out))
      /\ balances !! "USD" = Some (get_last_balance 7 "USD" (fst out))
      /\ (forall c, c <> "UZS" -> c <> "USD" -> balances !! c = None)).
Proof.
  split; [vm_compute; reflexivity|].
  split; [vm_compute; reflexivity|]. split; [vm_compute; reflexivity|].
  apply (reported_balances_are_stored abc_db _ 7 (clock_at sept_2)
            [draft "expense" 45 "Food" "UZS"; draft "income" 20 "Gift" "usd"]
            _ [4; 5]).
  - apply abc_db_well_keyed.
  - vm_compute. reflexivity.
Defined.

(** ** One row for each candidate of a valid type *)

(** X2. When [add_multiple_transactions] returns, it has appended one
    row for each candidate whose lower-cased type is expense or income, in
    the order of the batch and with the fields of the candidate (type as
    given, currency upper-cased, UZS when absent), owned by the caller,
    not deleted, not notified and open; the ids returned are the ids of
    these rows.  Candidates of any other type are skipped, and a batch
    without a valid candidate leaves the database as it was. *)
Theorem one_row_per_valid_candidate (s s' : db) (user_id : Z) (now : nat -> string)
    (ds : list Draft.t) (balances : gmap string float) (ids : list Z) :
  add_multiple_transactions user_id now ds s = (s', Ok (balances, ids)) ->
  exists news,
    transactions s' = transactions s ++ news
    /\ ids = map Tx.id news
    /\ Forall2 (from_draft user_id) (List.filter valid_type ds) news
    /\ Forall (fresh_row user_id) news
    /\ (List.filter valid_type ds = [] -> s' = s).
Proof.
  intros Hadd. unfold add_multiple_transactions, transact in Hadd.
  destruct (add_loop _ _ _ _ _ s) as [[res s1]|e] eqn:E; [|discriminate].
  injection Hadd as -> ->. pose proof E as E2.
  apply add_loop_rows in E as (news & Hrows & Hres & _ & Hfresh & Hfrom).
  exists news. simpl in Hres. repeat (split; [assumption|]).
  intros Hnone. rewrite Hnone in Hfrom. apply Forall2_nil_inv_l in Hfrom. subst news.
  eapply add_loop_no_ids; [exact E2|exact Hres].
Qed.

Lemma one_row_per_valid_candidate_witness :
  let ds := [draft "Expense" 45 "Food" "uzs"; draft "transfer" 9 "Other" "UZS";
             draft "INCOME" 20 "Gift" "USD"] in
  let out := add_multiple_transactions 7 (clock_at sept_2) ds abc_db in
  map (fun r => (Tx.id r, Tx.type r, Tx.currency r, Tx.amount r, Tx.balance r))
      (transactions (fst out))
  = [ (1, "income", "UZS", 100%float, 100%float);
      (2, "expense", "UZS", 30%float, 70%float);
      (3, "income", "UZS", 50%float, 120%float);
      (4, "Expense", "UZS", 45%float, 75%float);
      (5, "INCOME", "USD", 20%float, 20%float) ]
  /\ exists news,
       transactions (fst out) = transactions abc_db ++ news
       /\ [4; 5] = map Tx.id news
       /\ Forall2 (from_draft 7) (List.filter valid_type ds) news
       /\ Forall (fresh_row 7) news
       /\ (List.filter valid_type ds = [] -> fst out = abc_db).
Proof.
  split; [vm_compute; reflexivity|].
  apply (one_row_per_valid_candidate abc_db _ 7 (clock_at sept_2) _
           match snd (add_multiple_transactions 7 (clock_at sept_2)
                        [draft "Expense" 45 "Food" "uzs";
                         draft "transfer" 9 "Other" "UZS";
                         draft "INCOME" 20 "Gift" "USD"] abc_db) with
           | Ok (b, _) => b
           | Raise _ => ∅
           end).
  vm_compute. reflexivity.
Defined.

(** ** What the table can hold *)

Lemma row_sound_update i f l :
  (forall r, row_sound r -> row_sound (f r)) ->
  Forall row_sound l -> Forall row_sound (update_where_id i f l).
Proof.
  intros Hf Hl. unfold update_where_id. apply Forall_map.
  eapply Forall_impl; [exact Hl|]. simpl. intros r Hr.
  destruct (Tx.id r =? i); [apply Hf, Hr|exact Hr].
Qed.

Lemma next_rowid_pos s : 1 <= next_rowid s.
Proof.
  unfold next_rowid. pose proof (max_rowid_nonneg (transactions s)). lia.
Qed.

Lemma add_loop_sound user_id now ds :
  forall balances ids s res s',
    two_keys balances ->
    add_loop user_id now ds balances ids s = Ok (res, s') ->
    exists news, transactions s' = transactions s ++ news /\ Forall row_sound news.
Proof.
  induction ds as [|d ds IH]; intros balances ids s res s' Hkeys Hrun.
  - simpl in Hrun. unfold ret in Hrun. injection Hrun as _ <-.
    exists []. rewrite app_nil_r. split; [reflexivity|constructor].
  - rewrite add_loop_cons in Hrun.
    destruct (draft_effect d) as [op|] eqn:Eop; [|eapply IH; eassumption].
    destruct (balances !! draft_currency d) as [b|] eqn:Eb; [|discriminate].
    destruct (insert_transaction _ _ _ _ _ _ _ _ _ _ s) as [[i s1]|e] eqn:Ei;
      [|discriminate].
    apply insert_transaction_inv in Ei as (Hi & Hmax & Ha & Hb & ->).
    apply IH in Hrun as (news & Hrows & Hnews);
      [|apply two_keys_insert; [rewrite Eb; eauto|exact Hkeys]].
    simpl in Hrows. rewrite <- app_assoc in Hrows. simpl in Hrows.
    eexists. split; [exact Hrows|]. constructor; [|exact Hnews].
    unfold row_sound. simpl.
    split; [pose proof (next_rowid_pos s); lia|].
    split.
    { pose proof (draft_effect_valid d) as Hv. rewrite Eop in Hv.
      unfold valid_type in Hv. apply orb_true_iff in Hv.
      rewrite !String.eqb_eq in Hv. exact Hv. }
    split; [apply Hkeys; rewrite Eb; eauto|].
    repeat (split; [assumption|]). auto.
Qed.

Lemma initial_two_keys user_id s :
  two_keys (<["USD" := get_last_balance user_id "USD" s]>
              (<["UZS" := get_last_balance user_id "UZS" s]> ∅)).
Proof.
  intros c [b Hb].
  destruct (decide ("USD" = c)) as [<-|H1]; [auto|].
  rewrite lookup_insert_ne in Hb by exact H1.
  destruct (decide ("UZS" = c)) as [<-|H2]; [auto|].
  rewrite lookup_insert_ne in Hb by exact H2. rewrite lookup_empty in Hb.
  discriminate.
Qed.

Lemma add_multiple_transactions_sound user_id now ds s :
  Forall row_sound (transactions s) ->
  Forall row_sound (transactions (fst (add_multiple_transactions user_id now ds s))).
Proof.
  intros Hs. unfold add_multiple_transactions, transact.
  destruct (add_loop _ _ _ _ _ s) as [[res s']|e] eqn:E; simpl; [|exact Hs].
  apply add_loop_sound in E as (news & -> & Hnews); [|apply initial_two_keys].
  apply Forall_app. split; assumption.
Qed.

Lemma set_balance_sound b r :
  is_nan b = false -> row_sound r -> row_sound (Tx.set_balance b r).
Proof. unfold row_sound. simpl. tauto. Qed.

Lemma recalculate_sound subsequent :
  forall cb s res s',
    Forall row_sound (transactions s) ->
    recalculate subsequent cb s = Ok (res, s') ->
    Forall row_sound (transactions s').
Proof.
  induction subsequent as [|[[i ty] a] rest IH]; intros cb s res s' Hs Hrun.
  - simpl in Hrun. unfold ret in Hrun. injection Hrun as _ <-. exact Hs.
  - simpl in Hrun. unfold bind, update_balance in Hrun.
    match type of Hrun with context [is_nan ?b] => set (b0 := b) in * end.
    destruct (existsb _ _) eqn:Eex; simpl in Hrun.
    + destruct (is_nan b0) eqn:Enan; [discriminate|].
      eapply IH; [|exact Hrun]. simpl.
      apply row_sound_update; [|exact Hs]. intros r. apply set_balance_sound, Enan.
    + eapply IH; [|exact Hrun]. simpl.
      rewrite update_where_id_other; [exact Hs|].
      intros r Hr Hid. apply Z.eqb_eq in Hid.
      assert (existsb (fun r => Tx.id r =? i) (transactions s) = true) as Hex.
      { apply existsb_exists. eauto. }
      congruence.
Qed.

Lemma delete_sound user_id transaction_id s :
  Forall row_sound (transactions s) ->
  Forall row_sound
    (transactions (fst (delete_transaction_and_recalculate user_id transaction_id s))).
Proof.
  intros Hs. unfold delete_transaction_and_recalculate, transact.
  destruct (delete_body user_id transaction_id s) as [[res s']|e] eqn:E;
    simpl; [|exact Hs].
  unfold delete_body in E. destruct (own_row _ _ _); [|discriminate].
  unfold bind, update_is_deleted in E.
  eapply recalculate_sound; [|exact E]. simpl.
  apply row_sound_update; [|exact Hs]. unfold row_sound. simpl. tauto.
Qed.

Lemma run_sound qs s :
  Forall row_sound (transactions s) -> Forall row_sound (transactions (run qs s)).
Proof.
  apply (run_preserves (fun s => Forall row_sound (transactions s))).
  - apply add_multiple_transactions_sound.
  - apply delete_sound.
  - intros i s0 H. simpl. apply row_sound_update; [|exact H].
    unfold row_sound. simpl. tauto.
  - intros i s0 H. simpl. apply row_sound_update; [|exact H].
    unfold row_sound. simpl. tauto.
Qed.

(** X3. After any sequence of requests on a new database, every row of
    the table has an id between 1 and 2^63-1, a type that lower-cases to
    expense or income, the currency UZS or USD, an amount and a balance
    that are not NaN, flags [notified] and [is_deleted] that are 0 or 1 and
    the debt status open or paid; and the ids of the table are strictly
    increasing, so no id occurs twice. *)
Theorem stored_rows_are_sound (qs : list request) :
  Forall row_sound (transactions (run qs init_db))
  /\ StronglySorted Z.lt (map Tx.id (transactions (run qs init_db))).
Proof.
  split.
  - apply run_sound. constructor.
  - apply ascending_ids. apply (run_ledger_ok qs init_db init_db_ledger_ok).
Qed.

(** ** The history query *)

Lemma insert_by_id_Permutation r l : Permutation (insert_by_id r l) (r :: l).
Proof.
  induction l as [|x l IH]; simpl; [reflexivity|].
  destruct (Tx.id r <? Tx.id x); [reflexivity|].
  rewrite IH. apply perm_swap.
Qed.

Lemma order_by_id_Permutation l : Permutation (order_by_id l) l.
Proof.
  induction l as [|x l IH]; simpl; [reflexivity|].
  rewrite insert_by_id_Permutation, IH. reflexivity.
Qed.

Lemma sorted_reverse (l : list Tx.t) :
  StronglySorted id_le l ->
  StronglySorted (fun a b => Tx.id b <= Tx.id a) (reverse l).
Proof.
  induction 1 as [|x l Hs IH Hall]; [constructor|].
  rewrite reverse_cons. apply StronglySorted_app_2.
  - intros x1 x2 H1 H2. apply list_elem_of_In in H1. apply list_elem_of_In in H2.
    destruct H2 as [<-|[]]. rewrite List.Forall_forall in Hall.
    apply Hall. apply list_elem_of_In. apply elem_of_reverse.
    apply list_elem_of_In. exact H1.
  - exact IH.
  - repeat constructor.
Qed.

(** X8. [get_all_transactions] returns the non-deleted rows of the owner,
    each as often as the table holds it, ordered by id from the greatest
    down; it never returns a row of another owner or a deleted row. *)
Theorem history_newest_first (s : db) (user_id : Z) :
  StronglySorted (fun a b => Tx.id b <= Tx.id a) (get_all_transactions user_id s)
  /\ Permutation (get_all_transactions user_id s)
       (List.filter (fun r => (Tx.user_id r =? user_id) && (Tx.is_deleted r =? 0))
                    (transactions s))
  /\ (forall r, In r (get_all_transactions user_id s) ->
                Tx.user_id r = user_id /\ Tx.is_deleted r = 0).
Proof.
  split; [|split].
  - unfold get_all_transactions, order_by_id_desc.
    apply sorted_reverse, order_by_id_sorted.
  - unfold get_all_transactions, order_by_id_desc.
    rewrite reverse_Permutation. apply order_by_id_Permutation.
  - intros r Hr. apply get_all_transactions_In in Hr. tauto.
Qed.

(** ** Escaping for MarkdownV2 *)

Lemma backslash_not_reserved : char_in "\" escape_chars = false.
Proof. reflexivity. Qed.

Lemma escape_markdown_app a b :
  escape_markdown (a ++ b) = (escape_markdown a ++ escape_markdown b)%string.
Proof.
  induction a as [|c a IH]; simpl; [reflexivity|].
  destruct (char_in c escape_chars); simpl; rewrite IH; reflexivity.
Qed.

Lemma escape_markdown_guarded text :
  forall pre c post,
    escape_markdown text = (pre ++ String c post)%string ->
    char_in c escape_chars = true ->
    exists pre', pre = (pre' ++ "\")%string.
Proof.
  induction text as [|d t IH]; intros pre c post Heq Hc; simpl in Heq.
  - destruct pre; discriminate.
  - destruct (char_in d escape_chars) eqn:Ed.
    + destruct pre as [|p1 pre]; simpl in Heq.
      { injection Heq as <- _. rewrite backslash_not_reserved in Hc. discriminate. }
      injection Heq as <- Heq.
      destruct pre as [|p2 pre]; simpl in Heq.
      { exists "". reflexivity. }
      injection Heq as <- Heq.
      destruct (IH _ _ _ Heq Hc) as [pre' ->].
      exists (String "\" (String d pre')). reflexivity.
    + destruct pre as [|p1 pre]; simpl in Heq.
      { injection Heq as <- _. congruence. }
      injection Heq as <- Heq.
      destruct (IH _ _ _ Heq Hc) as [pre' ->].
      exists (String d pre'). reflexivity.
Qed.

Lemma escape_markdown_length text :
  String.length (escape_markdown text)
  = (String.length text + count_reserved text)%nat.
Proof.
  induction text as [|c t IH]; simpl; [reflexivity|].
  destruct (char_in c escape_chars); simpl; rewrite IH; lia.
Qed.

Lemma escape_markdown_plain text :
  count_reserved text = 0%nat -> escape_markdown text = text.
Proof.
  induction text as [|c t IH]; simpl; [reflexivity|].
  destruct (char_in c escape_chars); simpl; [discriminate|].
  intros H. rewrite IH by exact H. reflexivity.
Qed.

(** X9. In the text [escape_markdown] returns, every character of
    [escape_chars] stands right after a backslash; the text has one
    character more for each such character of the input, so a text without
    any comes back as it is; and escaping distributes over
    concatenation. *)
Theorem escape_markdown_guards (text : string) :
  (forall pre c post,
      escape_markdown text = (pre ++ String c post)%string ->
      char_in c escape_chars = true ->
      exists pre', pre = (pre' ++ "\")%string)
  /\ String.length (escape_markdown text)
     = (String.length text + count_reserved text)%nat
  /\ (count_reserved text = 0%nat -> escape_markdown text = text)
  /\ (forall more, escape_markdown (text ++ more)
                   = (escape_markdown text ++ escape_markdown more)%string).
Proof.
  split; [apply escape_markdown_guarded|].
  split; [apply escape_markdown_length|].
  split; [apply escape_markdown_plain|].
  intros more. apply escape_markdown_app.
Qed.

(** X10. [escape_markdown] loses nothing: two texts with the same escaped
    form are the same text. *)
Theorem escape_markdown_injective (a b : string) :
  escape_markdown a = escape_markdown b -> a = b.
Proof.
  revert b. induction a as [|c a IH]; intros b H.
  - destruct b as [|d b]; [reflexivity|]. simpl in H.
    destruct (char_in d escape_chars); discriminate.
  - destruct b as [|d b]; simpl in H.
    { destruct (char_in c escape_chars); discriminate. }
    destruct (char_in c escape_chars) eqn:Ec, (char_in d escape_chars) eqn:Ed.
    + injection H as -> H. f_equal. apply IH, H.
    + injection H as <- H. destruct b as [|e b]; simpl in H; [discriminate|].
      destruct (char_in e escape_chars) eqn:Ee.
      * injection H as -> _. rewrite backslash_not_reserved in Ec. discriminate.
      * injection H as -> _. congruence.
    + injection H as -> H. destruct a as [|e a]; simpl in H; [discriminate|].
      destruct (char_in e escape_chars) eqn:Ee.
      * injection H as <- _. rewrite backslash_not_reserved in Ed. discriminate.
      * injection H as <- _. congruence.
    + injection H as -> H. f_equal. apply IH, H.
Qed.

Lemma escape_markdown_injective_witness :
  escape_markdown "1,250.50 UZS" = "1,250\.50 UZS"
  /\ "a.b" = "a.b".
Proof.
  split; [reflexivity|].
  apply (escape_markdown_injective "a.b" "a.b"). reflexivity.
Defined.

(** ** Numbers in callback data *)

Lemma int_tail_uint d :
  forall acc, int_tail acc (NilEmpty.string_of_uint d) = Some (uint_value acc d).
Proof.
  induction d; intros acc; simpl; try reflexivity; apply IHd.
Qed.

Lemma uint_value_pos d :
  forall acc, uint_value (Zpos acc) d = Zpos (Pos.of_uint_acc d acc).
Proof.
  induction d; intros acc; simpl; try reflexivity;
    match goal with
    | |- uint_value ?z _ = Z.pos (Pos.of_uint_acc _ ?p) =>
        replace z with (Zpos p) by lia; apply IHd
    end.
Qed.

Lemma uint_value_zero d : uint_value 0 d = Z.of_N (Pos.of_uint d).
Proof.
  induction d; simpl; try reflexivity; try exact IHd; apply uint_value_pos.
Qed.

Lemma int_unsigned_to_uint p :
  int_unsigned (NilEmpty.string_of_uint (Pos.to_uint p)) = Some (Zpos p).
Proof.
  pose proof (DecimalPos.Unsigned.of_to p) as Hof.
  pose proof (uint_value_zero (Pos.to_uint p)) as Hv. rewrite Hof in Hv.
  simpl Z.of_N in Hv. rewrite <- Hv.
  destruct (Pos.to_uint p) eqn:E; simpl;
    [exfalso; exact (Unsigned.to_uint_nonnil p E)| ..]; apply int_tail_uint.
Qed.

Lemma skip_space_to_uint p :
  skip_space (NilEmpty.string_of_uint (Pos.to_uint p))
  = NilEmpty.string_of_uint (Pos.to_uint p).
Proof. destruct (Pos.to_uint p); reflexivity. Qed.

(** [int(str(n))] is [n]. *)
Lemma py_int_str_int n : py_int (str_int n) = Ok n.
Proof.
  destruct n as [|p|p]; [reflexivity| |].
  - unfold py_int, str_int. rewrite skip_space_to_uint.
    pose proof (int_unsigned_to_uint p) as H.
    destruct (Pos.to_uint p); simpl in *; try rewrite H; try reflexivity;
      discriminate.
  - unfold py_int, str_int. simpl. rewrite int_unsigned_to_uint. reflexivity.
Qed.

Lemma split_on_plain_uint d :
  split_on "_" (NilEmpty.string_of_uint d) = [NilEmpty.string_of_uint d].
Proof. induction d; simpl; try reflexivity; rewrite IHd; reflexivity. Qed.

(** The decimal form of a number is one piece for [split('_')]. *)
Lemma split_on_str_int n : split_on "_" (str_int n) = [str_int n].
Proof.
  destruct n as [|p|p]; [reflexivity| |]; simpl.
  - apply split_on_plain_uint.
  - rewrite split_on_plain_uint. reflexivity.
Qed.

(** ** Buttons and the handler that answers them *)

Lemma split_on_undo t :
  split_on "_" ("undo_" ++ t) = "undo" :: split_on "_" t.
Proof. reflexivity. Qed.

Lemma split_on_debt_paid t :
  split_on "_" ("debt_paid_" ++ t) = "debt" :: "paid" :: split_on "_" t.
Proof. reflexivity. Qed.

Lemma split_on_history t :
  split_on "_" ("history_" ++ t) = "history" :: split_on "_" t.
Proof. reflexivity. Qed.

Lemma button_handler_undo (fmt : formats) (users : gmap Z User.t)
    (user_id i : Z) (now : nat -> string) (s : db) :
  is_user_registered user_id users = true ->
  button_handler fmt users user_id ("undo_" ++ str_int i) now s
  = match delete_transaction_and_recalculate user_id i s with
    | (s', Ok _) => ([s'], Shown Undone)
    | (_, Raise _) => ([], Shown (Answer CouldNotComplete))
    end.
Proof.
  intros Hreg. unfold button_handler, registration_gatekeeper. rewrite Hreg.
  cbn [negb]. rewrite split_on_undo, split_on_str_int. unfold undo_branch.
  cbn. rewrite py_int_str_int. reflexivity.
Qed.

Lemma button_handler_debt_paid (fmt : formats) (users : gmap Z User.t)
    (user_id i : Z) (now : nat -> string) (s : db) :
  is_user_registered user_id users = true ->
  button_handler fmt users user_id ("debt_paid_" ++ str_int i) now s
  = match debt_paid user_id i now s with
    | (commits, Ok r) => (commits, Shown (Answer r))
    | (commits, Raise e) => (commits, Escaped (Exn e))
    end.
Proof.
  intros Hreg. unfold button_handler, registration_gatekeeper. rewrite Hreg.
  cbn [negb]. rewrite split_on_debt_paid, split_on_str_int. unfold debt_branch.
  cbn. rewrite py_int_str_int. reflexivity.
Qed.

Lemma button_handler_history (fmt : formats) (users : gmap Z User.t)
    (user_id i : Z) (now : nat -> string) (s : db) :
  is_user_registered user_id users = true ->
  button_handler fmt users user_id ("history_" ++ str_int i) now s
  = ([], Shown (HistoryPage
                  (fst (generate_history_page fmt (get_all_transactions user_id s) i))
                  (snd (generate_history_page fmt (get_all_transactions user_id s) i)))).
Proof.
  intros Hreg. unfold button_handler, registration_gatekeeper. rewrite Hreg.
  cbn [negb]. rewrite split_on_history, split_on_str_int. unfold history_branch.
  cbn. rewrite py_int_str_int.
  destruct (generate_history_page fmt (get_all_transactions user_id s) i).
  reflexivity.
Qed.

(** X11. The callback data the bot puts on its buttons come back to the
    action they were made for.  For a registered user and any number [i]:
    [undo_i] runs the soft delete of row [i] and answers by its outcome,
    without letting an exception escape; [debt_paid_i] runs the "debt paid"
    transition of row [i]; [history_i] shows page [i] of the user's
    history. *)
Theorem buttons_reach_their_action (fmt : formats) (users : gmap Z User.t)
    (user_id i : Z) (now : nat -> string) (s : db) :
  is_user_registered user_id users = true ->
  button_handler fmt users user_id ("undo_" ++ str_int i) now s
  = match delete_transaction_and_recalculate user_id i s with
    | (s', Ok _) => ([s'], Shown Undone)
    | (_, Raise _) => ([], Shown (Answer CouldNotComplete))
    end
  /\ button_handler fmt users user_id ("debt_paid_" ++ str_int i) now s
     = match debt_paid user_id i now s with
       | (commits, Ok r) => (commits, Shown (Answer r))
       | (commits, Raise e) => (commits, Escaped (Exn e))
       end
  /\ button_handler fmt users user_id ("history_" ++ str_int i) now s
     = ([], Shown (HistoryPage
                     (fst (generate_history_page fmt (get_all_transactions user_id s) i))
                     (snd (generate_history_page fmt (get_all_transactions user_id s) i)))).
Proof.
  intros Hreg. split; [|split].
  - apply button_handler_undo, Hreg.
  - apply button_handler_debt_paid, Hreg.
  - apply button_handler_history, Hreg.
Qed.

(** ** What a callback query can change *)

Lemma same_entry_id r r' : same_entry r r' -> Tx.id r' = Tx.id r.
Proof. intros ->. reflexivity. Qed.

Lemma same_entry_user_id r r' : same_entry r r' -> Tx.user_id r' = Tx.user_id r.
Proof. intros ->. reflexivity. Qed.

Lemma update_own_rows user_id i f l :
  (forall r, Tx.id (f r) = Tx.id r /\ Tx.user_id (f r) = Tx.user_id r) ->
  (forall r, In r l -> Tx.id r = i -> Tx.user_id r = user_id) ->
  Forall2 (fun r r' => Tx.id r' = Tx.id r /\ Tx.user_id r' = Tx.user_id r
                       /\ (Tx.user_id r <> user_id -> r' = r))
          l (update_where_id i f l).
Proof.
  intros Hf. induction l as [|x l IH]; intros Hown; simpl; constructor.
  - destruct (Tx.id x =? i) eqn:E.
    + apply Z.eqb_eq in E. destruct (Hf x) as [H1 H2].
      split; [exact H1|]. split; [exact H2|]. intros Hne. contradiction Hne.
      apply Hown; [left; reflexivity|exact E].
    + auto.
  - apply IH. intros r Hr. apply Hown. right. exact Hr.
Qed.

Lemma confined_refl user_id l : confined_to user_id l l.
Proof.
  exists l, []. rewrite app_nil_r. split; [reflexivity|].
  split; [|constructor]. apply Forall2_same. auto.
Qed.

Lemma refold_confined user_id currency l :
  forall cb,
    Forall2 (fun r r' => Tx.id r' = Tx.id r /\ Tx.user_id r' = Tx.user_id r
                         /\ (Tx.user_id r <> user_id -> r' = r))
            l (refold user_id currency cb l).
Proof.
  induction l as [|r l IH]; intros cb; simpl; [constructor|].
  destruct (active_in user_id currency r) eqn:E; constructor; try apply IH.
  - apply active_in_inv in E as (Hu & _). simpl. split; [reflexivity|].
    split; [reflexivity|]. intros Hne. contradiction.
  - auto.
Qed.

(** A soft delete that went through has written to rows of its caller only. *)
Lemma delete_confined user_id transaction_id s :
  well_keyed s ->
  confined_to user_id (transactions s)
    (transactions (fst (delete_transaction_and_recalculate user_id transaction_id s))).
Proof.
  intros Hk. unfold delete_transaction_and_recalculate, transact.
  destruct (delete_body user_id transaction_id s) as [[res s']|e] eqn:E; simpl;
    [|apply confined_refl].
  apply delete_body_inv in E as (l1 & T & l2 & Hs & Hid & Hu & Hd & ->);
    [|exact Hk].
  simpl. rewrite Hs. eexists _, []. rewrite app_nil_r. split; [reflexivity|].
  split; [|constructor]. apply Forall2_app; [|constructor].
  - apply Forall2_same. auto.
  - simpl. split; [reflexivity|]. split; [reflexivity|]. intros Hne. contradiction.
  - apply refold_confined.
Qed.

Lemma add_confined user_id now ds s :
  confined_to user_id (transactions s)
    (transactions (fst (add_multiple_transactions user_id now ds s))).
Proof.
  destruct (add_multiple_transactions_rows user_id now ds s)
    as (news & Hrows & _ & Hfresh & _).
  exists (transactions s), news. split; [exact Hrows|]. split.
  - apply Forall2_same. auto.
  - eapply Forall_impl; [exact Hfresh|]. intros r Hr. apply Hr.
Qed.

Lemma paid_confined user_id transaction_id now ds s D :
  well_keyed s -> own_row user_id transaction_id s = Some D ->
  confined_to user_id (transactions s)
    (transactions (update_debt_status_paid transaction_id
                     (fst (add_multiple_transactions user_id now ds s)))).
Proof.
  intros Hk HD.
  destruct (add_multiple_transactions_rows user_id now ds s)
    as (news & Hrows & _ & Hfresh & _).
  unfold update_debt_status_paid. simpl. rewrite Hrows.
  unfold update_where_id. rewrite List.map_app.
  fold (update_where_id transaction_id (Tx.set_debt_status "paid") (transactions s)).
  eexists _, _. split; [reflexivity|]. split.
  - apply update_own_rows; [intros r; split; reflexivity|].
    apply own_row_Some in HD as (HinD & HidD & HuD & _).
    intros r Hr Hid. rewrite <- HuD. f_equal.
    apply (well_keyed_unique (transactions s)); [exact Hk|exact Hr|exact HinD|].
    congruence.
  - apply Forall_map. eapply Forall_impl; [exact Hfresh|]. simpl.
    intros r Hr. destruct (Tx.id r =? transaction_id); apply Hr.
Qed.

Lemma debt_paid_confined user_id transaction_id now s :
  well_keyed s ->
  Forall (fun s' => confined_to user_id (transactions s) (transactions s'))
         (fst (debt_paid user_id transaction_id now s)).
Proof.
  intros Hk. unfold debt_paid.
  destruct (own_row user_id transaction_id s) as [D|] eqn:ED; [|constructor].
  destruct (Tx.debt_status D =? "open")%string; [|constructor].
  pose proof (add_confined user_id now [repayment_of D] s) as H1.
  pose proof (paid_confined user_id transaction_id now [repayment_of D] s D Hk ED)
    as H2.
  destruct (add_multiple_transactions user_id now [repayment_of D] s)
    as [s1 [res|e]]; simpl in *; [|constructor].
  repeat constructor; assumption.
Qed.

(** X12. A callback query writes to the rows of its sender only.  Whatever
    the callback data, the handler of a user who is not registered commits
    nothing and shows the registration prompt; and in every database the
    handler commits for a registered user, on a well-keyed table, each row
    of another owner is what it was, every row keeps its id and its owner,
    and the rows added belong to the sender. *)
Theorem button_handler_confined (fmt : formats) (users : gmap Z User.t)
    (user_id : Z) (query_data : string) (now : nat -> string) (s : db) :
  well_keyed s ->
  (is_user_registered user_id users = false ->
   button_handler fmt users user_id query_data now s = ([], Shown RegistrationPrompt))
  /\ Forall (fun s' => confined_to user_id (transactions s) (transactions s'))
            (fst (button_handler fmt users user_id query_data now s)).
Proof.
  intros Hk. split.
  - intros Hreg. unfold button_handler, registration_gatekeeper. rewrite Hreg.
    reflexivity.
  - unfold button_handler.
    destruct (negb (registration_gatekeeper user_id users)); [constructor|].
    destruct (split_on "_" query_data) as [|action rest] eqn:Ed; [constructor|].
    destruct (action =? "undo")%string.
    { unfold undo_branch. destruct (_ !! 1%nat) as [a|]; [|constructor].
      destruct (py_int a) as [i|e]; [|constructor].
      pose proof (delete_confined user_id i s Hk) as Hc.
      destruct (delete_transaction_and_recalculate user_id i s) as [s' [u|e]];
        simpl in *; repeat constructor. exact Hc. }
    destruct (action =? "debt")%string.
    { destruct (_ !! 1%nat) as [what|]; [|constructor].
      destruct (what =? "paid")%string; [|constructor].
      unfold debt_branch. destruct (_ !! 2%nat) as [a|]; [|constructor].
      destruct (py_int a) as [i|e]; [|constructor].
      pose proof (debt_paid_confined user_id i now s Hk) as Hc.
      destruct (debt_paid user_id i now s) as [commits [r|e]]; exact Hc. }
    destruct (action =? "summary")%string; [constructor|].
    destruct (action =? "history")%string; constructor.
Qed.

(** ** Pages of the history *)

Lemma firstn_add {A} (a b : nat) (l : list A) :
  firstn (a + b) l = firstn a l ++ firstn b (skipn a l).
Proof.
  revert l. induction a as [|a IH]; intros l; simpl; [reflexivity|].
  destruct l as [|x l]; simpl.
  - rewrite firstn_nil. reflexivity.
  - rewrite IH. reflexivity.
Qed.

Lemma firstn_min {A} (n : nat) (l : list A) :
  firstn (Nat.min n (length l)) l = firstn n l.
Proof.
  revert l. induction n as [|n IH]; intros l; simpl; [reflexivity|].
  destruct l as [|x l]; simpl; [reflexivity|]. rewrite IH. reflexivity.
Qed.

(** A page of a number that is not negative is the next five rows. *)
Lemma paginated_nonneg (l : list Tx.t) (page : Z) :
  0 <= page ->
  paginated l page = firstn 5 (skipn (5 * Z.to_nat page) l).
Proof.
  intros Hp. unfold paginated, slice, clamp_index, items_per_page.
  destruct (page * 5 <? 0) eqn:E1; [apply Z.ltb_lt in E1; lia|].
  destruct (page * 5 + 5 <? 0) eqn:E2; [apply Z.ltb_lt in E2; lia|].
  set (len := Z.of_nat (length l)).
  destruct (Z_lt_le_dec (page * 5) len) as [Hlt|Hge].
  - replace (Z.to_nat (Z.min len (page * 5))) with (5 * Z.to_nat page)%nat by lia.
    rewrite <- (firstn_min 5). f_equal. rewrite length_skipn. unfold len in *. lia.
  - rewrite !skipn_all2 by (unfold len in *; lia). rewrite !firstn_nil. reflexivity.
Qed.

Lemma pages_up_to (l : list Tx.t) (n : nat) :
  flat_map (fun k => paginated l (Z.of_nat k)) (seq 0 n) = firstn (5 * n) l.
Proof.
  induction n as [|n IH]; [reflexivity|].
  rewrite seq_S, flat_map_app, IH. cbn [flat_map]. rewrite app_nil_r, Nat.add_0_l.
  rewrite paginated_nonneg by lia. rewrite Nat2Z.id.
  replace (5 * S n)%nat with (5 * n + 5)%nat by lia. rewrite firstn_add. reflexivity.
Qed.

Lemma total_pages_bounds (l : list Tx.t) :
  0 <= total_pages l
  /\ Z.of_nat (length l) <= 5 * total_pages l < Z.of_nat (length l) + 5.
Proof.
  unfold total_pages, items_per_page. destruct l as [|x l]; [simpl; lia|].
  set (len := Z.of_nat (length (x :: l))).
  pose proof (Z.div_mod (len + 5 - 1) 5 ltac:(lia)) as Hdm.
  pose proof (Z.mod_pos_bound (len + 5 - 1) 5 ltac:(lia)) as Hb.
  assert (0 <= len) by (unfold len; lia).
  assert (0 <= (len + 5 - 1) / 5) by (apply Z.div_pos; lia). lia.
Qed.

(** X13. The pages of a history cut it into runs of five.  Laid end to
    end, pages 0 up to [total_pages - 1] give back the list, each row once
    and in order; no page has more than five rows; each of these pages
    has at least one; and for any page number from [total_pages] on the
    function returns the text that says there is nothing to display. *)
Theorem history_pages_cover (fmt : formats) (transactions : list Tx.t) :
  flat_map (fun k => paginated transactions (Z.of_nat k))
           (seq 0 (Z.to_nat (total_pages transactions)))
  = transactions
  /\ (forall page, (length (paginated transactions page) <= 5)%nat)
  /\ (forall page, 0 <= page < total_pages transactions ->
                   paginated transactions page <> [])
  /\ (forall page, total_pages transactions <= page ->
                   fst (generate_history_page fmt transactions page)
                   = "You have no transactions to display.").
Proof.
  pose proof (total_pages_bounds transactions) as (H0 & Hlo & Hhi).
  split; [|split; [|split]].
  - rewrite pages_up_to. apply firstn_all2. lia.
  - intros page. unfold paginated, slice. rewrite length_firstn.
    unfold clamp_index, items_per_page.
    destruct (page * 5 <? 0) eqn:E1, (page * 5 + 5 <? 0) eqn:E2;
      try apply Z.ltb_lt in E1; try apply Z.ltb_lt in E2;
      try apply Z.ltb_ge in E1; try apply Z.ltb_ge in E2; lia.
  - intros page Hp. rewrite paginated_nonneg by lia.
    intros Hnil. apply (f_equal (@length Tx.t)) in Hnil.
    rewrite length_firstn, length_skipn in Hnil. cbn [length] in Hnil. lia.
  - intros page Hp. unfold generate_history_page.
    rewrite paginated_nonneg by lia.
    rewrite skipn_all2 by lia. reflexivity.
Qed.

Lemma concat_singletons {A B} (f : A -> B) (l : list A) :
  concat (map (fun x => [f x]) l) = map f l.
Proof. induction l as [|x l IH]; simpl; [reflexivity|]. rewrite IH. reflexivity. Qed.

(** The buttons of a page: those of its open debts, then the two that
    turn the page. *)
Lemma history_buttons (fmt : formats) (transactions : list Tx.t) (page : Z) :
  concat (snd (generate_history_page fmt transactions page))
  = map debt_button (List.filter offers_payment (paginated transactions page))
    ++ pagination_row transactions page.
Proof.
  unfold generate_history_page. cbn [snd].
  destruct (pagination_row transactions page) as [|b row].
  - rewrite concat_singletons, app_nil_r. reflexivity.
  - rewrite concat_app, concat_singletons. simpl. rewrite app_nil_r. reflexivity.
Qed.

Lemma debt_button_not_next r page : debt_button r <> next_button page.
Proof. unfold debt_button, next_button. intros H. discriminate H. Qed.

Lemma debt_button_not_previous r page : debt_button r <> previous_button page.
Proof. unfold debt_button, previous_button. intros H. discriminate H. Qed.

Lemma previous_not_next page page' : previous_button page <> next_button page'.
Proof. unfold previous_button, next_button. intros H. discriminate H. Qed.

(** X14. The two buttons that turn the page, on a page whose number is
    not negative: the button to page + 1 is there exactly when that page
    has a row to show, the button to page - 1 exactly when the page is not
    the first; every other button is the button of a row of the page that
    is offered for payment. *)
Theorem history_navigation (fmt : formats) (transactions : list Tx.t) (page : Z) :
  0 <= page ->
  let buttons := concat (snd (generate_history_page fmt transactions page)) in
  (In (next_button page) buttons <-> paginated transactions (page + 1) <> [])
  /\ (In (previous_button page) buttons <-> 0 < page)
  /\ (forall b, In b buttons ->
        b = next_button page \/ b = previous_button page
        \/ exists r, In r (paginated transactions page)
                     /\ offers_payment r = true /\ b = debt_button r).
Proof.
  intros Hp buttons. subst buttons. rewrite history_buttons.
  unfold pagination_row, items_per_page.
  assert ((page * 5 + 5 <? Z.of_nat (length transactions)) = true
          <-> paginated transactions (page + 1) <> []) as Hnext.
  { rewrite paginated_nonneg by lia. rewrite Z.ltb_lt. split.
    - intros Hlt Hnil. apply (f_equal (@length Tx.t)) in Hnil.
      rewrite length_firstn, length_skipn in Hnil. cbn [length] in Hnil. lia.
    - intros Hne. destruct (Z_lt_le_dec (page * 5 + 5) (Z.of_nat (length transactions)))
        as [Hlt|Hge]; [exact Hlt|].
      contradiction Hne. rewrite skipn_all2 by lia. reflexivity. }
  split; [|split].
  - rewrite <- Hnext. rewrite !in_app_iff. split.
    + intros [H|[H|H]].
      * apply List.in_map_iff in H as (r & Heq & _).
        contradiction (debt_button_not_next _ _ Heq).
      * destruct (0 <? page); [|destruct H]. destruct H as [H|[]].
        contradiction (previous_not_next _ _ H).
      * destruct (page * 5 + 5 <? Z.of_nat (length transactions));
          [reflexivity|destruct H].
    + intros ->. right. right. left. reflexivity.
  - rewrite !in_app_iff. split.
    + intros [H|[H|H]].
      * apply List.in_map_iff in H as (r & Heq & _).
        contradiction (debt_button_not_previous _ _ Heq).
      * destruct (0 <? page) eqn:E; [apply Z.ltb_lt in E; exact E|destruct H].
      * destruct (page * 5 + 5 <? Z.of_nat (length transactions)); [|destruct H].
        destruct H as [H|[]]. symmetry in H.
        contradiction (previous_not_next _ _ H).
    + intros Hlt. apply Z.ltb_lt in Hlt. rewrite Hlt. right. left. left. reflexivity.
  - intros b Hb. rewrite !in_app_iff in Hb. destruct Hb as [H|[H|H]].
    + apply List.in_map_iff in H as (r & <- & Hr).
      apply List.filter_In in Hr as [Hr Ho]. right. right. eauto.
    + destruct (0 <? page); [|destruct H]. destruct H as [<-|[]]. auto.
    + destruct (page * 5 + 5 <? Z.of_nat (length transactions)); [|destruct H].
      destruct H as [<-|[]]. auto.
Qed.

(** ** The buttons of debts *)

Lemma own_row_found user_id s r :
  well_keyed s -> In r (transactions s) ->
  Tx.user_id r = user_id -> Tx.is_deleted r = 0 ->
  own_row user_id (Tx.id r) s = Some r.
Proof.
  intros Hk Hin Hu Hd.
  destruct (own_row user_id (Tx.id r) s) as [r'|] eqn:E.
  - f_equal. apply own_row_Some in E as (Hin' & Hid' & _).
    apply (well_keyed_unique (transactions s)); assumption.
  - unfold own_row in E.
    pose proof (fetchone_filter_None _ _ E r Hin) as Hf. simpl in Hf.
    rewrite Z.eqb_refl, Hu, Z.eqb_refl, Hd in Hf. discriminate.
Qed.

Lemma firstn_In' {A} (n : nat) (l : list A) x : In x (firstn n l) -> In x l.
Proof.
  revert l. induction n as [|n IH]; intros [|y l] H; simpl in H; try destruct H.
  - left. assumption.
  - right. apply IH. assumption.
Qed.

Lemma skipn_In' {A} (n : nat) (l : list A) x : In x (skipn n l) -> In x l.
Proof.
  revert l. induction n as [|n IH]; intros [|y l] H; simpl in H; try assumption.
  right. apply IH. assumption.
Qed.

Lemma slice_In {A} (l : list A) (a b : Z) x : In x (slice l a b) -> In x l.
Proof. unfold slice. intros H. eapply skipn_In', firstn_In', H. Qed.

Lemma str_int_inj a b : str_int a = str_int b -> a = b.
Proof.
  intros H. apply (f_equal py_int) in H. rewrite !py_int_str_int in H.
  congruence.
Qed.

Lemma debt_button_inj r r' : debt_button r' = debt_button r -> Tx.id r' = Tx.id r.
Proof.
  intros H. apply (f_equal callback_data) in H. unfold debt_button in H.
  cbn [callback_data] in H. apply (f_equal (split_on "_")) in H.
  rewrite !split_on_debt_paid, !split_on_str_int in H.
  injection H as H. apply str_int_inj, H.
Qed.

Lemma title_open_or_paid st :
  st = "open" \/ st = "paid" -> (title st =? "Open")%string = true -> st = "open".
Proof. intros [-> | ->] H; [reflexivity|discriminate]. Qed.

(** X15. The button "Mark Debt as Paid" and the handler that answers it
    agree.  On the database after any sequence of requests, in the history
    of a registered user, a row of the page is given the button exactly
    when it is of category Debt, names a debtor and is open; and the
    callback query of that button is not refused: the handler finds the
    row, which is the user's, not deleted and open, and goes on to the
    two commits of the transition. *)
Theorem debt_buttons_are_accepted (fmt : formats) (users : gmap Z User.t)
    (user_id page : Z) (now : nat -> string) (qs : list request) (r : Tx.t) :
  is_user_registered user_id users = true ->
  let s := run qs init_db in
  let history := get_all_transactions user_id s in
  In r (paginated history page) ->
  (In [debt_button r] (snd (generate_history_page fmt history page))
   <-> Tx.category r = "Debt" /\ truthy (Tx.debtor_name r) = true
       /\ Tx.debt_status r = "open")
  /\ (In [debt_button r] (snd (generate_history_page fmt history page)) ->
      own_row user_id (Tx.id r) s = Some r
      /\ button_handler fmt users user_id (callback_data (debt_button r)) now s
         = match add_multiple_transactions user_id now [repayment_of r] s with
           | (s1, Ok _) =>
               ([s1; update_debt_status_paid (Tx.id r) s1],
                Shown (Answer (DebtMarkedPaid (Tx.id r))))
           | (_, Raise e) => ([], Escaped (Exn e))
           end).
Proof.
  intros Hreg s history Hr.
  assert (In r (transactions s) /\ Tx.user_id r = user_id /\ Tx.is_deleted r = 0)
    as (Hin & Hu & Hd).
  { apply get_all_transactions_In. eapply slice_In. exact Hr. }
  assert (Tx.debt_status r = "open" \/ Tx.debt_status r = "paid") as Hst.
  { pose proof (run_sound qs init_db (Forall_nil_2 _)) as Hs.
    rewrite List.Forall_forall in Hs. apply (Hs r Hin). }
  assert (well_keyed s) as Hk by apply (run_ledger_ok qs init_db init_db_ledger_ok).
  assert (In [debt_button r] (snd (generate_history_page fmt history page))
          <-> offers_payment r = true) as Hbtn.
  { unfold generate_history_page. cbn [snd]. split.
    - intros H.
      assert (In [debt_button r]
                (map (fun trans => [debt_button trans])
                     (List.filter offers_payment (paginated history page)))) as H'.
      { destruct (pagination_row history page) as [|b row] eqn:Erow; [exact H|].
        apply in_app_or in H as [H|[H|[]]]; [exact H|].
        exfalso. unfold pagination_row in Erow.
        assert (In (debt_button r) (b :: row)) as Hb by (rewrite H; left; reflexivity).
        rewrite <- Erow in Hb. apply in_app_or in Hb as [Hb|Hb].
        - destruct (0 <? page); [|destruct Hb]. destruct Hb as [Hb|[]].
          symmetry in Hb. contradiction (debt_button_not_previous _ _ Hb).
        - match type of Hb with In _ (if ?c then _ else _) => destruct c end;
            [|destruct Hb]. destruct Hb as [Hb|[]].
          symmetry in Hb. contradiction (debt_button_not_next _ _ Hb). }
      apply List.in_map_iff in H' as (r' & Heq & Hr').
      apply List.filter_In in Hr' as [Hr' Ho].
      assert (r' = r) as ->; [|exact Ho].
      assert (Tx.id r' = Tx.id r) as Hid.
      { apply debt_button_inj.
        apply (f_equal (hd (debt_button r))) in Heq. exact Heq. }
      apply (well_keyed_unique (transactions s)); [exact Hk| |exact Hin|exact Hid].
      apply (get_all_transactions_In r' user_id s). eapply slice_In. exact Hr'.
    - intros Ho.
      assert (In [debt_button r]
                (map (fun trans => [debt_button trans])
                     (List.filter offers_payment (paginated history page)))) as H'.
      { apply (List.in_map (fun trans => [debt_button trans])).
        apply List.filter_In. auto. }
      destruct (pagination_row history page); [exact H'|].
      apply in_or_app. left. exact H'. }
  assert (offers_payment r = true
          <-> Tx.category r = "Debt" /\ truthy (Tx.debtor_name r) = true
              /\ Tx.debt_status r = "open") as Hoff.
  { unfold offers_payment, shows_debt.
    rewrite !andb_true_iff, !String.eqb_eq. split.
    - intros [[Hc Ht] Ho]. repeat split; try assumption.
      apply title_open_or_paid; [exact Hst|]. apply String.eqb_eq, Ho.
    - intros (Hc & Ht & Ho). rewrite Ho. repeat split; assumption. }
  split; [rewrite Hbtn; exact Hoff|].
  intros Hb. apply Hbtn, Hoff in Hb as (_ & _ & Ho).
  pose proof (own_row_found user_id s r Hk Hin Hu Hd) as Hown.
  split; [exact Hown|].
  unfold debt_button. cbn [callback_data].
  rewrite (button_handler_debt_paid fmt users user_id (Tx.id r) now s Hreg).
  unfold debt_paid. rewrite Hown, Ho. cbn [String.eqb Ascii.eqb Bool.eqb].
  destruct (add_multiple_transactions user_id now [repayment_of r] s) as [s1 [res|e]];
    reflexivity.
Qed.

(** ** Examples for the handlers *)

Lemma buttons_reach_their_action_witness :
  button_handler sample_formats sample_users 7 ("undo_" ++ str_int 2)
    (clock_at sept_2) abc_db
  = match delete_transaction_and_recalculate 7 2 abc_db with
    | (s', Ok _) => ([s'], Shown Undone)
    | (_, Raise _) => ([], Shown (Answer CouldNotComplete))
    end
  /\ button_handler sample_formats sample_users 7 ("debt_paid_" ++ str_int 2)
       (clock_at sept_2) abc_db
     = match debt_paid 7 2 (clock_at sept_2) abc_db with
       | (commits, Ok r) => (commits, Shown (Answer r))
       | (commits, Raise e) => (commits, Escaped (Exn e))
       end
  /\ button_handler sample_formats sample_users 7 ("history_" ++ str_int 2)
       (clock_at sept_2) abc_db
     = ([], Shown (HistoryPage
                     (fst (generate_history_page sample_formats
                             (get_all_transactions 7 abc_db) 2))
                     (snd (generate_history_page sample_formats
                             (get_all_transactions 7 abc_db) 2)))).
Proof.
  apply (buttons_reach_their_action sample_formats sample_users 7 2
           (clock_at sept_2) abc_db).
  reflexivity.
Defined.

Lemma button_handler_confined_witness :
  (is_user_registered 7 sample_users = false ->
   button_handler sample_formats sample_users 7 "undo_2" (clock_at sept_2) abc_db
   = ([], Shown RegistrationPrompt))
  /\ Forall (fun s' => confined_to 7 (transactions abc_db) (transactions s'))
            (fst (button_handler sample_formats sample_users 7 "undo_2"
                    (clock_at sept_2) abc_db)).
Proof.
  apply (button_handler_confined sample_formats sample_users 7 "undo_2"
           (clock_at sept_2) abc_db).
  apply abc_db_well_keyed.
Defined.

Lemma history_navigation_witness :
  let buttons :=
    concat (snd (generate_history_page sample_formats (transactions abc_db) 0)) in
  (In (next_button 0) buttons <-> paginated (transactions abc_db) (0 + 1) <> [])
  /\ (In (previous_button 0) buttons <-> 0 < 0)
  /\ (forall b, In b buttons ->
        b = next_button 0 \/ b = previous_button 0
        \/ exists r, In r (paginated (transactions abc_db) 0)
                     /\ offers_payment r = true /\ b = debt_button r).
Proof.
  apply (history_navigation sample_formats (transactions abc_db) 0). lia.
Defined.

Lemma debt_buttons_are_accepted_witness :
  let s := run [Add 7 (clock_at sept_1) [lent_to_aziz]] init_db in
  let history := get_all_transactions 7 s in
  (In [debt_button debt_row_1] (snd (generate_history_page sample_formats history 0))
   <-> Tx.category debt_row_1 = "Debt" /\ truthy (Tx.debtor_name debt_row_1) = true
       /\ Tx.debt_status debt_row_1 = "open")
  /\ (In [debt_button debt_row_1]
         (snd (generate_history_page sample_formats history 0)) ->
      own_row 7 (Tx.id debt_row_1) s = Some debt_row_1
      /\ button_handler sample_formats sample_users 7
           (callback_data (debt_button debt_row_1)) (clock_at sept_26) s
         = match add_multiple_transactions 7 (clock_at sept_26)
                   [repayment_of debt_row_1] s with
           | (s1, Ok _) =>
               ([s1; update_debt_status_paid (Tx.id debt_row_1) s1],
                Shown (Answer (DebtMarkedPaid (Tx.id debt_row_1))))
           | (_, Raise e) => ([], Escaped (Exn e))
           end).
Proof.
  apply (debt_buttons_are_accepted sample_formats sample_users 7 0
           (clock_at sept_26) [Add 7 (clock_at sept_1) [lent_to_aziz]] debt_row_1).
  - reflexivity.
  - vm_compute. left. reflexivity.
Defined.

(** ** Registration *)

(** X16. Registration is by one's own contact.  When the contact shared
    is the sender's, [handle_contact] thanks the sender, who from then on
    passes the gatekeeper and is welcomed back by [start_command], with the
    phone number, name and date of this registration on file in place of
    any earlier ones; when the contact is someone else's or carries no
    user id, the table stays as it was.  Either way nobody else's
    registration changes, and nobody is ever taken off the table. *)
Theorem registration_by_own_contact (users : gmap Z User.t) (user_id : Z)
    (first_name : string) (contact_user_id : option Z) (phone_number now : string) :
  let out := handle_contact user_id first_name contact_user_id phone_number now users in
  (contact_user_id = Some user_id ->
   snd out = ThankYou
   /\ fst out !! user_id = Some (User.mk phone_number first_name now)
   /\ registration_gatekeeper user_id (fst out) = true
   /\ start_command user_id first_name (fst out) = WelcomeBack first_name)
  /\ (contact_user_id <> Some user_id -> out = (users, UseOwnContact))
  /\ (forall other, other <> user_id -> fst out !! other = users !! other)
  /\ (forall anyone, is_user_registered anyone users = true ->
                     is_user_registered anyone (fst out) = true).
Proof.
  intros out. subst out. unfold handle_contact.
  destruct (decide (contact_user_id = Some user_id)) as [Heq|Hne]; cbn [fst snd].
  - assert (is_user_registered user_id
              (register_user user_id phone_number first_name now users) = true) as Hreg.
    { unfold is_user_registered, register_user. rewrite lookup_insert_eq. reflexivity. }
    split; [|split; [|split]].
    + intros _. split; [reflexivity|]. split.
      * unfold register_user. apply lookup_insert_eq.
      * split; [exact Hreg|]. unfold start_command. rewrite Hreg. reflexivity.
    + intros H. contradiction.
    + intros other Ho. unfold register_user. apply lookup_insert_ne. congruence.
    + intros anyone Ha. destruct (decide (anyone = user_id)) as [->|Hd];
        [exact Hreg|].
      unfold is_user_registered, register_user in *.
      rewrite lookup_insert_ne by congruence. exact Ha.
  - split; [|split; [|split]]; auto. intros H. contradiction.
Qed.

(** ** Matching, step by step *)

Lemma lower_ascii_idem c : lower_ascii (lower_ascii c) = lower_ascii c.
Proof. destruct c as [[] [] [] [] [] [] [] []]; reflexivity. Qed.

Lemma str_cons c (a b : string) : (String c a ++ b)%string = String c (a ++ b).
Proof. reflexivity. Qed.

Lemma str_nil (b : string) : ("" ++ b)%string = b.
Proof. reflexivity. Qed.

Lemma after_word_match w v rest :
  lower v = lower w -> after_word w (v ++ rest) = Some rest.
Proof.
  revert v. induction w as [|a w IH]; intros [|c v] H; simpl in H; try discriminate.
  - reflexivity.
  - injection H as Hc Hv. rewrite str_cons. simpl. rewrite Hc, Ascii.eqb_refl.
    apply IH, Hv.
Qed.

Lemma after_word_lower_None w v rest :
  after_word w (lower v ++ rest) = None -> after_word w (v ++ rest) = None.
Proof.
  revert v. induction w as [|a w IH]; intros [|c v] H;
    rewrite ?str_cons, ?str_nil in *; simpl in *; rewrite ?str_cons in *;
    simpl in *; try discriminate; try assumption.
  rewrite lower_ascii_idem in H.
  destruct (Ascii.eqb (lower_ascii c) (lower_ascii a)); [apply IH, H|reflexivity].
Qed.

Lemma string_length_app a b :
  String.length (a ++ b) = (String.length a + String.length b)%nat.
Proof.
  induction a as [|c a IH]; rewrite ?str_cons, ?str_nil; simpl; [reflexivity|].
  rewrite IH. reflexivity.
Qed.

Lemma substring_prefix a b : substring 0 (String.length a) (a ++ b) = a.
Proof.
  induction a as [|c a IH]; rewrite ?str_cons, ?str_nil; simpl.
  - destruct b; reflexivity.
  - rewrite IH. reflexivity.
Qed.

Lemma consumed_app a rest : consumed (a ++ rest) rest = a.
Proof.
  unfold consumed. rewrite string_length_app.
  replace (String.length a + String.length rest - String.length rest)%nat
    with (String.length a) by lia.
  apply substring_prefix.
Qed.

Lemma string_app_assoc (a b c : string) : ((a ++ b) ++ c = a ++ (b ++ c))%string.
Proof.
  induction a as [|x a IH]; rewrite ?str_cons, ?str_nil; [reflexivity|].
  f_equal. exact IH.
Qed.

Lemma string_app_nil_r (a : string) : (a ++ "")%string = a.
Proof.
  induction a as [|x a IH]; rewrite ?str_cons, ?str_nil; [reflexivity|].
  f_equal. exact IH.
Qed.

(** A run of [c*] that can take all of [a], stop there and go on takes
    all of [a]. *)
Lemma star_take {R} (p : ascii -> bool) (a rest : string)
    (k : string -> option R) (x : R) :
  all_chars p a = true -> stops p rest = true -> k rest = Some x ->
  star p (a ++ rest) k = Some x.
Proof.
  intros Ha Hrest Hk. induction a as [|c a IH]; rewrite ?str_cons, ?str_nil.
  - destruct rest as [|c rest]; simpl in *; [exact Hk|].
    apply negb_true_iff in Hrest. rewrite Hrest. exact Hk.
  - simpl in *. apply andb_true_iff in Ha as [Hc Ha]. rewrite Hc, (IH Ha).
    reflexivity.
Qed.

Lemma star_none {R} (p : ascii -> bool) (rest : string) (k : string -> option R) :
  stops p rest = true -> star p rest k = k rest.
Proof.
  destruct rest as [|c rest]; simpl; [reflexivity|].
  intros H. apply negb_true_iff in H. rewrite H. reflexivity.
Qed.

(** The five verbs, whatever the case of their letters. *)
Lemma verbs_match {R} (v rest : string) (caps : list (option string))
    (k : string -> list (option string) -> option R) :
  among (lower v) ["spent"; "paid"; "gave"; "got"; "received"] = true ->
  match_here verbs (v ++ rest) caps k = k rest caps.
Proof.
  unfold among. cbn [existsb]. rewrite !orb_true_iff, !String.eqb_eq.
  intros H. unfold verbs. cbn [match_here].
  assert (forall w, after_word w (lower v ++ rest) = None ->
                    after_word w (v ++ rest) = None) as Hno
    by (intros w; apply after_word_lower_None).
  destruct H as [H|[H|[H|[H|[H|H]]]]]; [| | | | |discriminate H].
  - rewrite (after_word_match "spent" v rest) by (rewrite H; reflexivity).
    rewrite (Hno "paid"), (Hno "gave"), (Hno "got"), (Hno "received")
      by (rewrite H; reflexivity).
    destruct (k rest caps); reflexivity.
  - rewrite (after_word_match "paid" v rest) by (rewrite H; reflexivity).
    rewrite (Hno "spent"), (Hno "gave"), (Hno "got"), (Hno "received")
      by (rewrite H; reflexivity).
    destruct (k rest caps); reflexivity.
  - rewrite (after_word_match "gave" v rest) by (rewrite H; reflexivity).
    rewrite (Hno "spent"), (Hno "paid"), (Hno "got"), (Hno "received")
      by (rewrite H; reflexivity).
    destruct (k rest caps); reflexivity.
  - rewrite (after_word_match "got" v rest) by (rewrite H; reflexivity).
    rewrite (Hno "spent"), (Hno "paid"), (Hno "gave"), (Hno "received")
      by (rewrite H; reflexivity).
    destruct (k rest caps); reflexivity.
  - rewrite (after_word_match "received" v rest) by (rewrite H; reflexivity).
    rewrite (Hno "spent"), (Hno "paid"), (Hno "gave"), (Hno "got")
      by (rewrite H; reflexivity).
    destruct (k rest caps); reflexivity.
Qed.

Section Steps.

Context {R : Type}.

Implicit Types (k : string -> list (option string) -> option R).

Lemma seq_step (r1 r2 : regex) (s : string) caps k :
  match_here (Seq r1 r2) s caps k
  = match_here r1 s caps (fun s' caps' => match_here r2 s' caps' k).
Proof. reflexivity. Qed.

Lemma group_step (r : regex) (s : string) caps k :
  match_here (Group r) s caps k
  = match_here r s caps (fun s' caps' => k s' (caps' ++ [Some (consumed s s')])).
Proof. reflexivity. Qed.

Lemma plus_take (p : ascii -> bool) (a rest : string) caps k (x : R) :
  a <> "" -> all_chars p a = true -> stops p rest = true ->
  k rest caps = Some x ->
  match_here (Seq (Char p) (Star p)) (a ++ rest) caps k = Some x.
Proof.
  intros Hne Ha Hrest Hk. destruct a as [|c a]; [contradiction|].
  rewrite str_cons. simpl in Ha. apply andb_true_iff in Ha as [Hc Ha].
  cbn [match_here]. rewrite Hc. apply star_take; assumption.
Qed.

Lemma star_step (p : ascii -> bool) (a rest : string) caps k (x : R) :
  all_chars p a = true -> stops p rest = true ->
  k rest caps = Some x ->
  match_here (Star p) (a ++ rest) caps k = Some x.
Proof. intros Ha Hrest Hk. cbn [match_here]. apply star_take; assumption. Qed.

Lemma word_step (w v rest : string) caps k :
  lower v = lower w -> match_here (Word w) (v ++ rest) caps k = k rest caps.
Proof. intros H. cbn [match_here]. rewrite after_word_match by exact H. reflexivity. Qed.

Lemma word_fails (w s : string) caps k :
  after_word w s = None -> match_here (Word w) s caps k = None.
Proof. intros H. cbn [match_here]. rewrite H. reflexivity. Qed.

Lemma opt_take (r : regex) (s : string) caps k (x : R) :
  match_here r s caps k = Some x -> match_here (Opt r) s caps k = Some x.
Proof. intros H. cbn [match_here]. rewrite H. reflexivity. Qed.

Lemma opt_skip (r : regex) (s : string) caps k :
  match_here r s caps k = None ->
  match_here (Opt r) s caps k = k s (caps ++ repeat None (groups_in r)).
Proof. intros H. cbn [match_here]. rewrite H. reflexivity. Qed.

End Steps.

Lemma amount_char_not_space c : amount_char c = true -> py_isspace c = false.
Proof. destruct c as [[] [] [] [] [] [] [] []]; cbv; congruence. Qed.

Lemma amount_char_plain c : amount_char c = true -> lower_ascii c = c.
Proof. destruct c as [[] [] [] [] [] [] [] []]; cbv; congruence. Qed.

Lemma amount_char_not_k c : amount_char c = true -> Ascii.eqb c "k" = false.
Proof. destruct c as [[] [] [] [] [] [] [] []]; cbv; congruence. Qed.

Lemma stops_head (p q : ascii -> bool) (a rest : string) :
  a <> "" -> all_chars q a = true -> (forall c, q c = true -> p c = false) ->
  stops p (a ++ rest) = true.
Proof.
  intros Hne Ha Hq. destruct a as [|c a]; [contradiction|].
  rewrite str_cons. simpl in *. apply andb_true_iff in Ha as [Hc _].
  rewrite (Hq c Hc). reflexivity.
Qed.

(** The pattern up to the amount: a verb, white space, the digits, and
    [k] or nothing; what follows is matched by the rest of the pattern. *)
Lemma pattern_head (v ws num ks tail : string) (x : list (option string)) :
  among (lower v) ["spent"; "paid"; "gave"; "got"; "received"] = true ->
  ws <> "" -> all_chars py_isspace ws = true ->
  num <> "" -> all_chars amount_char num = true ->
  (ks = "" /\ stops amount_char tail = true /\ after_word "k" tail = None)
  \/ lower ks = "k" ->
  match_here pattern_tail tail [Some v; Some (num ++ ks)%string]
             (fun _ caps => Some caps) = Some x ->
  match_here pattern (v ++ ws ++ num ++ ks ++ tail) []
             (fun _ caps => Some caps) = Some x.
Proof.
  intros Hv Hws1 Hws2 Hnum1 Hnum2 Hks Htail.
  change pattern with
    (Seq (Group verbs)
       (Seq (Seq (Char py_isspace) (Star py_isspace))
          (Seq (Group (Seq (Seq (Char amount_char) (Star amount_char))
                           (Opt (Word "k"))))
               pattern_tail))).
  rewrite seq_step, group_step, verbs_match by exact Hv.
  rewrite consumed_app, seq_step.
  apply (plus_take py_isspace ws); try assumption.
  { apply (stops_head _ amount_char); try assumption.
    apply amount_char_not_space. }
  rewrite seq_step, group_step, seq_step.
  assert (stops amount_char (ks ++ tail) = true) as Hstop.
  { destruct Hks as [(-> & Hst & _)|Hk]; [exact Hst|].
    destruct ks as [|c ks]; [discriminate|]. rewrite str_cons. simpl in *.
    injection Hk as Hc _. destruct c as [[] [] [] [] [] [] [] []]; try discriminate;
      reflexivity. }
  apply (plus_take amount_char num); try assumption.
  assert (consumed (num ++ ks ++ tail) tail = num ++ ks)%string as Hcons.
  { rewrite <- string_app_assoc. apply consumed_app. }
  destruct Hks as [(-> & _ & Hnok)|Hk].
  - rewrite str_nil in *. rewrite opt_skip by (apply word_fails, Hnok).
    cbn [groups_in repeat]. rewrite Hcons. cbn [app]. exact Htail.
  - apply opt_take. rewrite word_step by (rewrite Hk; reflexivity).
    rewrite Hcons. cbn [app]. exact Htail.
Qed.

(** ** Texts without a verb *)

Lemma no_verb_no_match {R} (s : string) caps
    (k : string -> list (option string) -> option R) :
  verb_at s = false -> match_here pattern s caps k = None.
Proof.
  unfold verb_at. cbn [existsb]. rewrite !orb_false_iff.
  intros (H1 & H2 & H3 & H4 & H5 & _).
  unfold pattern, verbs. cbn [match_here].
  destruct (after_word "spent" s); [discriminate|].
  destruct (after_word "paid" s); [discriminate|].
  destruct (after_word "gave" s); [discriminate|].
  destruct (after_word "got" s); [discriminate|].
  destruct (after_word "received" s); [discriminate|].
  reflexivity.
Qed.

Lemma search_no_verb (text : string) :
  mentions_verb text = false -> search pattern text = None.
Proof.
  induction text as [|c text IH]; intros H.
  - reflexivity.
  - cbn [mentions_verb] in H. apply orb_false_iff in H as [Hv Hrest].
    cbn [search]. rewrite no_verb_no_match by exact Hv. apply IH, Hrest.
Qed.

(** ** What follows the amount *)

Lemma blank_inv s : blank s = true -> s <> "" /\ all_chars py_isspace s = true.
Proof.
  unfold blank. intros H. apply andb_true_iff in H as [Hne Hall].
  split; [|exact Hall]. intros ->. discriminate.
Qed.

Lemma amount_text_inv s :
  amount_text s = true -> s <> "" /\ all_chars amount_char s = true.
Proof.
  unfold amount_text. intros H. apply andb_true_iff in H as [Hne Hall].
  split; [|exact Hall]. intros ->. discriminate.
Qed.

Lemma one_line_inv s :
  one_line s = true ->
  s <> "" /\ all_chars not_newline s = true /\ stops py_isspace s = true.
Proof.
  unfold one_line. intros H. apply andb_true_iff in H as [H Hst].
  apply andb_true_iff in H as [Hne Hall].
  repeat split; try assumption. intros ->. discriminate.
Qed.

Lemma alt_left {R} (r1 r2 : regex) (s : string) caps
    (k : string -> list (option string) -> option R) (x : R) :
  match_here r1 s caps k = Some x -> match_here (Alt r1 r2) s caps k = Some x.
Proof. intros H. cbn [match_here]. rewrite H. reflexivity. Qed.

Lemma alt_right {R} (r1 r2 : regex) (s : string) caps
    (k : string -> list (option string) -> option R) :
  match_here r1 s caps k = None ->
  match_here (Alt r1 r2) s caps k = match_here r2 s caps k.
Proof. intros H. cbn [match_here]. rewrite H. reflexivity. Qed.

(** [(.+)] at the end of the pattern takes a whole line. *)
Lemma description_step (d : string) (caps : list (option string)) :
  d <> "" -> all_chars not_newline d = true ->
  match_here (Group (Seq (Char not_newline) (Star not_newline))) d caps
             (fun _ caps' => Some caps')
  = Some (caps ++ [Some d]).
Proof.
  intros Hne Hall. rewrite group_step.
  pose proof (plus_take not_newline d "" caps
                (fun s' caps' => Some (caps' ++ [Some (consumed (d ++ "") s')]))
                (caps ++ [Some d]) Hne Hall eq_refl) as H.
  cbv beta in H. rewrite (consumed_app d "") in H.
  rewrite string_app_nil_r in H. apply H. reflexivity.
Qed.

(** A letter is neither white space nor part of an amount. *)
Lemma letter_stops c :
  is_alpha (lower_ascii c) = true -> py_isspace c = false /\ amount_char c = false.
Proof. destruct c as [[] [] [] [] [] [] [] []]; cbv; intuition congruence. Qed.

Lemma stops_letter (p : ascii -> bool) (w rest : string) c w' :
  lower w = String c w' -> is_alpha c = true ->
  stops py_isspace (w ++ rest) = true /\ stops amount_char (w ++ rest) = true.
Proof.
  intros Hw Hc. destruct w as [|a w]; [discriminate|]. rewrite str_cons.
  simpl in Hw. injection Hw as Ha _. subst c.
  apply letter_stops in Hc as [H1 H2]. simpl. rewrite H1, H2. split; reflexivity.
Qed.

(** [\s*(?:on|for)?\s*(.+)] on white space, a preposition, white space
    and a line. *)
Lemma pattern_end_preposition (ws prep ws' d : string) (caps : list (option string)) :
  all_chars py_isspace ws = true ->
  among (lower prep) ["on"; "for"] = true ->
  all_chars py_isspace ws' = true ->
  one_line d = true ->
  match_here pattern_end (ws ++ prep ++ ws' ++ d) caps (fun _ caps' => Some caps')
  = Some (caps ++ [Some d]).
Proof.
  intros Hws Hprep Hws' Hd. apply one_line_inv in Hd as (Hne & Hall & Hst).
  unfold among in Hprep. cbn [existsb] in Hprep.
  rewrite !orb_true_iff, !String.eqb_eq in Hprep.
  assert (stops py_isspace (prep ++ ws' ++ d) = true) as Hstop.
  { destruct Hprep as [H|[H|H]]; [| |discriminate H];
      eapply (stops_letter py_isspace); try exact H; reflexivity. }
  unfold pattern_end. rewrite seq_step.
  apply (star_step py_isspace ws); [exact Hws|exact Hstop|].
  rewrite seq_step. apply opt_take.
  assert (match_here (Seq (Star py_isspace)
                          (Group (Seq (Char not_newline) (Star not_newline))))
                     (ws' ++ d) caps (fun _ caps' => Some caps')
          = Some (caps ++ [Some d])) as Hrest.
  { rewrite seq_step. apply (star_step py_isspace ws'); [exact Hws'|exact Hst|].
    apply description_step; assumption. }
  destruct Hprep as [H|[H|H]]; [| |discriminate H].
  - apply alt_left. rewrite word_step by (rewrite H; reflexivity). exact Hrest.
  - rewrite alt_right
      by (apply word_fails, after_word_lower_None; rewrite H; reflexivity).
    rewrite word_step by (rewrite H; reflexivity). exact Hrest.
Qed.

Lemma after_word_longer (w w' s : string) :
  after_word w s = None -> after_word (w ++ w') s = None.
Proof.
  revert s. induction w as [|a w IH]; intros s H; [discriminate|].
  rewrite str_cons. destruct s as [|c s]; [reflexivity|]. simpl in *.
  destruct (Ascii.eqb (lower_ascii c) (lower_ascii a)); [apply IH, H|reflexivity].
Qed.

Lemma currency_step {R} (s : string) caps
    (k : string -> list (option string) -> option R) :
  after_word "usd" s = None -> after_word "dollar" s = None ->
  match_here (Opt (Group currency_words)) s caps k = k s (caps ++ [None]).
Proof.
  intros H1 H2. apply opt_skip. rewrite group_step. unfold currency_words.
  rewrite alt_right by (apply word_fails, H1).
  rewrite alt_right by (apply word_fails, H2).
  apply word_fails. apply (after_word_longer "dollar" "s"), H2.
Qed.

(** No currency word: white space, a preposition, white space and a
    line. *)
Lemma pattern_tail_preposition (ws prep ws' d : string) (caps : list (option string)) :
  all_chars py_isspace ws = true ->
  among (lower prep) ["on"; "for"] = true ->
  all_chars py_isspace ws' = true ->
  one_line d = true ->
  match_here pattern_tail (ws ++ prep ++ ws' ++ d) caps (fun _ caps' => Some caps')
  = Some (caps ++ [None; Some d]).
Proof.
  intros Hws Hprep Hws' Hd.
  pose proof (pattern_end_preposition "" prep ws' d (caps ++ [None])
                eq_refl Hprep Hws' Hd) as Hend.
  rewrite str_nil, <- app_assoc in Hend. cbn [app] in Hend.
  unfold among in Hprep. cbn [existsb] in Hprep.
  rewrite !orb_true_iff, !String.eqb_eq in Hprep.
  change pattern_tail with
    (Seq (Star py_isspace) (Seq (Opt (Group currency_words)) pattern_end)).
  rewrite seq_step. apply (star_step py_isspace ws); [exact Hws| |].
  { destruct Hprep as [H|[H|H]]; [| |discriminate H];
      eapply (stops_letter py_isspace); try exact H; reflexivity. }
  rewrite seq_step, currency_step; [exact Hend| |];
    destruct Hprep as [H|[H|H]]; try discriminate H;
    apply after_word_lower_None; rewrite H; reflexivity.
Qed.

(** [usd] or [dollar], then white space, a preposition, white space and a
    line. *)
Lemma pattern_tail_currency (ws cur ws1 prep ws2 d : string)
    (caps : list (option string)) :
  all_chars py_isspace ws = true ->
  among (lower cur) ["usd"; "dollar"] = true ->
  all_chars py_isspace ws1 = true ->
  among (lower prep) ["on"; "for"] = true ->
  all_chars py_isspace ws2 = true ->
  one_line d = true ->
  match_here pattern_tail (ws ++ cur ++ ws1 ++ prep ++ ws2 ++ d) caps
             (fun _ caps' => Some caps')
  = Some (caps ++ [Some cur; Some d]).
Proof.
  intros Hws Hcur Hws1 Hprep Hws2 Hd.
  pose proof (pattern_end_preposition ws1 prep ws2 d (caps ++ [Some cur])
                Hws1 Hprep Hws2 Hd) as Hend.
  rewrite <- app_assoc in Hend. cbn [app] in Hend.
  unfold among in Hcur. cbn [existsb] in Hcur.
  rewrite !orb_true_iff, !String.eqb_eq in Hcur.
  change pattern_tail with
    (Seq (Star py_isspace) (Seq (Opt (Group currency_words)) pattern_end)).
  rewrite seq_step. apply (star_step py_isspace ws); [exact Hws| |].
  { destruct Hcur as [H|[H|H]]; [| |discriminate H];
      eapply (stops_letter py_isspace); try exact H; reflexivity. }
  rewrite seq_step. apply opt_take. rewrite group_step. unfold currency_words.
  destruct Hcur as [H|[H|H]]; [| |discriminate H].
  - apply alt_left. rewrite word_step by (rewrite H; reflexivity).
    rewrite consumed_app. exact Hend.
  - rewrite alt_right
      by (apply word_fails, after_word_lower_None; rewrite H; reflexivity).
    apply alt_left. rewrite word_step by (rewrite H; reflexivity).
    rewrite consumed_app. exact Hend.
Qed.

(** [dollars]: the pattern is satisfied with [dollar], and the description
    starts at the letter after it. *)
Lemma pattern_tail_dollars (ws w s1 rest : string) (caps : list (option string)) :
  all_chars py_isspace ws = true ->
  lower w = "dollar" -> lower s1 = "s" ->
  all_chars not_newline rest = true ->
  match_here pattern_tail (ws ++ w ++ s1 ++ rest) caps (fun _ caps' => Some caps')
  = Some (caps ++ [Some w; Some (s1 ++ rest)%string]).
Proof.
  intros Hws Hw Hs Hrest.
  change pattern_tail with
    (Seq (Star py_isspace) (Seq (Opt (Group currency_words)) pattern_end)).
  rewrite seq_step. apply (star_step py_isspace ws); [exact Hws| |].
  { eapply (stops_letter py_isspace); [exact Hw|reflexivity]. }
  rewrite seq_step. apply opt_take. rewrite group_step. unfold currency_words.
  rewrite alt_right
    by (apply word_fails, after_word_lower_None; rewrite Hw; reflexivity).
  apply alt_left. rewrite word_step by (rewrite Hw; reflexivity).
  rewrite consumed_app. unfold pattern_end.
  assert (stops py_isspace (s1 ++ rest) = true) as Hstop.
  { eapply (stops_letter py_isspace); [exact Hs|reflexivity]. }
  rewrite seq_step. cbn [match_here]. rewrite star_none by exact Hstop.
  rewrite (after_word_lower_None "on" s1) by (rewrite Hs; reflexivity).
  rewrite (after_word_lower_None "for" s1) by (rewrite Hs; reflexivity).
  rewrite star_none by exact Hstop.
  cbn [groups_in repeat Nat.add]. rewrite app_nil_r.
  assert (s1 ++ rest <> "")%string as Hne.
  { destruct s1; [discriminate|]. rewrite str_cons. discriminate. }
  assert (all_chars not_newline (s1 ++ rest) = true) as Hall.
  { destruct s1 as [|c [|c' s1]]; try discriminate. rewrite str_cons, str_nil.
    simpl in Hs |- *. injection Hs as Hc. rewrite Hrest, andb_true_r.
    destruct c as [[] [] [] [] [] [] [] []]; try discriminate; reflexivity. }
  pose proof (description_step _ (caps ++ [Some w]) Hne Hall) as Hd.
  rewrite group_step in Hd. rewrite <- app_assoc in Hd. exact Hd.
Qed.

(** ** [fallback_parser] on sentences *)

Lemma search_head (r : regex) (text : string) (caps : list (option string)) :
  match_here r text [] (fun _ caps' => Some caps') = Some caps ->
  search r text = Some caps.
Proof. intros H. destruct text; cbn [search]; rewrite H; reflexivity. Qed.

Lemma lower_app (a b : string) : lower (a ++ b) = (lower a ++ lower b)%string.
Proof.
  induction a as [|c a IH]; rewrite ?str_cons, ?str_nil; [reflexivity|].
  simpl. rewrite IH, str_cons. reflexivity.
Qed.

Lemma replace_char_app old new (a b : string) :
  replace_char old new (a ++ b)
  = (replace_char old new a ++ replace_char old new b)%string.
Proof.
  induction a as [|c a IH]; rewrite ?str_cons, ?str_nil; [reflexivity|].
  simpl. rewrite IH. destruct (Ascii.eqb c old).
  - rewrite string_app_assoc. reflexivity.
  - rewrite str_cons. reflexivity.
Qed.

Lemma amount_lower (num : string) : all_chars amount_char num = true -> lower num = num.
Proof.
  induction num as [|c num IH]; [reflexivity|]. simpl. intros H.
  apply andb_true_iff in H as [Hc H]. rewrite (amount_char_plain c Hc), (IH H).
  reflexivity.
Qed.

Lemma amount_without_k (num : string) :
  all_chars amount_char num = true -> replace_char "k" "000" num = num.
Proof.
  induction num as [|c num IH]; [reflexivity|]. simpl. intros H.
  apply andb_true_iff in H as [Hc H]. rewrite (amount_char_not_k c Hc), (IH H).
  reflexivity.
Qed.

(** What [fallback_parser] hands to [float]. *)
Lemma amount_str_float_text (num ks : string) :
  all_chars amount_char num = true -> ks = "" \/ lower ks = "k" ->
  replace_char "," "" (replace_char "k" "000" (lower (num ++ ks)))
  = float_text num ks.
Proof.
  intros Hnum Hks. unfold float_text.
  rewrite lower_app, !replace_char_app, (amount_lower num Hnum),
    (amount_without_k num Hnum).
  f_equal. destruct Hks as [->|Hk]; [reflexivity|]. rewrite Hk.
  destruct ks; [discriminate|]. reflexivity.
Qed.

Lemma space_not_amount c :
  py_isspace c = true ->
  amount_char c = false /\ Ascii.eqb (lower_ascii c) "k" = false.
Proof. destruct c as [[] [] [] [] [] [] [] []]; cbv; intuition congruence. Qed.

(** The amount ends where white space or a word other than [k] begins. *)
Lemma amount_ends (ws w rest : string) c w' :
  all_chars py_isspace ws = true ->
  lower w = String c w' -> is_alpha c = true -> Ascii.eqb c "k" = false ->
  stops amount_char (ws ++ w ++ rest) = true
  /\ after_word "k" (ws ++ w ++ rest) = None.
Proof.
  intros Hws Hw Hc Hk. destruct ws as [|a ws]; rewrite ?str_cons, ?str_nil.
  - destruct w as [|b w]; [discriminate|]. rewrite str_cons. simpl in Hw.
    injection Hw as Hb _. subst c. apply letter_stops in Hc as [_ Hc].
    simpl. rewrite Hc.
    change (lower_ascii "k") with "k"%char. rewrite Hk. split; reflexivity.
  - simpl in Hws. apply andb_true_iff in Hws as [Ha _].
    apply space_not_amount in Ha as [Ha1 Ha2]. simpl. rewrite Ha1.
    change (lower_ascii "k") with "k"%char. rewrite Ha2. split; reflexivity.
Qed.

Lemma lstrip_stops (d : string) : stops py_isspace d = true -> lstrip d = d.
Proof.
  destruct d as [|c d]; [reflexivity|]. simpl. intros H.
  apply negb_true_iff in H. rewrite H. reflexivity.
Qed.

(** The candidate [fallback_parser] builds from the groups of a match. *)
Lemma fallback_parser_groups py_float (text v num ks d : string)
    (cur : option string) (amount : float) :
  search pattern text = Some [Some v; Some (num ++ ks)%string; cur; Some d] ->
  all_chars amount_char num = true -> ks = "" \/ lower ks = "k" ->
  py_float (float_text num ks) = Some amount ->
  fallback_parser py_float text
  = Ok [Draft.mk (type_of_verb v) amount "Other" (strip d)
          (Some (if truthy cur
                    && among (lower (default "" cur)) ["usd"; "dollar"; "dollars"]
                 then "USD" else "UZS"))
          None None].
Proof.
  intros Hs Hnum Hks Hf. unfold fallback_parser. rewrite Hs.
  cbn [group nth default]. unfold id.
  rewrite (amount_str_float_text num ks Hnum Hks), Hf.
  reflexivity.
Qed.

(** X17. A text of ASCII characters in which none of the words spent,
    paid, gave, got, received occurs, in whatever case, gives no
    candidate: [fallback_parser] returns the empty list, whatever
    [float] does.  The bot's own example of a debt, lent 100k to Aziz, is
    such a text. *)
Theorem fallback_needs_a_verb (py_float : string -> option float) (text : string) :
  isascii text = true -> mentions_verb text = false ->
  fallback_parser py_float text = Ok [].
Proof.
  intros _ H. unfold fallback_parser. rewrite (search_no_verb text H). reflexivity.
Qed.

Lemma fallback_needs_a_verb_witness :
  fallback_parser sample_float "lent 100k to Aziz" = Ok [].
Proof.
  apply (fallback_needs_a_verb sample_float "lent 100k to Aziz"); reflexivity.
Defined.

(** X18. A sentence made of a verb of the pattern (in any case), white
    space, an amount of digits, commas and dots with or without the suffix
    k, a preposition on or for, and a one-line description in ASCII gives
    one candidate: its type is expense for spent, paid, gave and income for
    got, received; its amount is [float] of the digits without their
    commas, followed by 000 when the suffix is there (so 1.5k reads as
    1.5000); its category is Other, its currency UZS, and its description
    is the stripped text after the preposition. *)
Theorem fallback_reads_sentence (py_float : string -> option float)
    (v ws1 num ks ws2 prep ws3 d : string) (amount : float) :
  among (lower v) the_verbs = true ->
  blank ws1 = true -> amount_text num = true -> ks = "" \/ lower ks = "k" ->
  all_chars py_isspace ws2 = true ->
  among (lower prep) ["on"; "for"] = true ->
  all_chars py_isspace ws3 = true ->
  one_line d = true -> isascii d = true ->
  py_float (float_text num ks) = Some amount ->
  fallback_parser py_float (v ++ ws1 ++ num ++ ks ++ ws2 ++ prep ++ ws3 ++ d)
  = Ok [Draft.mk (type_of_verb v) amount "Other" (strip d) (Some "UZS") None None].
Proof.
  intros Hv Hws1 Hnum Hks Hws2 Hprep Hws3 Hd _ Hf.
  apply blank_inv in Hws1 as [Hws1 Hws1'].
  apply amount_text_inv in Hnum as [Hnum Hnum'].
  apply (fallback_parser_groups py_float _ v num ks d None amount);
    try assumption.
  apply search_head, pattern_head; try assumption.
  - destruct Hks as [->|Hk]; [left|right; exact Hk]. split; [reflexivity|].
    unfold among in Hprep. cbn [existsb] in Hprep.
    rewrite !orb_true_iff, !String.eqb_eq in Hprep.
    destruct Hprep as [H|[H|H]]; [| |discriminate H];
      eapply amount_ends; try exact H; try exact Hws2; reflexivity.
  - apply (pattern_tail_preposition ws2 prep ws3 d); assumption.
Qed.

Lemma fallback_reads_sentence_witness :
  fallback_parser sample_float "Spent 50k on food "
  = Ok [Draft.mk "expense" 50000 "Other" "food" (Some "UZS") None None]
  /\ fallback_parser sample_float "got 1.5K for  the report"
     = Ok [Draft.mk "income" 1.5 "Other" "the report" (Some "UZS") None None].
Proof.
  split.
  - apply (fallback_reads_sentence sample_float "Spent" " " "50" "k" " " "on" " "
             "food " 50000); try reflexivity. right. reflexivity.
  - apply (fallback_reads_sentence sample_float "got" " " "1.5" "K" " " "for" "  "
             "the report" 1.5); try reflexivity. right. reflexivity.
Defined.

(** X19. The same sentence with the word usd or dollar (in any case)
    between the amount and the preposition gives the same candidate in
    USD. *)
Theorem fallback_reads_dollar_sentence (py_float : string -> option float)
    (v ws1 num ks ws2 cur ws3 prep ws4 d : string) (amount : float) :
  among (lower v) the_verbs = true ->
  blank ws1 = true -> amount_text num = true -> ks = "" \/ lower ks = "k" ->
  all_chars py_isspace ws2 = true ->
  among (lower cur) ["usd"; "dollar"] = true ->
  all_chars py_isspace ws3 = true ->
  among (lower prep) ["on"; "for"] = true ->
  all_chars py_isspace ws4 = true ->
  one_line d = true -> isascii d = true ->
  py_float (float_text num ks) = Some amount ->
  fallback_parser py_float
    (v ++ ws1 ++ num ++ ks ++ ws2 ++ cur ++ ws3 ++ prep ++ ws4 ++ d)
  = Ok [Draft.mk (type_of_verb v) amount "Other" (strip d) (Some "USD") None None].
Proof.
  intros Hv Hws1 Hnum Hks Hws2 Hcur Hws3 Hprep Hws4 Hd _ Hf.
  apply blank_inv in Hws1 as [Hws1 Hws1'].
  apply amount_text_inv in Hnum as [Hnum Hnum'].
  assert (truthy (Some cur)
          && among (lower (default "" (Some cur))) ["usd"; "dollar"; "dollars"]
          = true) as Htrue.
  { unfold among in Hcur |- *. cbn [existsb default] in Hcur |- *. unfold id.
    rewrite !orb_true_iff, !String.eqb_eq in Hcur.
    destruct Hcur as [H|[H|H]]; [| |discriminate H]; rewrite H;
      destruct cur; try discriminate; reflexivity. }
  rewrite (fallback_parser_groups py_float _ v num ks d (Some cur) amount);
    try assumption.
  - rewrite Htrue. reflexivity.
  - apply search_head, pattern_head; try assumption.
    + destruct Hks as [->|Hk]; [left|right; exact Hk]. split; [reflexivity|].
      unfold among in Hcur. cbn [existsb] in Hcur.
      rewrite !orb_true_iff, !String.eqb_eq in Hcur.
      destruct Hcur as [H|[H|H]]; [| |discriminate H];
        eapply amount_ends; try exact H; try exact Hws2; reflexivity.
    + apply (pattern_tail_currency ws2 cur ws3 prep ws4 d); assumption.
Qed.

Lemma fallback_reads_dollar_sentence_witness :
  fallback_parser sample_float "paid 20 USD for lunch"
  = Ok [Draft.mk "expense" 20 "Other" "lunch" (Some "USD") None None]
  /\ fallback_parser sample_float "Received 20 dollar on Monday"
     = Ok [Draft.mk "income" 20 "Other" "Monday" (Some "USD") None None].
Proof.
  split.
  - apply (fallback_reads_dollar_sentence sample_float "paid" " " "20" "" " " "USD"
             " " "for" " " "lunch" 20); try reflexivity. left. reflexivity.
  - apply (fallback_reads_dollar_sentence sample_float "Received" " " "20" "" " "
             "dollar" " " "on" " " "Monday" 20); try reflexivity. left. reflexivity.
Defined.

(** X20. With the plural dollars after the amount the pattern stops at
    dollar: the candidate is in USD, and its description is the letter s
    of the plural with all that follows on the line, stripped, the
    preposition included. *)
Theorem fallback_plural_dollars (py_float : string -> option float)
    (v ws1 num ks ws2 w s1 rest : string) (amount : float) :
  among (lower v) the_verbs = true ->
  blank ws1 = true -> amount_text num = true -> ks = "" \/ lower ks = "k" ->
  all_chars py_isspace ws2 = true ->
  lower w = "dollar" -> lower s1 = "s" ->
  all_chars not_newline rest = true -> isascii rest = true ->
  py_float (float_text num ks) = Some amount ->
  fallback_parser py_float (v ++ ws1 ++ num ++ ks ++ ws2 ++ w ++ s1 ++ rest)
  = Ok [Draft.mk (type_of_verb v) amount "Other" (strip (s1 ++ rest))
                 (Some "USD") None None].
Proof.
  intros Hv Hws1 Hnum Hks Hws2 Hw Hs Hrest _ Hf.
  apply blank_inv in Hws1 as [Hws1 Hws1'].
  apply amount_text_inv in Hnum as [Hnum Hnum'].
  assert (truthy (Some w)
          && among (lower (default "" (Some w))) ["usd"; "dollar"; "dollars"]
          = true) as Htrue.
  { cbn [default]. unfold id. rewrite Hw. destruct w; [discriminate|]. reflexivity. }
  rewrite (fallback_parser_groups py_float _ v num ks (s1 ++ rest) (Some w) amount);
    try assumption.
  - rewrite Htrue. reflexivity.
  - apply search_head, pattern_head; try assumption.
    + destruct Hks as [->|Hk]; [left|right; exact Hk]. split; [reflexivity|].
      eapply amount_ends; try exact Hw; try exact Hws2; reflexivity.
    + apply (pattern_tail_dollars ws2 w s1 rest); assumption.
Qed.

Lemma fallback_plural_dollars_witness :
  fallback_parser sample_float "spent 20 dollars on food"
  = Ok [Draft.mk "expense" 20 "Other" "s on food" (Some "USD") None None].
Proof.
  apply (fallback_plural_dollars sample_float "spent" " " "20" "" " " "dollar" "s"
           " on food" 20); try reflexivity. left. reflexivity.
Defined.

(** ** Text messages *)

Lemma add_loop_keys user_id now ds :
  forall balances ids s res s',
    add_loop user_id now ds balances ids s = Ok (res, s') ->
    forall c, is_Some (fst res !! c) <-> is_Some (balances !! c).
Proof.
  induction ds as [|d ds IH]; intros balances ids s res s' Hrun c.
  - simpl in Hrun. unfold ret in Hrun. injection Hrun as <- _. reflexivity.
  - rewrite add_loop_cons in Hrun.
    destruct (draft_effect d) as [op|]; [|eapply IH; eassumption].
    destruct (balances !! draft_currency d) as [b|] eqn:Eb; [|discriminate].
    destruct (insert_transaction _ _ _ _ _ _ _ _ _ _ s) as [[i s1]|e];
      [|discriminate].
    rewrite (IH _ _ _ _ _ Hrun c).
    destruct (decide (draft_currency d = c)) as [<-|Hne].
    + rewrite lookup_insert_eq, Eb. split; eauto.
    + rewrite lookup_insert_ne by exact Hne. reflexivity.
Qed.

(** The dictionary the insert returns has both keys. *)
Lemma add_multiple_transactions_keys user_id now ds s s' balances ids :
  add_multiple_transactions user_id now ds s = (s', Ok (balances, ids)) ->
  exists uzs usd, balances !! "UZS" = Some uzs /\ balances !! "USD" = Some usd.
Proof.
  intros Hadd. unfold add_multiple_transactions, transact in Hadd.
  destruct (add_loop _ _ _ _ _ s) as [[res s1]|e] eqn:E; [|discriminate].
  injection Hadd as _ Hres. subst res.
  pose proof (add_loop_keys _ _ _ _ _ _ _ _ E) as Hkeys. simpl in Hkeys.
  destruct (proj2 (Hkeys "UZS")) as [uzs Huzs];
    [rewrite initial_balances_lookup by (left; reflexivity); eauto|].
  destruct (proj2 (Hkeys "USD")) as [usd Husd];
    [rewrite initial_balances_lookup by (right; reflexivity); eauto|].
  eauto.
Qed.

(** A batch without a valid candidate is passed over. *)
Lemma add_loop_skips user_id now ds :
  List.filter valid_type ds = [] ->
  forall balances ids s,
    add_loop user_id now ds balances ids s = Ok ((balances, ids), s).
Proof.
  induction ds as [|d ds IH]; intros Hnone balances ids s; [reflexivity|].
  simpl in Hnone. rewrite add_loop_cons. rewrite draft_effect_valid in Hnone.
  destruct (draft_effect d); [discriminate|]. apply IH, Hnone.
Qed.

(** What the handler does once it has candidates. *)
Lemma process_candidates fmt text_to_transactions py_float text user_id now s ds :
  candidates_of text_to_transactions py_float text = Ok ds -> ds <> [] ->
  process_natural_language_text fmt text_to_transactions py_float text user_id now s
  = match add_multiple_transactions user_id now ds s with
    | (s', Raise e) => (s', Raise e)
    | (s', Ok (new_balances, new_ids)) =>
        (s', Ok (MarkdownV2
                   (logged_text fmt ds (default 0%float (new_balances !! "UZS"))
                                (default 0%float (new_balances !! "USD")))
                   match new_ids with
                   | [i] => Some [[undo_button i]]
                   | _ => None
                   end))
    end.
Proof.
  intros Hc Hne. unfold process_natural_language_text.
  unfold candidates_of in Hc. rewrite Hc.
  destruct ds as [|d ds]; [contradiction|].
  destruct (add_multiple_transactions user_id now (d :: ds) s)
    as [s' [[new_balances new_ids]|e]] eqn:E; [|reflexivity].
  apply add_multiple_transactions_keys in E as (uzs & usd & -> & ->). reflexivity.
Qed.

(** X21. When the language model answers with candidates none of which
    has the type expense or income (in any case), the handler stores
    nothing and still replies that the transaction was logged: the reply
    is the text for these candidates, headed by the line for one or
    several logged transactions, with the balances the user had before, and
    without an Undo button. *)
Theorem unstored_candidates_are_announced (fmt : formats)
    (text_to_transactions : string -> list Draft.t)
    (py_float : string -> option float) (text : string) (user_id : Z)
    (now : nat -> string) (s : db) :
  text_to_transactions text <> [] ->
  List.filter valid_type (text_to_transactions text) = [] ->
  process_natural_language_text fmt text_to_transactions py_float text user_id now s
  = (s, Ok (MarkdownV2
              (logged_text fmt (text_to_transactions text)
                           (get_last_balance user_id "UZS" s)
                           (get_last_balance user_id "USD" s))
              None)).
Proof.
  intros Hne Hnone.
  rewrite (process_candidates _ _ _ _ _ _ _ (text_to_transactions text));
    [|unfold candidates_of; destruct (text_to_transactions text);
      [contradiction|reflexivity]|exact Hne].
  unfold add_multiple_transactions, transact.
  rewrite add_loop_skips by exact Hnone.
  rewrite !initial_balances_lookup by (auto). reflexivity.
Qed.

Lemma unstored_candidates_are_announced_witness :
  exists rest,
    process_natural_language_text sample_formats (fun _ => [a_transfer])
      sample_float "moved 9 to savings" 7 (clock_at sept_2) abc_db
    = (abc_db,
       Ok (MarkdownV2 ("✅ Transaction successfully logged:" ++ rest)%string None)).
Proof.
  eexists.
  rewrite (unstored_candidates_are_announced sample_formats (fun _ => [a_transfer])
             sample_float "moved 9 to savings" 7 (clock_at sept_2) abc_db);
    [|discriminate|reflexivity].
  reflexivity.
Defined.

(** The soft delete of the last row of a well-keyed table. *)
Lemma undo_last_row (s s1 : db) (R : Tx.t) (user_id : Z) :
  well_keyed s1 -> transactions s1 = transactions s ++ [R] ->
  Tx.user_id R = user_id -> Tx.is_deleted R = 0 ->
  delete_transaction_and_recalculate user_id (Tx.id R) s1
  = (mkdb (transactions s ++ [Tx.set_is_deleted 1 R]) (sqlite_sequence s1), Ok tt).
Proof.
  intros Hk1 Hrows Hu Hd.
  pose proof (delete_body_run user_id (Tx.id R) s1 (transactions s) R [] Hk1 Hrows
                eq_refl Hu Hd) as Hrun.
  simpl in Hrun. specialize (Hrun (Forall_nil_2 _)).
  unfold delete_transaction_and_recalculate, transact. rewrite Hrun. reflexivity.
Qed.

(** X22. When the reply to a text carries a keyboard, it is the single
    button Undo (60s), and that button undoes the message: pressed by the
    same, registered user on the database the handler left (the table
    being well keyed before), it is answered with the confirmation and one
    commit, after which every balance and every history is what it was
    before the text was sent. *)
Theorem text_undo_round_trip (fmt : formats) (users : gmap Z User.t)
    (text_to_transactions : string -> list Draft.t)
    (py_float : string -> option float) (text : string) (user_id : Z)
    (now : nat -> string) (s s1 : db) (msg : string) (kb : list (list button)) :
  well_keyed s -> is_user_registered user_id users = true ->
  process_natural_language_text fmt text_to_transactions py_float text user_id now s
  = (s1, Ok (MarkdownV2 msg (Some kb))) ->
  exists b s2,
    kb = [[b]] /\ label b = "Undo (60s)"
    /\ (forall later,
          button_handler fmt users user_id (callback_data b) later s1
          = ([s2], Shown Undone))
    /\ (forall u c, get_last_balance u c s2 = get_last_balance u c s)
    /\ (forall u, get_all_transactions u s2 = get_all_transactions u s).
Proof.
  intros Hk Hreg Hrun. unfold process_natural_language_text in Hrun.
  destruct (match text_to_transactions text with
            | [] => fallback_parser py_float text
            | d :: ds => Ok (d :: ds)
            end) as [[|d ds]|e]; try discriminate.
  pose proof (add_multiple_transactions_rows user_id now (d :: ds) s)
    as (news & Hrows & Hinc & Hfresh & Hres).
  destruct (add_multiple_transactions user_id now (d :: ds) s)
    as [s1' [[new_balances new_ids]|e]]; [|discriminate].
  simpl in Hrows, Hinc, Hres. destruct Hres as [Hids _].
  destruct (new_balances !! "UZS"); [|discriminate].
  destruct (new_balances !! "USD"); [|discriminate].
  destruct new_ids as [|i [|i' new_ids]]; try discriminate.
  injection Hrun as -> _ <-.
  destruct news as [|R [|R' news]]; try discriminate.
  injection Hids as Hi. apply List.Forall_inv in Hfresh as (Hu & Hd & _).
  assert (well_keyed s1) as Hk1.
  { unfold well_keyed. rewrite Hrows. eapply well_keyed_app; eassumption. }
  pose proof (undo_last_row s s1 R user_id Hk1 Hrows Hu Hd) as Hundo.
  rewrite <- Hi in Hundo.
  exists (undo_button i),
         (mkdb (transactions s ++ [Tx.set_is_deleted 1 R]) (sqlite_sequence s1)).
  split; [reflexivity|]. split; [reflexivity|]. split; [|split].
  - intros later. unfold undo_button, callback_data.
    rewrite button_handler_undo by exact Hreg. rewrite Hundo. reflexivity.
  - intros u c. unfold get_last_balance. simpl. rewrite filter_active_gone.
    reflexivity.
  - intros u. unfold get_all_transactions. simpl. rewrite List.filter_app. simpl.
    rewrite andb_false_r, app_nil_r. reflexivity.
Qed.

Lemma text_undo_round_trip_witness :
  let out := process_natural_language_text sample_formats no_answer sample_float
               "Spent 50k on food " 7 (clock_at sept_2) abc_db in
  exists b s2,
    [[undo_button 4]] = [[b]] /\ label b = "Undo (60s)"
    /\ (forall later,
          button_handler sample_formats sample_users 7 (callback_data b) later
                         (fst out)
          = ([s2], Shown Undone))
    /\ (forall u c, get_last_balance u c s2 = get_last_balance u c abc_db)
    /\ (forall u, get_all_transactions u s2 = get_all_transactions u abc_db).
Proof.
  intros out.
  eapply (text_undo_round_trip sample_formats sample_users no_answer sample_float
            "Spent 50k on food " 7 (clock_at sept_2) abc_db (fst out)
            match snd out with
            | Ok (MarkdownV2 m _) => m
            | _ => ""
            end).
  - apply abc_db_well_keyed.
  - reflexivity.
  - vm_compute. reflexivity.
Defined.

(** The candidates of [fallback_parser]: at most one, of a type the insert
    stores, in one of the two currencies. *)
Lemma fallback_parser_candidates py_float text ds :
  fallback_parser py_float text = Ok ds ->
  ds = []
  \/ exists d, ds = [d]
       /\ (Draft.type d = "expense" \/ Draft.type d = "income")
       /\ Draft.category d = "Other"
       /\ (Draft.currency d = Some "UZS" \/ Draft.currency d = Some "USD")
       /\ Draft.debtor_name d = None /\ Draft.return_date d = None.
Proof.
  unfold fallback_parser. intros H.
  destruct (search pattern text) as [caps|]; [|left; congruence].
  destruct (py_float _) as [amount|]; [|discriminate].
  injection H as <-. right. eexists. split; [reflexivity|]. simpl.
  split; [match goal with |- context [if ?b then _ else _] => destruct b end; auto|].
  split; [reflexivity|].
  split; [match goal with |- context [if ?b then _ else _] => destruct b end; auto|].
  split; reflexivity.
Qed.

(** X23. A text for which the language model has no answer and the
    fallback has a candidate is stored as exactly one row, and the reply
    offers to undo it: when the handler returns, the table has one more
    row, made from the candidate for the sender, of category Other, in UZS
    or USD, and the keyboard is the Undo button of that row.  When the
    handler fails instead, the database is as before and the exception is
    one of the insert (a column that refuses NaN, or row ids used up),
    never a missing key. *)
Theorem fallback_logs_one_row (fmt : formats)
    (text_to_transactions : string -> list Draft.t)
    (py_float : string -> option float) (text : string) (user_id : Z)
    (now : nat -> string) (s : db) (d : Draft.t) (ds : list Draft.t) :
  text_to_transactions text = [] ->
  fallback_parser py_float text = Ok (d :: ds) ->
  match process_natural_language_text fmt text_to_transactions py_float text
          user_id now s with
  | (s', Ok m) =>
      exists R uzs usd,
        transactions s' = transactions s ++ [R]
        /\ from_draft user_id d R /\ fresh_row user_id R
        /\ Tx.category R = "Other"
        /\ (Tx.currency R = "UZS" \/ Tx.currency R = "USD")
        /\ m = MarkdownV2 (logged_text fmt [d] uzs usd)
                          (Some [[undo_button (Tx.id R)]])
  | (s', Raise e) =>
      s' = s /\ ((exists column, e = IntegrityError column)
                 \/ exists msg, e = OperationalError msg)
  end.
Proof.
  intros Hllm Hfb.
  destruct (fallback_parser_candidates _ _ _ Hfb)
    as [Hnil|(d' & Hd & Hty & Hcat & Hcur & _)]; [discriminate|].
  injection Hd as <- ->.
  rewrite (process_candidates _ _ _ _ _ _ _ [d]);
    [|unfold candidates_of; rewrite Hllm; exact Hfb|discriminate].
  unfold add_multiple_transactions, transact. rewrite add_loop_cons.
  assert (exists op, draft_effect d = Some op) as [op ->].
  { unfold draft_effect. destruct Hty as [-> | ->]; simpl; eauto. }
  assert (draft_currency d = "UZS" \/ draft_currency d = "USD") as Hc.
  { unfold draft_currency. destruct Hcur as [-> | ->]; [left|right]; reflexivity. }
  rewrite (initial_balances_lookup user_id s (draft_currency d) Hc).
  unfold insert_transaction.
  destruct (is_nan (Draft.amount d)); [split; [reflexivity|]; left; eauto|].
  destruct (is_nan (op _ _)); [split; [reflexivity|]; left; eauto|].
  destruct (largest_rowid <? next_rowid s); [split; [reflexivity|]; right; eauto|].
  cbn [add_loop ret app]. eexists _, _, _.
  split; [reflexivity|]. split; [reflexivity|].
  split; [repeat split|]. split; [exact Hcat|]. split; [exact Hc|]. reflexivity.
Qed.

Lemma fallback_logs_one_row_witness :
  match process_natural_language_text sample_formats no_answer sample_float
          "Spent 50k on food " 7 (clock_at sept_2) abc_db with
  | (s', Ok m) =>
      exists R uzs usd,
        transactions s' = transactions abc_db ++ [R]
        /\ from_draft 7 (Draft.mk "expense" 50000 "Other" "food" (Some "UZS") None None) R
        /\ fresh_row 7 R
        /\ Tx.category R = "Other"
        /\ (Tx.currency R = "UZS" \/ Tx.currency R = "USD")
        /\ m = MarkdownV2
                 (logged_text sample_formats
                    [Draft.mk "expense" 50000 "Other" "food" (Some "UZS") None None]
                    uzs usd)
                 (Some [[undo_button (Tx.id R)]])
  | (s', Raise e) =>
      s' = abc_db /\ ((exists column, e = IntegrityError column)
                      \/ exists msg, e = OperationalError msg)
  end.
Proof.
  apply (fallback_logs_one_row sample_formats no_answer sample_float
           "Spent 50k on food " 7 (clock_at sept_2) abc_db _ []); reflexivity.
Defined.

(** The insert appends rows of the caller, or leaves the database alone. *)
Lemma add_multiple_transactions_appends user_id now ds s :
  exists news,
    transactions (fst (add_multiple_transactions user_id now ds s))
    = transactions s ++ news
    /\ Forall (fresh_row user_id) news
    /\ (news = [] -> fst (add_multiple_transactions user_id now ds s) = s)
    /\ (forall e, snd (add_multiple_transactions user_id now ds s) = Raise e ->
                  fst (add_multiple_transactions user_id now ds s) = s).
Proof.
  destruct (add_multiple_transactions_rows user_id now ds s)
    as (news & Hrows & _ & Hfresh & Hres).
  exists news. split; [exact Hrows|]. split; [exact Hfresh|].
  unfold add_multiple_transactions, transact in *.
  destruct (add_loop _ _ _ _ _ s) as [[res s1]|e] eqn:E; simpl in *.
  - split; [|discriminate]. intros ->. destruct res as [bal ids].
    destruct Hres as [Hids _]. eapply add_loop_no_ids; [exact E|exact Hids].
  - split; reflexivity.
Qed.

Lemma process_natural_language_text_appends fmt text_to_transactions py_float
    text user_id now s :
  let out := process_natural_language_text fmt text_to_transactions py_float
               text user_id now s in
  exists news,
    transactions (fst out) = transactions s ++ news
    /\ Forall (fresh_row user_id) news
    /\ (news = [] -> fst out = s)
    /\ (forall e, snd out = Raise e -> fst out = s).
Proof.
  assert (exists news : list Tx.t,
            transactions s = transactions s ++ news
            /\ Forall (fresh_row user_id) news
            /\ (news = [] -> s = s)) as Hsame
    by (exists []; rewrite app_nil_r; repeat split; constructor).
  cbv zeta. unfold process_natural_language_text.
  destruct (match text_to_transactions text with
            | [] => fallback_parser py_float text
            | d :: ds => Ok (d :: ds)
            end) as [[|d ds]|e]; simpl.
  - destruct Hsame as (news & H1 & H2 & H3). exists news. auto.
  - destruct (add_multiple_transactions_appends user_id now (d :: ds) s)
      as (news & Hrows & Hfresh & Hnil & Hraise).
    pose proof (add_multiple_transactions_keys user_id now (d :: ds) s) as Hkeys.
    destruct (add_multiple_transactions user_id now (d :: ds) s)
      as [s' [[new_balances new_ids]|e]]; simpl in *.
    + destruct (Hkeys _ _ _ eq_refl) as (uzs & usd & -> & ->). simpl.
      exists news. repeat split; try assumption. discriminate.
    + exists news. repeat split; try assumption. intros _ _. eapply Hraise.
      reflexivity.
  - destruct Hsame as (news & H1 & H2 & H3). exists news. auto.
Qed.

(** X24. A text message never changes or removes a stored row: the table
    afterwards is the table before, followed by new rows that belong to
    the sender and carry the default flags; when no row is added the
    database is as before.  A sender who has not registered gets the
    request to register and nothing else, and a handler that fails leaves
    the database as before. *)
Theorem text_message_only_appends (fmt : formats) (users : gmap Z User.t)
    (text_to_transactions : string -> list Draft.t)
    (py_float : string -> option float) (user_id : Z) (text : string)
    (now : nat -> string) (s : db) :
  let out := handle_text_message fmt users text_to_transactions py_float
               user_id text now s in
  (exists news,
     transactions (fst out) = transactions s ++ news
     /\ Forall (fresh_row user_id) news
     /\ (news = [] -> fst out = s))
  /\ (is_user_registered user_id users = false -> out = (s, Ok RegistrationRequest))
  /\ (forall e, snd out = Raise e -> fst out = s).
Proof.
  assert (exists news : list Tx.t,
            transactions s = transactions s ++ news
            /\ Forall (fresh_row user_id) news
            /\ (news = [] -> s = s)) as Hsame
    by (exists []; rewrite app_nil_r; repeat split; constructor).
  cbv zeta. unfold handle_text_message, registration_gatekeeper.
  destruct (is_user_registered user_id users); simpl;
    [|split; [exact Hsame|split; [reflexivity|discriminate]]].
  repeat match goal with
         | |- context [if (text =? ?l)%string then _ else _] =>
             destruct (text =? l)%string;
             [simpl; split; [exact Hsame|split; discriminate]|]
         end.
  destruct (process_natural_language_text_appends fmt text_to_transactions
              py_float text user_id now s) as (news & H1 & H2 & H3 & H4).
  split; [exists news; auto|]. split; [discriminate|exact H4].
Qed.

(** ** The bot, event after event *)

Lemma process_natural_language_text_is_add fmt text_to_transactions py_float
    text user_id now s :
  exists ds,
    fst (process_natural_language_text fmt text_to_transactions py_float
           text user_id now s)
    = fst (add_multiple_transactions user_id now ds s).
Proof.
  unfold process_natural_language_text.
  destruct (match text_to_transactions text with
            | [] => fallback_parser py_float text
            | d :: ds => Ok (d :: ds)
            end) as [[|d ds]|e]; try (exists []; reflexivity).
  exists (d :: ds).
  destruct (add_multiple_transactions user_id now (d :: ds) s)
    as [s' [[new_balances new_ids]|e]]; [|reflexivity].
  destruct (new_balances !! "UZS"); [|reflexivity].
  destruct (new_balances !! "USD"); reflexivity.
Qed.

Lemma handle_text_message_is_add fmt users text_to_transactions py_float
    user_id text now s :
  exists ds,
    fst (handle_text_message fmt users text_to_transactions py_float
           user_id text now s)
    = fst (add_multiple_transactions user_id now ds s)
    /\ (ds <> [] -> is_user_registered user_id users = true).
Proof.
  unfold handle_text_message, registration_gatekeeper.
  destruct (is_user_registered user_id users); simpl;
    [|exists []; split; [reflexivity|congruence]].
  repeat match goal with
         | |- context [if (text =? ?l)%string then _ else _] =>
             destruct (text =? l)%string;
             [exists []; split; [reflexivity|congruence]|]
         end.
  destruct (process_natural_language_text_is_add fmt text_to_transactions py_float
              text user_id now s) as [ds Hds].
  exists ds. split; [exact Hds|reflexivity].
Qed.

Lemma handle_voice_message_is_add fmt users text_to_transactions py_float
    user_id transcribed_text now s :
  exists ds,
    fst (handle_voice_message fmt users text_to_transactions py_float
           user_id transcribed_text now s)
    = fst (add_multiple_transactions user_id now ds s)
    /\ (ds <> [] -> is_user_registered user_id users = true).
Proof.
  unfold handle_voice_message, registration_gatekeeper.
  destruct (is_user_registered user_id users); simpl;
    [|exists []; split; [reflexivity|congruence]].
  destruct (transcribed_text =? "")%string;
    [exists []; split; [reflexivity|congruence]|].
  destruct (process_natural_language_text_is_add fmt text_to_transactions py_float
              transcribed_text user_id now s) as [ds Hds].
  exists ds. split; [exact Hds|reflexivity].
Qed.

(** A button is at most one request, made in the name of the user who
    pressed it, and none for a user who has not registered. *)
Lemma button_handler_is_request fmt users user_id query_data now s :
  after_commits s (fst (button_handler fmt users user_id query_data now s)) = s
  \/ is_user_registered user_id users = true
     /\ exists i,
          after_commits s (fst (button_handler fmt users user_id query_data now s))
          = handle s (Undo user_id i)
          \/ after_commits s (fst (button_handler fmt users user_id query_data now s))
             = handle s (DebtPaid user_id i now).
Proof.
  unfold button_handler, registration_gatekeeper.
  destruct (is_user_registered user_id users); simpl; [|left; reflexivity].
  destruct (split_on "_" query_data) as [|action rest]; [left; reflexivity|].
  destruct (action =? "undo")%string.
  { unfold undo_branch. destruct (_ !! 1%nat) as [a|]; [|left; reflexivity].
    destruct (py_int a) as [i|e]; [|left; reflexivity].
    right. split; [reflexivity|]. exists i. left. simpl.
    destruct (delete_transaction_and_recalculate user_id i s) as [s' [u|e]] eqn:E;
      [reflexivity|].
    unfold delete_transaction_and_recalculate, transact in E.
    destruct (delete_body user_id i s) as [[u s1]|e']; [discriminate|].
    injection E as <- _. reflexivity. }
  destruct (action =? "debt")%string.
  { destruct (_ !! 1%nat) as [what|]; [|left; reflexivity].
    destruct (what =? "paid")%string; [|left; reflexivity].
    unfold debt_branch. destruct (_ !! 2%nat) as [a|]; [|left; reflexivity].
    destruct (py_int a) as [i|e]; [|left; reflexivity].
    right. split; [reflexivity|]. exists i. right. simpl.
    destruct (debt_paid user_id i now s) as [commits [r|e]]; reflexivity. }
  destruct (action =? "summary")%string; [left; reflexivity|].
  destruct (action =? "history")%string; left; reflexivity.
Qed.

Lemma run_app qs1 qs2 s : run (qs1 ++ qs2) s = run qs2 (run qs1 s).
Proof. unfold run. apply fold_left_app. Qed.

Lemma dispatch_is_run fmt py_float b e :
  exists qs, bot_db (dispatch fmt py_float b e) = run qs (bot_db b).
Proof.
  destruct e as [u|u n c p t|u text answer now|u text answer now|u data now|today d];
    simpl.
  - exists []. reflexivity.
  - exists []. reflexivity.
  - destruct (handle_text_message_is_add fmt (bot_users b) (fun _ => answer)
                py_float u text now (bot_db b)) as (ds & -> & _).
    exists [Add u now ds]. reflexivity.
  - destruct (handle_voice_message_is_add fmt (bot_users b) (fun _ => answer)
                py_float u text now (bot_db b)) as (ds & -> & _).
    exists [Add u now ds]. reflexivity.
  - destruct (button_handler_is_request fmt (bot_users b) u data now (bot_db b))
      as [->|(_ & i & [-> | ->])].
    + exists []. reflexivity.
    + exists [Undo u i]. reflexivity.
    + exists [DebtPaid u i now]. reflexivity.
  - exists [DueScan today d]. reflexivity.
Qed.

Lemma bot_run_is_run fmt py_float events :
  forall b, exists qs, bot_db (bot_run fmt py_float events b) = run qs (bot_db b).
Proof.
  induction events as [|e events IH]; intros b; simpl.
  - exists []. reflexivity.
  - destruct (IH (dispatch fmt py_float b e)) as [qs2 H2].
    destruct (dispatch_is_run fmt py_float b e) as [qs1 H1].
    exists (qs1 ++ qs2). rewrite run_app, <- H1. exact H2.
Qed.

(** X25. Whatever events the bot handles, one at a time, from a new
    database (commands, contacts, texts and voice messages with any answer
    of the language model, buttons with any callback data, the hourly
    job), its table is one that a sequence of the four requests of the
    ledger reaches.  So ids ascend in the table, in every stream each
    stored balance is the balance before it with the amount added or
    subtracted, and every row is one the program could have written. *)
Theorem bot_ledger_is_reached_by_requests (fmt : formats)
    (py_float : string -> option float) (events : list event) :
  let s := bot_db (bot_run fmt py_float events new_bot) in
  (exists qs, s = run qs init_db)
  /\ ledger_ok s
  /\ Forall row_sound (transactions s).
Proof.
  cbv zeta. destruct (bot_run_is_run fmt py_float events new_bot) as [qs Hqs].
  simpl in Hqs. rewrite Hqs. split; [eauto|]. split.
  - apply run_ledger_ok, init_db_ledger_ok.
  - apply run_sound. constructor.
Qed.

(** ** Whose rows are stored *)

Section Owners.

Variable U : Z -> Prop.

Let owned (s : db) : Prop := Forall (fun r => U (Tx.user_id r)) (transactions s).

Lemma owned_update i f s :
  (forall r, Tx.user_id (f r) = Tx.user_id r) -> owned s ->
  owned (mkdb (update_where_id i f (transactions s)) (sqlite_sequence s)).
Proof.
  intros Hf Hs. unfold owned in *. simpl. unfold update_where_id.
  apply List.Forall_map. eapply List.Forall_impl; [|exact Hs].
  intros r Hr. simpl. destruct (Tx.id r =? i); [rewrite Hf|]; exact Hr.
Qed.

Lemma owned_recalculate subsequent :
  forall cb s res s',
    owned s -> recalculate subsequent cb s = Ok (res, s') -> owned s'.
Proof.
  induction subsequent as [|[[i ty] a] rest IH]; intros cb s res s' Hs Hrun.
  - simpl in Hrun. unfold ret in Hrun. injection Hrun as _ <-. exact Hs.
  - simpl in Hrun. unfold bind, update_balance in Hrun.
    match type of Hrun with context [is_nan ?b] => set (b0 := b) in * end.
    destruct (existsb _ _ && is_nan b0); [discriminate|].
    eapply IH; [|exact Hrun]. apply owned_update; [reflexivity|exact Hs].
Qed.

Lemma owned_delete user_id transaction_id s :
  owned s -> owned (fst (delete_transaction_and_recalculate user_id transaction_id s)).
Proof.
  intros Hs. unfold delete_transaction_and_recalculate, transact.
  destruct (delete_body user_id transaction_id s) as [[res s']|e] eqn:E;
    simpl; [|exact Hs].
  unfold delete_body in E. destruct (own_row _ _ _); [|discriminate].
  unfold bind, update_is_deleted in E.
  eapply owned_recalculate; [|exact E]. apply owned_update; [reflexivity|exact Hs].
Qed.

Lemma owned_add user_id now ds s :
  (ds <> [] -> U user_id) -> owned s ->
  owned (fst (add_multiple_transactions user_id now ds s)).
Proof.
  intros Hu Hs. destruct ds as [|d ds]; [exact Hs|].
  destruct (add_multiple_transactions_rows user_id now (d :: ds) s)
    as (news & Hrows & _ & Hfresh & _).
  unfold owned. rewrite Hrows. apply List.Forall_app. split; [exact Hs|].
  eapply List.Forall_impl; [|exact Hfresh].
  intros r (-> & _). apply Hu. discriminate.
Qed.

Lemma owned_handle q s :
  match q with
  | Add user_id _ ds => ds <> [] -> U user_id
  | DebtPaid user_id _ _ => U user_id
  | Undo _ _ | DueScan _ _ => True
  end ->
  owned s -> owned (handle s q).
Proof.
  intros Hu Hs.
  destruct q as [user_id now ds|user_id i|user_id i now|today_str delivered]; simpl.
  - apply owned_add; assumption.
  - apply owned_delete, Hs.
  - unfold debt_paid. destruct (own_row _ _ _) as [D|]; [|exact Hs].
    destruct (Tx.debt_status D =? "open")%string; [|exact Hs].
    pose proof (owned_add user_id now [repayment_of D] s (fun _ => Hu) Hs) as H1.
    destruct (add_multiple_transactions user_id now [repayment_of D] s)
      as [s1 [r|e]]; simpl in *; [|exact Hs].
    apply owned_update; [reflexivity|exact H1].
  - unfold check_due_debts. generalize (due_debts today_str s).
    intros due. revert s Hs.
    induction due as [|[[[[debt_id u] debtor] a] c] rest IH]; intros s Hs; simpl;
      [exact Hs|].
    destruct debtor; [|apply IH, Hs].
    destruct (delivered debt_id); [|apply IH, Hs].
    apply IH. apply owned_update; [reflexivity|exact Hs].
Qed.

End Owners.

Lemma handle_contact_keeps_users user_id first_name contact_user_id phone_number
    now users u :
  is_user_registered u users = true ->
  is_user_registered u
    (fst (handle_contact user_id first_name contact_user_id phone_number now users))
  = true.
Proof.
  unfold handle_contact, register_user, is_user_registered. intros H.
  destruct (decide (contact_user_id = Some user_id)); simpl; [|exact H].
  destruct (decide (user_id = u)) as [->|Hne].
  - rewrite lookup_insert_eq. reflexivity.
  - rewrite lookup_insert_ne by exact Hne. exact H.
Qed.

Lemma dispatch_owners fmt py_float b e :
  owners_registered b -> owners_registered (dispatch fmt py_float b e).
Proof.
  unfold owners_registered. intros Hb.
  destruct e as [u|u n c p t|u text answer now|u text answer now|u data now|today d];
    simpl.
  - exact Hb.
  - eapply List.Forall_impl; [|exact Hb]. intros r Hr.
    apply handle_contact_keeps_users, Hr.
  - destruct (handle_text_message_is_add fmt (bot_users b) (fun _ => answer)
                py_float u text now (bot_db b)) as (ds & -> & Hreg).
    apply (owned_add (fun v => is_user_registered v (bot_users b) = true));
      assumption.
  - destruct (handle_voice_message_is_add fmt (bot_users b) (fun _ => answer)
                py_float u text now (bot_db b)) as (ds & -> & Hreg).
    apply (owned_add (fun v => is_user_registered v (bot_users b) = true));
      assumption.
  - destruct (button_handler_is_request fmt (bot_users b) u data now (bot_db b))
      as [->|(Hreg & i & [-> | ->])]; [exact Hb| |];
      apply (owned_handle (fun v => is_user_registered v (bot_users b) = true));
      try assumption; exact I.
  - apply (owned_handle (fun v => is_user_registered v (bot_users b) = true)
             (DueScan today d)); [exact I|exact Hb].
Qed.

(** X26. Whatever events the bot handles from a new database, every row
    of the table belongs to a user who has registered: texts, voice
    messages and buttons of someone who has not shared their own contact
    store nothing, and a registration is never taken back. *)
Theorem rows_belong_to_registered_users (fmt : formats)
    (py_float : string -> option float) (events : list event) :
  owners_registered (bot_run fmt py_float events new_bot).
Proof.
  assert (forall b, owners_registered b ->
                    owners_registered (bot_run fmt py_float events b)) as H.
  { induction events as [|e events IH]; intros b Hb; simpl; [exact Hb|].
    apply IH, dispatch_owners, Hb. }
  apply H. constructor.
Qed.

(** ** The text order of moments *)

Lemma lex_then_assoc a b c : lex_then (lex_then a b) c = lex_then a (lex_then b c).
Proof. destruct a; reflexivity. Qed.

Lemma compare_four_digits y y' s s' :
  (y < 10000)%N -> (y' < 10000)%N ->
  String.compare (two_digits (y / 100) (two_digits (y mod 100) s))
                 (two_digits (y' / 100) (two_digits (y' mod 100) s'))
  = lex_then (y ?= y')%N (String.compare s s').
Proof.
  intros Hy Hy'.
  rewrite !compare_two_digits
    by (try apply N.mod_lt; try (apply N.Div0.div_lt_upper_bound; lia); lia).
  rewrite (N.div_mod y 100) at 3 by lia. rewrite (N.div_mod y' 100) at 3 by lia.
  rewrite compare_base by (apply N.mod_lt; lia).
  rewrite lex_then_assoc. reflexivity.
Qed.

Lemma compare_six_digits n n' s s' :
  (n < 1000000)%N -> (n' < 1000000)%N ->
  String.compare (six_digits n s) (six_digits n' s')
  = lex_then (n ?= n')%N (String.compare s s').
Proof.
  intros Hn Hn'. unfold six_digits.
  rewrite !compare_two_digits
    by (try apply N.mod_lt; try (apply N.Div0.div_lt_upper_bound; lia); lia).
  assert (forall k, k = 10000 * (k / 10000) + (100 * (k / 100 mod 100) + k mod 100))%N
    as Hsplit.
  { intros k. rewrite (N.div_mod k 10000) at 1 by lia. f_equal.
    change 10000%N with (100 * 100)%N. rewrite N.Div0.mod_mul_r. lia. }
  rewrite (Hsplit n) at 4. rewrite (Hsplit n') at 4.
  rewrite compare_base.
  - rewrite compare_base by (apply N.mod_lt; lia).
    rewrite !lex_then_assoc. reflexivity.
  - pose proof (N.mod_lt (n / 100) 100). pose proof (N.mod_lt n 100). lia.
  - pose proof (N.mod_lt (n' / 100) 100). pose proof (N.mod_lt n' 100). lia.
Qed.

Lemma string_compare_refl s : String.compare s s = Eq.
Proof.
  induction s as [|c s IH]; [reflexivity|]. simpl.
  unfold Ascii.compare. rewrite N.compare_refl. exact IH.
Qed.

Lemma compare_fraction us us' :
  (us < 1000000)%N -> (us' < 1000000)%N ->
  String.compare (fraction us) (fraction us') = (us ?= us')%N.
Proof.
  intros H H'. unfold fraction.
  destruct (N.eqb_spec us 0) as [->|Hne]; destruct (N.eqb_spec us' 0) as [->|Hne'].
  - reflexivity.
  - destruct us'; [contradiction|reflexivity].
  - destruct us; [contradiction|reflexivity].
  - rewrite string_compare_cons, compare_six_digits by assumption.
    rewrite string_compare_refl.
    change (Ascii.compare (ascii_of_N 46) (ascii_of_N 46)) with Eq.
    unfold lex_then. destruct (us ?= us')%N; reflexivity.
Qed.

Lemma valid_datetime_bounds t :
  valid_datetime t = true ->
  (1 <= Datetime.year t <= 9999 /\ 1 <= Datetime.month t <= 12
   /\ 1 <= Datetime.day t <= days_in_month (Datetime.year t) (Datetime.month t)
   /\ Datetime.hour t < 24 /\ Datetime.minute t < 60 /\ Datetime.second t < 60
   /\ Datetime.microsecond t < 1000000)%N.
Proof.
  unfold valid_datetime. rewrite !andb_true_iff, !N.leb_le, !N.ltb_lt. tauto.
Qed.

Lemma days_in_month_bounds y m : (28 <= days_in_month y m <= 31)%N.
Proof.
  unfold days_in_month. destruct (m =? 2)%N; [destruct (is_leap y); lia|].
  destruct ((m =? 4) || (m =? 6) || (m =? 9) || (m =? 11))%N; lia.
Qed.

(** On the moments a [datetime] can hold, the order of the texts
    [isoformat] writes is the order of time. *)
Lemma compare_isoformat a b :
  (Datetime.year a < 10000 -> Datetime.year b < 10000 ->
   Datetime.month a < 100 -> Datetime.month b < 100 ->
   Datetime.day a < 100 -> Datetime.day b < 100 ->
   Datetime.hour a < 100 -> Datetime.hour b < 100 ->
   Datetime.minute a < 100 -> Datetime.minute b < 100 ->
   Datetime.second a < 100 -> Datetime.second b < 100 ->
   Datetime.microsecond a < 1000000 -> Datetime.microsecond b < 1000000 ->
   String.compare (isoformat a) (isoformat b) = datetime_compare a b)%N.
Proof.
  intros. unfold isoformat, datetime_compare.
  rewrite compare_four_digits by assumption.
  repeat (rewrite string_compare_cons, compare_two_digits by assumption).
  rewrite compare_fraction by assumption.
  change (Ascii.compare "-" "-") with Eq. change (Ascii.compare "T" "T") with Eq.
  change (Ascii.compare ":" ":") with Eq. reflexivity.
Qed.

Ltac field_bounds :=
  repeat match goal with
         | H : valid_datetime ?t = true |- _ =>
             apply valid_datetime_bounds in H;
             pose proof (days_in_month_bounds (Datetime.year t) (Datetime.month t))
         end.

Ltac order_cases :=
  unfold datetime_compare; cbn [Datetime.year Datetime.month Datetime.day
    Datetime.hour Datetime.minute Datetime.second Datetime.microsecond];
  repeat match goal with
         | |- context [lex_then (?a ?= ?b)%N _] =>
             destruct (N.compare_spec a b); cbn [lex_then]
         end;
  repeat match goal with
         | |- context [(?a ?= ?b)%N] => destruct (N.compare_spec a b)
         end.

(** Whether a text [isoformat] wrote lies in a window. *)
Lemma between_isoformat (t a b : Datetime.t) :
  (Datetime.year t < 10000 -> Datetime.month t < 100 -> Datetime.day t < 100 ->
   Datetime.hour t < 100 -> Datetime.minute t < 100 -> Datetime.second t < 100 ->
   Datetime.microsecond t < 1000000 ->
   Datetime.year a < 10000 -> Datetime.month a < 100 -> Datetime.day a < 100 ->
   Datetime.hour a < 100 -> Datetime.minute a < 100 -> Datetime.second a < 100 ->
   Datetime.microsecond a < 1000000 ->
   Datetime.year b < 10000 -> Datetime.month b < 100 -> Datetime.day b < 100 ->
   Datetime.hour b < 100 -> Datetime.minute b < 100 -> Datetime.second b < 100 ->
   Datetime.microsecond b < 1000000 ->
   between (isoformat t) (a, b)
   = match datetime_compare a t, datetime_compare t b with
     | Gt, _ | _, Gt => false
     | _, _ => true
     end)%N.
Proof.
  intros. unfold between, String.leb. cbn [fst snd].
  rewrite !compare_isoformat by assumption.
  destruct (datetime_compare a t), (datetime_compare t b); reflexivity.
Qed.

Lemma day_and_year_between (today t : Datetime.t) :
  valid_datetime today = true -> valid_datetime t = true ->
  match parse_timeframe_to_dates today "today" None with
  | Ok w => between (isoformat t) w = true <-> same_day t today
  | Raise _ => False
  end
  /\ match parse_timeframe_to_dates today "this_year" None with
     | Ok w => between (isoformat t) w = true <-> same_year t today
     | Raise _ => False
     end.
Proof.
  intros Htoday Ht. field_bounds. cbn [parse_timeframe_to_dates String.eqb Ascii.eqb
    Bool.eqb]. unfold start_of_day, end_of_day, same_day, same_year.
  split.
  - rewrite between_isoformat by (simpl; lia).
    order_cases; split; intros; try discriminate; try reflexivity; lia.
  - rewrite between_isoformat by (simpl; lia).
    order_cases; split; intros; try discriminate; try reflexivity; lia.
Qed.

Lemma month_window_between (t : Datetime.t) (y m : N) :
  valid_datetime t = true -> (1 <= y < 9999 \/ y = 9999 /\ m < 12)%N ->
  (1 <= m <= 12)%N ->
  match month_window (Datetime.mk y m 1 0 0 0 0) with
  | Ok w =>
      between (isoformat t) w = true
      <-> Datetime.year t = y /\ Datetime.month t = m
          /\ (in_last_second t -> Datetime.microsecond t = 0%N)
  | Raise _ => False
  end.
Proof.
  intros Ht Hy Hm. unfold month_window, month_end.
  cbn [Datetime.year Datetime.month].
  assert ((y =? 9999)%N && (m =? 12)%N = false) as ->.
  { apply andb_false_iff. rewrite !N.eqb_neq. lia. }
  pose proof (days_in_month_bounds y m).
  destruct t as [ty tm td th tmi ts tus]. unfold in_last_second.
  field_bounds. cbn [Datetime.year Datetime.month Datetime.day Datetime.hour
    Datetime.minute Datetime.second Datetime.microsecond] in *.
  rewrite between_isoformat by (simpl; lia).
  order_cases; subst; split; intros; try discriminate; try reflexivity; lia.
Qed.

Lemma month_between (today t : Datetime.t) (m : Z) :
  valid_datetime today = true -> valid_datetime t = true ->
  (Datetime.year today < 9999)%N -> 1 <= m <= 12 ->
  match parse_timeframe_to_dates today "month" (Some m) with
  | Ok w =>
      between (isoformat t) w = true
      <-> same_year t today /\ Datetime.month t = Z.to_N m
          /\ (in_last_second t -> Datetime.microsecond t = 0%N)
  | Raise _ => False
  end
  /\ match parse_timeframe_to_dates today "this_month" None with
     | Ok w =>
         between (isoformat t) w = true
         <-> same_year t today /\ Datetime.month t = Datetime.month today
             /\ (in_last_second t -> Datetime.microsecond t = 0%N)
     | Raise _ => False
     end.
Proof.
  intros Htoday Ht Hy Hm. pose proof (valid_datetime_bounds today Htoday) as Hb.
  cbn [parse_timeframe_to_dates String.eqb Ascii.eqb Bool.eqb]. unfold same_year.
  split.
  - assert ((1 <=? m) && (m <=? 12) = true) as ->
      by (apply andb_true_iff; rewrite !Z.leb_le; lia).
    apply month_window_between; [exact Ht|lia|lia].
  - apply month_window_between; [exact Ht|lia|lia].
Qed.

Lemma in_period_iff user_id start_date end_date trans_type r :
  in_period user_id start_date end_date trans_type r = true
  <-> (Tx.user_id r = user_id /\ Tx.type r = trans_type /\ Tx.is_deleted r = 0)
      /\ between (Tx.date r) (start_date, end_date) = true.
Proof.
  unfold in_period. rewrite !andb_true_iff, !Z.eqb_eq, String.eqb_eq. tauto.
Qed.

(** X27. The summaries for today and for this year count exactly the
    rows of the day and of the year: a row whose date [isoformat] wrote for
    a moment of time is selected for the window of today if and only if it
    is an expense of the user (the type written in small letters), not
    deleted, of the same day as the clock's reading; and for the window of
    this year, of the same year. *)
Theorem day_and_year_windows (today t : Datetime.t) (user_id : Z) (r : Tx.t) :
  valid_datetime today = true -> valid_datetime t = true ->
  Tx.date r = isoformat t ->
  match parse_timeframe_to_dates today "today" None with
  | Ok w => in_period user_id (fst w) (snd w) "expense" r = true
            <-> live_expense user_id r /\ same_day t today
  | Raise _ => False
  end
  /\ match parse_timeframe_to_dates today "this_year" None with
     | Ok w => in_period user_id (fst w) (snd w) "expense" r = true
               <-> live_expense user_id r /\ same_year t today
     | Raise _ => False
     end.
Proof.
  intros Htoday Ht Hdate.
  destruct (day_and_year_between today t Htoday Ht) as [Hday Hyear].
  unfold live_expense. split.
  - destruct (parse_timeframe_to_dates today "today" None) as [[a b]|e];
      [|exact Hday].
    rewrite in_period_iff, Hdate. cbn [fst snd]. rewrite Hday. reflexivity.
  - destruct (parse_timeframe_to_dates today "this_year" None) as [[a b]|e];
      [|exact Hyear].
    rewrite in_period_iff, Hdate. cbn [fst snd]. rewrite Hyear. reflexivity.
Qed.

Lemma day_and_year_windows_witness :
  match parse_timeframe_to_dates a_tuesday "today" None with
  | Ok w => in_period 7 (fst w) (snd w) "expense" last_coffee = true
            <-> live_expense 7 last_coffee /\ same_day end_of_september a_tuesday
  | Raise _ => False
  end
  /\ match parse_timeframe_to_dates a_tuesday "this_year" None with
     | Ok w => in_period 7 (fst w) (snd w) "expense" last_coffee = true
               <-> live_expense 7 last_coffee /\ same_year end_of_september a_tuesday
     | Raise _ => False
     end.
Proof.
  apply (day_and_year_windows a_tuesday end_of_september 7 last_coffee);
    reflexivity.
Defined.

(** X28. The windows of the monthly summaries end one second before
    the next month, at microsecond zero.  A row whose date [isoformat]
    wrote for a moment of time is selected for month [m] of this year (and
    likewise for this month) if and only if it is an expense of the user,
    not deleted, of that month, and not written in the last second of the
    month with microseconds other than zero: an expense logged in that
    second is in no monthly summary. *)
Theorem month_window_drops_last_second (today t : Datetime.t) (m : Z)
    (user_id : Z) (r : Tx.t) :
  valid_datetime today = true -> valid_datetime t = true ->
  (Datetime.year today < 9999)%N -> 1 <= m <= 12 ->
  Tx.date r = isoformat t ->
  match parse_timeframe_to_dates today "month" (Some m) with
  | Ok w =>
      in_period user_id (fst w) (snd w) "expense" r = true
      <-> live_expense user_id r
          /\ same_year t today /\ Datetime.month t = Z.to_N m
          /\ (in_last_second t -> Datetime.microsecond t = 0%N)
  | Raise _ => False
  end
  /\ match parse_timeframe_to_dates today "this_month" None with
     | Ok w =>
         in_period user_id (fst w) (snd w) "expense" r = true
         <-> live_expense user_id r
             /\ same_year t today /\ Datetime.month t = Datetime.month today
             /\ (in_last_second t -> Datetime.microsecond t = 0%N)
     | Raise _ => False
     end.
Proof.
  intros Htoday Ht Hy Hm Hdate.
  destruct (month_between today t m Htoday Ht Hy Hm) as [Hmonth Hthis].
  unfold live_expense. split.
  - destruct (parse_timeframe_to_dates today "month" (Some m)) as [[a b]|e];
      [|exact Hmonth].
    rewrite in_period_iff, Hdate. cbn [fst snd]. rewrite Hmonth. reflexivity.
  - destruct (parse_timeframe_to_dates today "this_month" None) as [[a b]|e];
      [|exact Hthis].
    rewrite in_period_iff, Hdate. cbn [fst snd]. rewrite Hthis. reflexivity.
Qed.

Lemma month_window_drops_last_second_witness :
  in_period 7 (Datetime.mk 2025 9 1 0 0 0 0) (Datetime.mk 2025 9 30 23 59 59 0)
            "expense" last_coffee = false
  /\ match parse_timeframe_to_dates a_tuesday "month" (Some 9) with
     | Ok w =>
         in_period 7 (fst w) (snd w) "expense" last_coffee = true
         <-> live_expense 7 last_coffee
             /\ same_year end_of_september a_tuesday
             /\ Datetime.month end_of_september = Z.to_N 9
             /\ (in_last_second end_of_september ->
                 Datetime.microsecond end_of_september = 0%N)
     | Raise _ => False
     end
  /\ match parse_timeframe_to_dates a_tuesday "this_month" None with
     | Ok w =>
         in_period 7 (fst w) (snd w) "expense" last_coffee = true
         <-> live_expense 7 last_coffee
             /\ same_year end_of_september a_tuesday
             /\ Datetime.month end_of_september = Datetime.month a_tuesday
             /\ (in_last_second end_of_september ->
                 Datetime.microsecond end_of_september = 0%N)
     | Raise _ => False
     end.
Proof.
  split; [reflexivity|].
  apply (month_window_drops_last_second a_tuesday end_of_september 9 7 last_coffee);
    try reflexivity; lia.
Defined.
